(** * Bedwars tracking bot: a shallow embedding and its properties

    The development follows the Python sources file by file:

    - [PyFloat]             the few float operations the scripts use;
    - [BedwarsStats]        bedwars_stats.py (session tracker, recent games);
    - [LeaderboardTracker]  leaderboard_tracker.py (level formula, snapshot
                            store, discovery queue, leaderboards);
    - [RecomputeLevels]     extra scripts/recompute_levels.py;
    - [UuidIngestor]        uuid_ingestor.py (scraped-name resolution).

    Python integers are [Z].  Python dictionaries are [gmap]s, JSON files
    on disk are maps from the file's key to its content, and SQL tables
    are lists of rows in rowid order. *)

From Stdlib Require Import ZArith QArith Qabs Qround Lia Lqa List Bool.
From Stdlib Require Import Ascii String DecimalString Sorting.Sorted Permutation.
From stdpp Require Import gmap strings list fin_maps sorting relations.

Open Scope Z_scope.

(* ===================================================================== *)
(** * Floats *)
(* ===================================================================== *)

(** A Python float is modelled by the rational number it stands for; the
    binary representation error of a value is not part of the model.
    [round(x, 3)] yields the multiple of 1/1000 closest to [x].  When [x]
    is half-way between two multiples, Python decides on the binary value
    of [x], which the model does not hold: the direction taken there is
    the parameter [tie_up], and no result below depends on it. *)
Module PyFloat.

Definition float := Q.

Class Ties := tie_up : Q -> bool.

Definition of_int (n : Z) : float := inject_Z n.

(** [a / b] on two integers, [b] not zero. *)
Definition truediv (a b : Z) : float := (inject_Z a / inject_Z b)%Q.

Definition round_nearest `{Ties} (x : Q) : Z :=
  let lo := Qfloor x in
  match (x - inject_Z lo ?= 1 # 2)%Q with
  | Lt => lo
  | Gt => lo + 1
  | Eq => if tie_up x then lo + 1 else lo
  end.

(** [round(x, 3)] *)
Definition round3 `{Ties} (x : float) : float :=
  (inject_Z (round_nearest (x * 1000)) / 1000)%Q.

(** Two ways to settle ties, to evaluate the model on examples. *)
Definition ties_up : Ties := fun _ => true.
Definition ties_down : Ties := fun _ => false.

End PyFloat.

(* ===================================================================== *)
(** * bedwars_stats.py *)
(* ===================================================================== *)

(** [f"{n}"] for an integer [n]. *)
Definition str_of_int (n : Z) : string := NilZero.string_of_int (Z.to_int n).

(** [s.lower()] on ASCII letters, which is also how SQLite's NOCASE folds. *)
Definition str_lower (s : string) : string :=
  String.string_of_list_ascii
    ((λ c, let n := nat_of_ascii c in
           if (65 <=? n)%nat && (n <=? 90)%nat then ascii_of_nat (n + 32) else c)
       <$> String.list_ascii_of_string s).

(** A stable insertion sort: Python's [list.sort] and the order of an
    [ORDER BY].  [after x y] tells whether [x] has to come after [y];
    elements of which neither has to come after the other keep their
    original order. *)
Section StableSort.
Context {A : Type} (after : A -> A -> bool).

Fixpoint insert_sorted (x : A) (l : list A) : list A :=
  match l with
  | [] => [x]
  | y :: l' => if after x y then y :: insert_sorted x l' else x :: l
  end.

Definition stable_sort (l : list A) : list A := foldr insert_sorted [] l.
End StableSort.

Module BedwarsStats.
Import PyFloat.

Module Config.
Definition PLAYER_COOLDOWN_MINUTES : Z := 30.
End Config.

Section Tracker.
Context `{Ties}.

(** ** Statistics as parsed from the API *)

Record mode_stats := {
  ms_wins : Z;
  ms_losses : Z;
  ms_WLR : float;
  ms_winstreak : option Z   (* [None]: the API hides the field *)
}.

Record parsed_stats := {
  wins : Z;
  losses : Z;
  WLR : float;
  winstreak : option Z;
  modes : gmap string mode_stats
}.

(** BedwarsStatsTracker.calculate_wlr *)
Definition calculate_wlr (wins losses : Z) : float :=
  if 0 <? losses then round3 (truediv wins losses) else of_int wins.

(** The "Bedwars" object of the player document: integer counters by
    key; [stats.get(key, 0)] is [get0]. *)
Definition get0 (stats : gmap string Z) (key : string) : Z :=
  default 0 (stats !! key).

(** BedwarsStatsTracker._parse_mode_stats *)
Definition _parse_mode_stats (stats : gmap string Z) (mode_prefix : string)
  : mode_stats :=
  let wins := get0 stats (mode_prefix +:+ "_wins_bedwars") in
  let losses := get0 stats (mode_prefix +:+ "_losses_bedwars") in
  {| ms_wins := wins; ms_losses := losses;
     ms_WLR := calculate_wlr wins losses;
     ms_winstreak := stats !! (mode_prefix +:+ "_winstreak") |}.

(** BedwarsStatsTracker._parse_bedwars_stats *)
Definition _parse_bedwars_stats (stats : gmap string Z) : parsed_stats :=
  let overall_wins := get0 stats "wins_bedwars" in
  let overall_losses := get0 stats "losses_bedwars" in
  {| wins := overall_wins; losses := overall_losses;
     WLR := calculate_wlr overall_wins overall_losses;
     winstreak := stats !! "winstreak";
     modes :=
       <["solos" := _parse_mode_stats stats "eight_one"]>
       (<["doubles" := _parse_mode_stats stats "eight_two"]>
       (<["threes" := _parse_mode_stats stats "four_three"]>
       (<["fours" := _parse_mode_stats stats "four_four"]> ∅))) |}.

(** ** Session differences *)

Record wl_diff := { d_wins : Z; d_losses : Z; d_WLR : float }.

Record session_diff := {
  overall : wl_diff;
  modes_diff : gmap string wl_diff
}.

Definition mk_wl_diff (wins_diff losses_diff : Z) : wl_diff :=
  {| d_wins := wins_diff; d_losses := losses_diff;
     d_WLR := calculate_wlr wins_diff losses_diff |}.

(** The body of the loop over [current_stats["modes"].items()]: the
    entry written to [modes_diff] for [mode], if any. *)
Definition mode_diff (baseline_modes : gmap string mode_stats)
    (mode : string) (current_mode_stats : mode_stats) : option wl_diff :=
  let '(baseline_wins, baseline_losses) :=
    match baseline_modes !! mode with
    | Some b => (ms_wins b, ms_losses b)
    | None => (0, 0)
    end in
  let wins_diff := ms_wins current_mode_stats - baseline_wins in
  let losses_diff := ms_losses current_mode_stats - baseline_losses in
  if negb (wins_diff =? 0) || negb (losses_diff =? 0)
  then Some (mk_wl_diff wins_diff losses_diff)
  else None.

(** BedwarsStatsTracker.calculate_session_diff *)
Definition calculate_session_diff (current_stats baseline_stats : parsed_stats)
  : session_diff :=
  {| overall := mk_wl_diff (wins current_stats - wins baseline_stats)
                           (losses current_stats - losses baseline_stats);
     modes_diff := map_imap (mode_diff (modes baseline_stats))
                            (modes current_stats) |}.

(** ** Winstreak estimates *)

Record estimate := {
  api_value : option Z;     (* the key is only there once the API reported *)
  min_possible : Z;
  max_possible : Z;
  likely : float
}.

Definition fresh_estimate : estimate :=
  {| api_value := None; min_possible := 0; max_possible := 0; likely := 0%Q |}.

(** The three values the loop body reads for [scope]. *)
Definition scope_inputs (diff : session_diff) (current_stats : parsed_stats)
    (scope : string) : Z * Z * option Z :=
  if decide (scope = "overall") then
    (d_wins (overall diff), d_losses (overall diff), winstreak current_stats)
  else if decide (is_Some (modes_diff diff !! scope)) then
    (d_wins (overall diff), d_losses (overall diff),
     modes current_stats !! scope ≫= ms_winstreak)
  else (0, 0, None).

(** One iteration of the loop of update_winstreak_estimates. *)
Definition update_scope (diff : session_diff) (current_stats : parsed_stats)
    (winstreak_data : gmap string estimate) (scope : string)
  : gmap string estimate :=
  let '(wins, losses, api_winstreak) := scope_inputs diff current_stats scope in
  if (wins =? 0) && (losses =? 0) then winstreak_data
  else
    let e := default fresh_estimate (winstreak_data !! scope) in
    match api_winstreak with
    | Some w =>
        <[scope := {| api_value := Some w; min_possible := w;
                      max_possible := w; likely := of_int w |}]> winstreak_data
    | None =>
        if 0 <? losses then
          <[scope := {| api_value := api_value e; min_possible := 0;
                        max_possible := wins;
                        likely := truediv wins (losses + 1) |}]> winstreak_data
        else
          <[scope := {| api_value := api_value e;
                        min_possible := min_possible e + wins;
                        max_possible := max_possible e + wins;
                        likely := (likely e + of_int wins)%Q |}]> winstreak_data
    end.

Definition scopes_of (diff : session_diff) : list string :=
  "overall" :: (map_to_list (modes_diff diff)).*1.

(** BedwarsStatsTracker.update_winstreak_estimates; the dictionary it
    mutates is returned. *)
Definition update_winstreak_estimates (winstreak_data : gmap string estimate)
    (diff : session_diff) (current_stats : parsed_stats) : gmap string estimate :=
  foldl (update_scope diff current_stats) winstreak_data (scopes_of diff).

(** ** Files of the tracker *)

(** A session file: the "winstreak" object and the "session_<n>" entries
    by their number.  The "summary" list is a rendering of the sessions
    that is rebuilt at every write and is left out. *)
Record session_data := {
  sd_winstreak : gmap string estimate;
  sd_sessions : gmap nat session_diff
}.

Definition empty_session_data : session_data :=
  {| sd_winstreak := ∅; sd_sessions := ∅ |}.

Record cooldown := { last_check : Z; api_on : bool }.

Record game := {
  game_id : string;
  timestamp : Z;
  mode : string;
  map_name : string
}.

Record recent_games_data := {
  recent_games : list game;
  api_enabled : bool
}.

(** The tracker's persistent state, every file keyed by player name. *)
Record tracker := {
  baseline_files : gmap string parsed_stats;
  session_files : gmap string session_data;
  recent_games_files : gmap string recent_games_data;
  player_cooldowns : gmap string cooldown
}.

(** BedwarsStatsTracker.process_player_session.  [fetched] is the result
    of fetch_player_stats ([None] when the request failed) and [now] the
    clock reading; writes to disk are taken to succeed. *)
Definition process_player_session (player_name : string)
    (fetched : option parsed_stats) (now : Z) (t : tracker) : tracker :=
  match fetched with
  | None => t
  | Some current_stats =>
      match baseline_files t !! player_name with
      | None =>
          {| baseline_files := <[player_name := current_stats]> (baseline_files t);
             session_files := session_files t;
             recent_games_files := recent_games_files t;
             player_cooldowns := player_cooldowns t |}
      | Some baseline_stats =>
          if (wins current_stats =? wins baseline_stats)
             && (losses current_stats =? losses baseline_stats)
          then t
          else
            let session_data :=
              default empty_session_data (session_files t !! player_name) in
            let diff := calculate_session_diff current_stats baseline_stats in
            let games_played := d_wins (overall diff) + d_losses (overall diff) in
            let cooldowns :=
              if (1 <=? games_played) && (games_played <=? 2)
              then <[player_name := {| last_check := now; api_on := true |}]>
                     (player_cooldowns t)
              else player_cooldowns t in
            let session_num := S (size (sd_sessions session_data)) in
            let winstreak_data :=
              update_winstreak_estimates (sd_winstreak session_data)
                                         diff current_stats in
            let new_session_data :=
              {| sd_winstreak := winstreak_data;
                 sd_sessions := <[session_num := diff]> (sd_sessions session_data) |} in
            {| baseline_files := <[player_name := current_stats]> (baseline_files t);
               session_files := <[player_name := new_session_data]> (session_files t);
               recent_games_files := recent_games_files t;
               player_cooldowns := cooldowns |}
      end
  end.

(** ** Recent games *)

(** One element of the "games" list of the recent-games document.  Every
    game of the API carries an integer "date". *)
Record api_game := {
  gameType : option string;
  date : Z;
  api_mode : option string;
  api_map : option string
}.

Definition mode_mapping : gmap string string :=
  <["BEDWARS_EIGHT_ONE" := "solos"]>
  (<["BEDWARS_EIGHT_TWO" := "doubles"]>
  (<["BEDWARS_FOUR_THREE" := "threes"]>
  (<["BEDWARS_FOUR_FOUR" := "fours"]> ∅))).

(** BedwarsStatsTracker._parse_bedwars_game.  No operation of the body
    can raise on such a game, so the parsed game is returned as it is. *)
Definition _parse_bedwars_game (g : api_game) : game :=
  let date_timestamp := date g in
  let mode := default "UNKNOWN" (api_mode g) in
  let readable_mode := default mode (mode_mapping !! mode) in
  let game_id :=
    str_of_int date_timestamp +:+ "_" +:+ mode +:+ "_"
      +:+ default "UNKNOWN" (api_map g) in
  {| game_id := game_id; timestamp := date_timestamp;
     mode := readable_mode; map_name := default "Unknown Map" (api_map g) |}.

(** BedwarsStatsTracker.fetch_recent_games, after the request: [data] is
    the "games" list of the answer, [None] when there was no answer. *)
Definition fetch_recent_games (data : option (list api_game))
  : option recent_games_data :=
  games ← data;
  Some {| api_enabled := bool_decide (0 < length games)%nat;
          recent_games :=
            _parse_bedwars_game <$>
              filter (λ g, gameType g = Some "BEDWARS") games |}.

(** The new content of the player's file, given what was fetched. *)
Definition merge_recent_games (existing : list game) (fetched : list game)
  : list game :=
  let new_games :=
    filter (λ g, game_id g ∉ game_id <$> existing) fetched in
  match new_games with
  | [] => existing
  | _ => take 50 (stable_sort (λ x y, timestamp x <? timestamp y)
                        (new_games ++ existing))
  end.

(** The "recent_games" list of the player's file, empty without a file. *)
Definition recent_log (t : tracker) (player_name : string) : list game :=
  default [] (recent_games <$> recent_games_files t !! player_name).

(** BedwarsStatsTracker.process_recent_games *)
Definition process_recent_games (player_name : string)
    (data : option (list api_game)) (t : tracker) : tracker :=
  match fetch_recent_games data with
  | None => t
  | Some recent_games_response =>
      let existing := recent_log t player_name in
      let new_file :=
        {| recent_games :=
             merge_recent_games existing (recent_games recent_games_response);
           api_enabled := api_enabled recent_games_response |} in
      {| baseline_files := baseline_files t;
         session_files := session_files t;
         recent_games_files := <[player_name := new_file]> (recent_games_files t);
         player_cooldowns := player_cooldowns t |}
  end.

(** ** Name changes *)

(** One record of the name-change log of the tracker. *)
Record name_change := { new_name : string; change_date : Z }.

(** The part of fetch_player_stats that keeps the name-change log:
    [current_name] is the "displayname" of the player document. *)
Definition detect_name_change (original_name : string)
    (current_name : option string) (now : Z)
    (name_changes : gmap string (list name_change))
  : gmap string (list name_change) :=
  match current_name with
  | Some current_name =>
      if bool_decide (current_name ≠ "")
         && bool_decide (str_lower current_name ≠ str_lower original_name)
      then
        let records := default [] (name_changes !! original_name) in
        let already_recorded :=
          bool_decide (Exists (λ record, new_name record = current_name) records) in
        if already_recorded
        then <[original_name := records]> name_changes
        else <[original_name :=
                 records ++ [{| new_name := current_name; change_date := now |}]]>
               name_changes
      else name_changes
  | None => name_changes
  end.

(** The "player" object of the player document: its "displayname" and
    the object under "stats" / "Bedwars" (empty when there is none). *)
Record player_document := {
  displayname : option string;
  bedwars : gmap string Z
}.

(** BedwarsStatsTracker.fetch_player_stats, after the request: [data] is
    the "player" object of the answer, [None] when there was no answer
    or no such object. *)
Definition fetch_player_stats (original_name : string)
    (data : option player_document) (now : Z)
    (name_changes : gmap string (list name_change))
  : option parsed_stats * gmap string (list name_change) :=
  match data with
  | None => (None, name_changes)
  | Some player_data =>
      (Some (_parse_bedwars_stats (bedwars player_data)),
       detect_name_change original_name (displayname player_data) now name_changes)
  end.

(** Whether process_player_session logs a session for these statistics:
    there is a baseline and the wins or the losses moved. *)
Definition logs_session (player_name : string) (current_stats : parsed_stats)
    (t : tracker) : bool :=
  match baseline_files t !! player_name with
  | Some baseline_stats =>
      negb ((wins current_stats =? wins baseline_stats)
            && (losses current_stats =? losses baseline_stats))
  | None => false
  end.

(** ** One check cycle *)

(** The cooldown gate of the loop of [run]; times are in seconds. *)
Definition on_cooldown (now : Z) (cooldown_info : cooldown) : bool :=
  now <? last_check cooldown_info + Config.PLAYER_COOLDOWN_MINUTES * 60.

(** What the loop of [run] gets from outside for a player: the clock at
    the gate and at the session, the parsed statistics (the result of
    fetch_player_stats) and the games of the recent-games answer. *)
Record cycle_world := {
  gate_time : string -> tracker -> Z;
  session_time : string -> tracker -> Z;
  stats_answer : string -> tracker -> option parsed_stats;
  recent_answer : string -> tracker -> option (list api_game)
}.

(** The body of the loop over [valid_players] in [run]. *)
Definition check_player (w : cycle_world) (t : tracker) (player_name : string)
  : tracker :=
  let skipped :=
    match player_cooldowns t !! player_name with
    | Some cooldown_info => on_cooldown (gate_time w player_name t) cooldown_info
    | None => false
    end in
  if skipped then t
  else
    let t1 := process_player_session player_name (stats_answer w player_name t)
                (session_time w player_name t) t in
    process_recent_games player_name (recent_answer w player_name t1) t1.

(** One pass of the [while True] loop of [run] over the players. *)
Definition check_cycle (w : cycle_world) (valid_players : list string)
    (t : tracker) : tracker :=
  foldl (check_player w) t valid_players.

End Tracker.

(** A session file is numbered densely when its sessions are 1, ..., n. *)
Definition numbered_densely (sd : session_data) : Prop :=
  forall k : nat,
    is_Some (sd_sessions sd !! k) <-> (1 <= k <= size (sd_sessions sd))%nat.

(** A log is newest first when no entry is older than one after it. *)
Definition newest_first (log : list game) : Prop :=
  StronglySorted (λ a b, timestamp b <= timestamp a) log.

End BedwarsStats.

(* ===================================================================== *)
(** * leaderboard_tracker.py *)
(* ===================================================================== *)

Module LeaderboardTracker.
Import PyFloat.

Module Config.
Definition PLAYERS_PER_CYCLE : Z := 200.
Definition MIN_BEDWARS_WINS : Z := 0.
End Config.

(** ** The level formula *)

(** The [for cost in costs] loop with its [break]: it stops at the first
    cost that cannot be paid and returns the experience left and the
    levels gained. *)
Fixpoint consume_costs (costs : list Z) (remaining_xp levels_in_prestige : Z)
  : Z * Z :=
  match costs with
  | [] => (remaining_xp, levels_in_prestige)
  | cost :: rest =>
      if remaining_xp >=? cost
      then consume_costs rest (remaining_xp - cost) (levels_in_prestige + 1)
      else (remaining_xp, levels_in_prestige)
  end.

(** MassiveBedwarsTracker.calculate_bedwars_level *)
Definition calculate_bedwars_level (experience : Z) : Z :=
  let xp := experience in
  let xp_for_prestige := 487000 in
  let prestiges := xp / xp_for_prestige in
  let level := prestiges * 100 in
  let remaining_xp := xp mod xp_for_prestige in
  let costs := [500; 1000; 2000; 3500] in
  let '(remaining_xp, levels_in_prestige) := consume_costs costs remaining_xp 0 in
  let levels_from_normal_xp := remaining_xp / 5000 in
  let levels_in_prestige := levels_in_prestige + levels_from_normal_xp in
  level + levels_in_prestige.

(** ** The store *)

(** The dictionary fetch_player_stats builds, which save_player_stats
    writes to the two tables column by column. *)
Record player_stats := {
  uuid : string;
  username : string;
  bedwars_level : Z;
  last_login : option string;
  wins : Z;
  losses : Z;
  kills : Z;
  deaths : Z;
  final_kills : Z;
  final_deaths : Z;
  beds_broken : Z;
  beds_lost : Z;
  coins : Z;
  experience : Z;
  games_played : Z;
  winstreak : option Z;
  solos_wins : Z;
  solos_losses : Z;
  solos_winstreak : option Z;
  doubles_wins : Z;
  doubles_losses : Z;
  doubles_winstreak : option Z;
  threes_wins : Z;
  threes_losses : Z;
  threes_winstreak : option Z;
  fours_wins : Z;
  fours_losses : Z;
  fours_winstreak : option Z
}.

(** Table players; [p_uuid] is the primary key. *)
Record player_row := {
  p_uuid : string;
  p_username : string;
  p_first_seen : Z;
  p_last_updated : Z;
  p_discovery_method : string;
  p_is_active : bool;
  p_bedwars_level : Z;
  p_last_login : option string
}.

(** Table bedwars_stats: the row id, the time of the insert and the
    counters of the fetch. *)
Record stats_row := {
  s_id : Z;
  s_timestamp : Z;
  s_stats : player_stats
}.

(** The generated columns,
    [CASE WHEN den > 0 THEN CAST(num AS REAL) / den ELSE num END]. *)
Definition generated_ratio (num den : Z) : float :=
  if 0 <? den then truediv num den else of_int num.

Definition wlr (s : stats_row) : float :=
  generated_ratio (wins (s_stats s)) (losses (s_stats s)).
Definition kdr (s : stats_row) : float :=
  generated_ratio (kills (s_stats s)) (deaths (s_stats s)).
Definition fkdr (s : stats_row) : float :=
  generated_ratio (final_kills (s_stats s)) (final_deaths (s_stats s)).
Definition bblr (s : stats_row) : float :=
  generated_ratio (beds_broken (s_stats s)) (beds_lost (s_stats s)).

(** Table player_discovery. *)
Record discovery_row := {
  id : Z;
  discovered_uuid : string;
  source_uuid : option string;
  discovery_method : string;
  discovered_at : Z;
  processed : bool
}.

Record db := {
  players : list player_row;
  bedwars_stats : list stats_row;
  player_discovery : list discovery_row
}.

(** What the tracker did to a queue row, in the order it did it.  The
    list of events is not in the program; it is written by the operations
    below at the place where the program acts.  A fetch records what it
    finds when the request is made: whether the row is flagged processed
    in the store as the connection sees it, and whether it is in what
    has been committed. *)
Inductive event :=
| Marked (item_id : Z)
| FetchAttempted (item_id : Z) (marked committed_mark : bool).

(** The tracker: the store as its connection sees it ([conn], with the
    writes of the open transaction), the store as of the last commit
    ([committed], what is left when the process ends or the transaction
    is rolled back), the request budget and the events so far.  The
    sqlite3 module opens a transaction before an INSERT, UPDATE or
    REPLACE and keeps it open until [commit()]. *)
Record tracker := {
  conn : db;
  committed : db;
  rate_limit_remaining : Z;
  history : list event
}.

Definition with_conn (st : tracker) (d : db) : tracker :=
  {| conn := d; committed := committed st;
     rate_limit_remaining := rate_limit_remaining st;
     history := history st |}.

Definition with_rate_limit (st : tracker) (r : Z) : tracker :=
  {| conn := conn st; committed := committed st;
     rate_limit_remaining := r; history := history st |}.

Definition record_event (st : tracker) (e : event) : tracker :=
  {| conn := conn st; committed := committed st;
     rate_limit_remaining := rate_limit_remaining st;
     history := history st ++ [e] |}.

(** [self.conn.commit()] *)
Definition commit (st : tracker) : tracker :=
  {| conn := conn st; committed := conn st;
     rate_limit_remaining := rate_limit_remaining st;
     history := history st |}.

(** The process ends (an exception reaches the top, or the operator
    stops it) and the program is started again: the writes that were
    not committed are gone, and [__init__] sets the budget to 120. *)
Definition restart (st : tracker) : tracker :=
  {| conn := committed st; committed := committed st;
     rate_limit_remaining := 120;
     history := history st |}.

(** The id an AUTOINCREMENT column gives to the next row: above every id
    in the table (no row is ever deleted). *)
Definition next_id (ids : list Z) : Z := 1 + foldr Z.max 0 ids.

(** ** The discovery queue *)

Definition remove_dashes (s : string) : string :=
  String.string_of_list_ascii
    (filter (λ c, c ≠ "-"%char) (String.list_ascii_of_string s)).

(** [s[a:b]] and [s[a:]] *)
Definition slice (a b : nat) (s : string) : string :=
  String.string_of_list_ascii (take (b - a) (drop a (String.list_ascii_of_string s))).
Definition slice_from (a : nat) (s : string) : string :=
  String.string_of_list_ascii (drop a (String.list_ascii_of_string s)).

Definition format_uuid (uuid : string) : string :=
  let clean_uuid := remove_dashes uuid in
  slice 0 8 clean_uuid +:+ "-" +:+ slice 8 12 clean_uuid +:+ "-"
    +:+ slice 12 16 clean_uuid +:+ "-" +:+ slice 16 20 clean_uuid +:+ "-"
    +:+ slice_from 20 clean_uuid.

(** [INSERT INTO player_discovery (discovered_uuid, source_uuid,
    discovery_method) VALUES (?, ?, ?)] at time [now]: the other columns
    take their defaults. *)
Definition insert_discovery (discovered_uuid : string)
    (source_uuid : option string) (discovery_method : string) (now : Z)
    (rows : list discovery_row) : list discovery_row :=
  rows ++ [{| id := next_id (id <$> rows);
              discovered_uuid := discovered_uuid;
              source_uuid := source_uuid;
              discovery_method := discovery_method;
              discovered_at := now;
              processed := false |}].

(** MassiveBedwarsTracker.add_player_to_discovery at time [now].  In the
    second query AND binds tighter than OR. *)
Definition add_player_to_discovery (uuid : string) (source_uuid : option string)
    (method : string) (now : Z) (d : db) : db * bool :=
  let formatted_uuid := format_uuid uuid in
  if bool_decide (Exists (λ p, p_uuid p = uuid ∨ p_uuid p = formatted_uuid)
                         (players d)) then (d, false)
  else if bool_decide
            (Exists (λ q, discovered_uuid q = uuid
                          ∨ (discovered_uuid q = formatted_uuid
                             ∧ processed q = false))
                    (player_discovery d)) then (d, false)
  else
    ({| players := players d;
        bedwars_stats := bedwars_stats d;
        player_discovery :=
          insert_discovery formatted_uuid source_uuid method now
                           (player_discovery d) |}, true).

(** MassiveBedwarsTracker.save_player_stats at time [now].  INSERT OR
    REPLACE drops the row that holds the same primary key. *)
Definition save_player_stats (stats : player_stats) (discovery_method : string)
    (now : Z) (d : db) : db :=
  {| players :=
       filter (λ p, p_uuid p ≠ uuid stats) (players d) ++
         [{| p_uuid := uuid stats;
             p_username := username stats;
             p_first_seen := now;
             p_last_updated := now;
             p_discovery_method := discovery_method;
             p_is_active := true;
             p_bedwars_level := bedwars_level stats;
             p_last_login := last_login stats |}];
     bedwars_stats :=
       bedwars_stats d ++
         [{| s_id := next_id (s_id <$> bedwars_stats d);
             s_timestamp := now;
             s_stats := stats |}];
     player_discovery := player_discovery d |}.

(** [UPDATE player_discovery SET processed = TRUE WHERE id = ?] *)
Definition set_processed (item_id : Z) (d : db) : db :=
  {| players := players d;
     bedwars_stats := bedwars_stats d;
     player_discovery :=
       (λ q, if bool_decide (id q = item_id)
             then {| id := id q; discovered_uuid := discovered_uuid q;
                     source_uuid := source_uuid q;
                     discovery_method := discovery_method q;
                     discovered_at := discovered_at q;
                     processed := true |}
             else q) <$> player_discovery d |}.

(** [LIMIT n]: a negative [n] is no limit. *)
Definition sql_limit {A} (n : Z) (l : list A) : list A :=
  if n <? 0 then l else take (Z.to_nat n) l.

(** [ORDER BY discovered_at], the smaller first. *)
Definition order_by_discovered_at (l : list discovery_row) : list discovery_row :=
  stable_sort (λ x y, discovered_at y <? discovered_at x) l.

(** [SELECT ... FROM player_discovery WHERE processed = FALSE
     ORDER BY discovered_at LIMIT ?] *)
Definition select_queue_items (limit : Z) (d : db) : list discovery_row :=
  sql_limit limit
    (order_by_discovered_at
       (filter (λ q, processed q = false) (player_discovery d))).

(** Whether the row of that id is flagged processed in a store. *)
Definition is_processed (item_id : Z) (d : db) : bool :=
  bool_decide (Exists (λ q, id q = item_id ∧ processed q = true)
                      (player_discovery d)).

(** The outside world, as the loop sees it.  The requests are functions
    of the tracker at the time of the call, so that they may answer
    anything and differently each time:
    - [fetch_player_stats uuid st] is what a call of the method of that
      name comes to: [Some (stats, budget)] when it returns, with its
      result ([None] for a failed request, a status other than 200, a
      document without a player) and the request budget left after it;
      [None] when it does not return, because an exception that
      make_api_request does not catch leaves it (it catches
      requests.RequestException only) or the operator interrupts the
      request or its sleep;
    - [guild_members uuid st] is the roster request of
      discover_players_from_guild: the uuids of the "members" list
      ([None] for a member without one; the list is empty when there is
      no guild or no answer) and the budget left after it.  It is made
      after the commit of save_player_stats, with nothing uncommitted,
      and is taken to return;
    - [clock st] is CURRENT_TIMESTAMP. *)
Record world := {
  fetch_player_stats : string -> tracker -> option (option player_stats * Z);
  guild_members : string -> tracker -> list (option string) * Z;
  clock : tracker -> Z
}.

(** add_player_to_discovery on the connection, at time [now]: the
    INSERT is committed at once (line 314); a call that returns False
    has written nothing and commits nothing. *)
Definition queue_player (uuid : string) (source_uuid : option string)
    (method : string) (now : Z) (st : tracker) : tracker * bool :=
  let '(d, added) :=
    add_player_to_discovery uuid source_uuid method now (conn st) in
  (if added then commit (with_conn st d) else with_conn st d, added).

(** A row the name ingestor queues from its own connection: the insert
    is committed, and this connection sees it from then on. *)
Definition queue_scraped (uuid : string) (method : string) (now : Z) (d : db)
  : db :=
  {| players := players d;
     bedwars_stats := bedwars_stats d;
     player_discovery :=
       insert_discovery uuid None method now (player_discovery d) |}.

Section Queue.
Context (w : world).

(** MassiveBedwarsTracker.discover_players_from_guild *)
Definition discover_players_from_guild (uuid : string) (st : tracker)
  : tracker * Z :=
  let '(members, budget) := guild_members w uuid st in
  let st := with_rate_limit st budget in
  foldl (λ '(st, discovered) member,
           match member with
           | Some member_uuid =>
               if bool_decide (member_uuid = "") then (st, discovered)
               else
                 let '(st', added) :=
                   queue_player member_uuid (Some uuid) "guild"
                                (clock w st) st in
                 (st', if added then discovered + 1 else discovered)
           | None => (st, discovered)
           end)
        (st, 0) members.

(** [UPDATE player_discovery SET processed = TRUE WHERE id = ?] in the
    loop (lines 502-505): the row is flagged in the open transaction;
    nothing is committed here. *)
Definition mark_processed (item : discovery_row) (st : tracker) : tracker :=
  record_event (with_conn st (set_processed (id item) (conn st)))
               (Marked (id item)).

(** [stats = self.fetch_player_stats(uuid)] in the loop (line 508), with
    what the request finds of the row's flag when it is made. *)
Definition attempt_fetch (item : discovery_row) (st : tracker)
  : tracker * option (option player_stats * Z) :=
  let st :=
    record_event st (FetchAttempted (id item)
                                    (is_processed (id item) (conn st))
                                    (is_processed (id item) (committed st))) in
  (st, fetch_player_stats w (discovered_uuid item) st).

(** One turn of the loop of process_discovery_queue, past the check of
    the budget: the tracker when the turn is left, the count, and
    whether the turn was left by an exception of the fetch ([true]),
    in which case nothing after the fetch has run: no commit. *)
Definition process_item (item : discovery_row) (st : tracker)
    (processed_count : Z) : tracker * Z * bool :=
  let st := mark_processed item st in
  let '(st, answer) := attempt_fetch item st in
  match answer with
  | None => (st, processed_count, true)
  | Some (stats, budget) =>
      let st := with_rate_limit st budget in
      match stats with
      | Some stats =>
          let st :=
            commit (with_conn st (save_player_stats stats (discovery_method item)
                                                    (clock w st) (conn st))) in
          let st :=
            if 20 <? rate_limit_remaining st
            then (discover_players_from_guild (discovered_uuid item) st).1
            else st in
          (commit st, processed_count + 1, false)
      | None => (commit st, processed_count, false)
      end
  end.

(** The loop over the rows selected, with its [break]; an exception
    ends it where it is. *)
Fixpoint process_items (queue_items : list discovery_row) (st : tracker)
    (processed_count : Z) : tracker * Z * bool :=
  match queue_items with
  | [] => (st, processed_count, false)
  | item :: rest =>
      if rate_limit_remaining st <=? 5 then (st, processed_count, false)
      else
        let '(st, processed_count, raised) :=
          process_item item st processed_count in
        if raised then (st, processed_count, true)
        else process_items rest st processed_count
  end.

(** MassiveBedwarsTracker.process_discovery_queue with the way it is
    left: by [return] ([false]) or by an exception of a fetch ([true]). *)
Definition run_discovery_queue (limit : option Z) (st : tracker)
  : tracker * Z * bool :=
  let limit := default Config.PLAYERS_PER_CYCLE limit in
  let queue_items := select_queue_items limit (conn st) in
  process_items queue_items st 0.

(** MassiveBedwarsTracker.process_discovery_queue: the tracker when the
    call is left and the value of [processed] then, which is what the
    call returns when it returns. *)
Definition process_discovery_queue (limit : option Z) (st : tracker)
  : tracker * Z :=
  (run_discovery_queue limit st).1.

End Queue.

(** ** Leaderboards *)

Section Leaderboards.
Context `{Ties}.












(** The list [leaderboards] of generate_leaderboards: key, title and the
    column of the ORDER BY. *)
Definition leaderboards : list (string * string * (stats_row -> float)) :=
  [ ("wins", "Top 100 Players by Wins", λ s, of_int (wins (s_stats s)));
    ("wlr", "Top 100 Players by W/L Ratio", wlr);
    ("final_kills", "Top 100 Players by Final Kills",
       λ s, of_int (final_kills (s_stats s)));
    ("fkdr", "Top 100 Players by FKDR", fkdr);
    ("beds_broken", "Top 100 Players by Beds Broken",
       λ s, of_int (beds_broken (s_stats s)));
    ("bblr", "Top 100 Players by BB/BL Ratio", bblr);
    ("solos_wins", "Top 100 Solo Players", λ s, of_int (solos_wins (s_stats s)));
    ("doubles_wins", "Top 100 Doubles Players",
       λ s, of_int (doubles_wins (s_stats s)));
    ("threes_wins", "Top 100 Threes Players",
       λ s, of_int (threes_wins (s_stats s)));
    ("fours_wins", "Top 100 Fours Players",
       λ s, of_int (fours_wins (s_stats s))) ].


End Leaderboards.

(** ** Lookups and seeding *)

(** MassiveBedwarsTracker.get_username_from_uuid_from_db *)
Definition get_username_from_uuid_from_db (d : db) (uuid : string)
  : option string :=
  p_username <$> head (filter (λ p, p_uuid p = uuid) (players d)).

(** MassiveBedwarsTracker.get_player_uuid_from_db; the comparison is
    COLLATE NOCASE. *)
Definition get_player_uuid_from_db (d : db) (player_name : string)
  : option string :=
  p_uuid <$> head (filter (λ p, str_lower (p_username p) = str_lower player_name)
                          (players d)).

(** The "player" object of the player document, for this tracker. *)
Record player_document := {
  displayname : option string;
  lastLogin : option Z;
  bedwars : gmap string Z
}.

(** MassiveBedwarsTracker.fetch_player_stats, after the request.  [data]
    is the "player" object of the answer ([None] without one) and
    [isoformat] stands for
    [datetime.fromtimestamp(ms / 1000).isoformat()], which depends on
    the time zone of the machine. *)
Definition stats_of_player (isoformat : Z -> string) (d : db) (uuid : string)
    (data : option player_document) : option player_stats :=
  player_data ← data;
  let bedwars_stats := bedwars player_data in
  let get := λ key, default 0 (bedwars_stats !! key) in
  let total_wins := get "wins_bedwars" in
  if total_wins <? Config.MIN_BEDWARS_WINS then None
  else
    let username := default "Unknown" (displayname player_data) in
    let username :=
      if bool_decide (username = "Unknown")
      then match get_username_from_uuid_from_db d uuid with
           | Some name => if bool_decide (name = "") then "Unknown" else name
           | None => "Unknown"
           end
      else username in
    let last_login_dt :=
      match lastLogin player_data with
      | Some last_login =>
          if last_login =? 0 then None else Some (isoformat last_login)
      | None => None
      end in
    let experience := get "Experience" in
    let level := calculate_bedwars_level experience in
    Some {| uuid := uuid;
            username := username;
            bedwars_level := level;
            last_login := last_login_dt;
            wins := get "wins_bedwars";
            losses := get "losses_bedwars";
            kills := get "kills_bedwars";
            deaths := get "deaths_bedwars";
            final_kills := get "final_kills_bedwars";
            final_deaths := get "final_deaths_bedwars";
            beds_broken := get "beds_broken_bedwars";
            beds_lost := get "beds_lost_bedwars";
            coins := get "coins";
            experience := experience;
            games_played := get "games_played_bedwars";
            winstreak := bedwars_stats !! "winstreak";
            solos_wins := get "eight_one_wins_bedwars";
            solos_losses := get "eight_one_losses_bedwars";
            solos_winstreak := bedwars_stats !! "eight_one_winstreak";
            doubles_wins := get "eight_two_wins_bedwars";
            doubles_losses := get "eight_two_losses_bedwars";
            doubles_winstreak := bedwars_stats !! "eight_two_winstreak";
            threes_wins := get "four_three_wins_bedwars";
            threes_losses := get "four_three_losses_bedwars";
            threes_winstreak := bedwars_stats !! "four_three_winstreak";
            fours_wins := get "four_four_wins_bedwars";
            fours_losses := get "four_four_losses_bedwars";
            fours_winstreak := bedwars_stats !! "four_four_winstreak" |}.

(** One leaderboard of the leaderboards document. *)
Record api_leaderboard := {
  board_title : option string;
  board_leaders : list string
}.

(** The loops of seed_from_leaderboards over the document: the game
    types with their leaderboards, in the order of the document.
    [stamp] is CURRENT_TIMESTAMP at an insert. *)
Definition seed_leaders (stamp : db -> Z) (game_type lb_title : string)
    (leaders : list string) (acc : db * Z) : db * Z :=
  foldl (λ '(d, added_count) uuid,
           let '(d', added) :=
             add_player_to_discovery uuid None
               ("leaderboard_" +:+ game_type +:+ "_" +:+ lb_title) (stamp d) d in
           (d', if added then added_count + 1 else added_count))
        acc leaders.

Definition seed_boards (stamp : db -> Z)
    (boards : list (string * list api_leaderboard)) (d : db) : db * Z :=
  foldl (λ acc '(game_type, leaderboards),
           if bool_decide (game_type ≠ "BEDWARS") then acc
           else foldl (λ acc lb,
                         seed_leaders stamp game_type
                           (default "Unknown" (board_title lb))
                           (board_leaders lb) acc)
                      acc leaderboards)
        (d, 0) boards.

(** MassiveBedwarsTracker.seed_from_leaderboards at time [now] (in
    seconds).  [data] is the "leaderboards" object of a successful
    answer, [None] when the request failed; the result is the store,
    the new [last_leaderboard_fetch] and the count returned. *)
Definition seed_from_leaderboards (stamp : db -> Z)
    (data : option (list (string * list api_leaderboard)))
    (now last_leaderboard_fetch : Z) (d : db) : db * Z * Z :=
  if now - last_leaderboard_fetch <? 3600 then (d, last_leaderboard_fetch, 0)
  else
    match data with
    | None => (d, last_leaderboard_fetch, 0)
    | Some boards =>
        let '(d', added_count) := seed_boards stamp boards d in
        (d', now, added_count)
    end.

(** Every snapshot belongs to a player of the players table. *)
Definition snapshots_have_players (d : db) : Prop :=
  forall s, s ∈ bedwars_stats d ->
    exists p, p ∈ players d /\ p_uuid p = uuid (s_stats s).

(** [d'] is [d] with [n] more rows in the queue, all of them open, and
    nothing else changed. *)
Definition queued_more (d d' : db) (n : Z) : Prop :=
  players d' = players d /\ bedwars_stats d' = bedwars_stats d
  /\ exists added,
       player_discovery d' = player_discovery d ++ added
       /\ Z.of_nat (length added) = n
       /\ Forall (λ q, processed q = false) added.

(** The store is well keyed when the uuids of the players, the ids of the
    snapshots and the ids of the queue rows are distinct and every
    snapshot has its player. *)
Definition well_keyed (d : db) : Prop :=
  NoDup (p_uuid <$> players d)
  /\ NoDup (s_id <$> bedwars_stats d)
  /\ NoDup (id <$> player_discovery d)
  /\ snapshots_have_players d.

(** The keys of the store hold when a uuid names one player and a player
    has one snapshot at a given timestamp. *)
Definition keys_hold (d : db) : Prop :=
  NoDup (p_uuid <$> players d)
  /\ NoDup ((λ s, (uuid (s_stats s), s_timestamp s)) <$> bedwars_stats d).

(** Rows in descending order of a column: [x] may come before [y]. *)
Definition by_col (col : stats_row -> float)
  : relation (player_row * stats_row) :=
  λ x y, (col y.2 <= col x.2)%Q.

(** ** The life of the queue *)

(** What happens to the tracker while its process lives: a run of
    process_discovery_queue against some world, a call of
    add_player_to_discovery (seeding, guild walk), a row queued by the
    name ingestor, which writes to the same table, or a request that
    changes the budget. *)
Inductive step : tracker -> tracker -> Prop :=
| step_consume (w : world) (limit : option Z) (st : tracker) :
    step st (process_discovery_queue w limit st).1
| step_add (uuid : string) (source_uuid : option string) (method : string)
    (now : Z) (st : tracker) :
    step st (queue_player uuid source_uuid method now st).1
| step_ingest (uuid : string) (method : string) (now : Z) (st : tracker) :
    step st {| conn := queue_scraped uuid method now (conn st);
               committed := queue_scraped uuid method now (committed st);
               rate_limit_remaining := rate_limit_remaining st;
               history := history st |}
| step_budget (budget : Z) (st : tracker) :
    step st (with_rate_limit st budget).

(** The events a run added to the history. *)
Definition events_of_run (before after : tracker) : list event :=
  drop (length (history before)) (history after).

(** The rows whose fetch was attempted, in the order of the attempts. *)
Definition fetched_ids (evs : list event) : list Z :=
  evs ≫= λ e, match e with
              | FetchAttempted item_id _ _ => [item_id]
              | Marked _ => []
              end.

(** A queue row is consumed when it is in the table and every row that
    bears its id is flagged processed. *)
Definition consumed (item_id : Z) (d : db) : Prop :=
  item_id ∈ id <$> player_discovery d
  /\ forall q, q ∈ player_discovery d -> id q = item_id -> processed q = true.

(** The queue of [d'] has grown from the one of [d]: no id is lost and no
    consumed row is open again. *)
Definition queue_grows (d d' : db) : Prop :=
  (forall i, i ∈ id <$> player_discovery d -> i ∈ id <$> player_discovery d')
  /\ (forall i, consumed i d -> consumed i d').

End LeaderboardTracker.

(* ===================================================================== *)
(** * extra scripts/recompute_levels.py *)
(* ===================================================================== *)

Module RecomputeLevels.

(** recompute_levels.calculate_bedwars_level: the utility carries its
    own copy of the formula, with its own loop. *)
Fixpoint pay (costs : list Z) (remaining_xp levels_in_prestige : Z) : Z * Z :=
  match costs with
  | [] => (remaining_xp, levels_in_prestige)
  | cost :: costs' =>
      if remaining_xp >=? cost
      then pay costs' (remaining_xp - cost) (levels_in_prestige + 1)
      else (remaining_xp, levels_in_prestige)
  end.

Definition calculate_bedwars_level (experience : Z) : Z :=
  let xp := experience in
  let xp_for_prestige := 487000 in
  let prestiges := xp / xp_for_prestige in
  let level := prestiges * 100 in
  let remaining_xp := xp mod xp_for_prestige in
  let costs := [500; 1000; 2000; 3500] in
  let '(remaining_xp, levels_in_prestige) := pay costs remaining_xp 0 in
  let levels_from_normal_xp := remaining_xp / 5000 in
  let levels_in_prestige := levels_in_prestige + levels_from_normal_xp in
  level + levels_in_prestige.

(** [SELECT experience FROM bedwars_stats WHERE uuid = ?
     ORDER BY timestamp DESC LIMIT 1] *)
Definition latest_experience (d : LeaderboardTracker.db) (uuid : string)
  : option Z :=
  (λ s, LeaderboardTracker.experience (LeaderboardTracker.s_stats s)) <$>
    head (stable_sort
            (λ x y, LeaderboardTracker.s_timestamp x
                    <? LeaderboardTracker.s_timestamp y)
            (filter (λ s, LeaderboardTracker.uuid (LeaderboardTracker.s_stats s)
                          = uuid)
                    (LeaderboardTracker.bedwars_stats d))).

(** The list [updates_to_perform]: a new level and the uuid, for each
    player whose level differs from the one recomputed. *)
Definition updates_to_perform (d : LeaderboardTracker.db) : list (Z * string) :=
  omap (λ p,
          match latest_experience d (LeaderboardTracker.p_uuid p) with
          | Some experience =>
              let new_level := calculate_bedwars_level experience in
              if bool_decide (new_level ≠ LeaderboardTracker.p_bedwars_level p)
              then Some (new_level, LeaderboardTracker.p_uuid p)
              else None
          | None => None
          end)
       (LeaderboardTracker.players d).

(** A players row with another level. *)
Definition with_bedwars_level (p : LeaderboardTracker.player_row) (level : Z)
  : LeaderboardTracker.player_row :=
  {| LeaderboardTracker.p_uuid := LeaderboardTracker.p_uuid p;
     LeaderboardTracker.p_username := LeaderboardTracker.p_username p;
     LeaderboardTracker.p_first_seen := LeaderboardTracker.p_first_seen p;
     LeaderboardTracker.p_last_updated := LeaderboardTracker.p_last_updated p;
     LeaderboardTracker.p_discovery_method :=
       LeaderboardTracker.p_discovery_method p;
     LeaderboardTracker.p_is_active := LeaderboardTracker.p_is_active p;
     LeaderboardTracker.p_bedwars_level := level;
     LeaderboardTracker.p_last_login := LeaderboardTracker.p_last_login p |}.

(** [UPDATE players SET bedwars_level = ? WHERE uuid = ?] *)
Definition set_level (update : Z * string)
    (rows : list LeaderboardTracker.player_row)
  : list LeaderboardTracker.player_row :=
  (λ p, if bool_decide (LeaderboardTracker.p_uuid p = update.2)
        then with_bedwars_level p update.1
        else p) <$> rows.

(** recompute_levels.recompute_all_levels on an open database. *)
Definition recompute_all_levels (d : LeaderboardTracker.db)
  : LeaderboardTracker.db :=
  {| LeaderboardTracker.players :=
       foldl (λ rows update, set_level update rows)
             (LeaderboardTracker.players d) (updates_to_perform d);
     LeaderboardTracker.bedwars_stats := LeaderboardTracker.bedwars_stats d;
     LeaderboardTracker.player_discovery := LeaderboardTracker.player_discovery d |}.

End RecomputeLevels.

(* ===================================================================== *)
(** * uuid_ingestor.py *)
(* ===================================================================== *)

Module UuidIngestor.
Import PyFloat.
Import LeaderboardTracker.

Module Config.
Definition REQUEST_DELAY : float := 2%Q.
Definition RATE_LIMIT_BACKOFF_SECONDS : Z := 10.
Definition MAX_RATE_LIMIT_BACKOFF_SECONDS : Z := 600.
End Config.

Inductive status := SUCCESS | PLAYER_NOT_FOUND | RATE_LIMITED | ERROR.

(** What [requests.get] on the name endpoint can come back with. *)
Inductive response :=
| Status200 (body_id : option string)   (* the "id" of the body, if any *)
| Status404
| Status429
| StatusOther (code : Z)
| RequestException.

Record name_change := { old_name : string; new_name : string; date : Z }.

(** A call of get_player_uuid_and_name made by process_scraped_names:
    the line, the name and the status that came back.  The list of
    calls is not in the program; it is kept to state which names are
    tried. *)
Record lookup := { lk_line : Z; lk_name : string; lk_status : status }.

Record ingestor := {
  table_players : list player_row;
  table_discovery : list discovery_row;
  uuid_cache : gmap string string;
  name_changes : gmap string (list name_change);
  progress_file : option Z;       (* the line number in PROGRESS_FILE *)
  requests_made : nat;            (* requests sent so far *)
  slept : list float;             (* arguments of time.sleep, in order *)
  lookups : list lookup
}.

(** The identity API and the other sources of chance: the answer of the
    [n]-th request when it asks for a name, the answer of the [n]-th
    request when it asks for the name of a uuid ([None] when the
    request raises, else what _get_username_from_uuid_mojang returns),
    [random.uniform(0, 1)] drawn at that point, and the clock. *)
Record world := {
  name_endpoint : string -> nat -> response;
  profile_endpoint : string -> nat -> option (option string);
  jitter : nat -> float;
  now : nat -> Z
}.

Definition sleep (seconds : float) (st : ingestor) : ingestor :=
  {| table_players := table_players st; table_discovery := table_discovery st;
     uuid_cache := uuid_cache st; name_changes := name_changes st;
     progress_file := progress_file st; requests_made := requests_made st;
     slept := slept st ++ [seconds]; lookups := lookups st |}.

Definition count_request (st : ingestor) : ingestor :=
  {| table_players := table_players st; table_discovery := table_discovery st;
     uuid_cache := uuid_cache st; name_changes := name_changes st;
     progress_file := progress_file st; requests_made := S (requests_made st);
     slept := slept st; lookups := lookups st |}.

Definition with_cache (st : ingestor) (c : gmap string string) : ingestor :=
  {| table_players := table_players st; table_discovery := table_discovery st;
     uuid_cache := c; name_changes := name_changes st;
     progress_file := progress_file st; requests_made := requests_made st;
     slept := slept st; lookups := lookups st |}.

Definition record_lookup (st : ingestor) (l : lookup) : ingestor :=
  {| table_players := table_players st; table_discovery := table_discovery st;
     uuid_cache := uuid_cache st; name_changes := name_changes st;
     progress_file := progress_file st; requests_made := requests_made st;
     slept := slept st; lookups := lookups st ++ [l] |}.

(** UUIDIngestor._get_last_processed_line *)
Definition _get_last_processed_line (st : ingestor) : Z :=
  default 0 (progress_file st).

(** UUIDIngestor._update_last_processed_line *)
Definition _update_last_processed_line (line_number : Z) (st : ingestor)
  : ingestor :=
  {| table_players := table_players st; table_discovery := table_discovery st;
     uuid_cache := uuid_cache st; name_changes := name_changes st;
     progress_file := Some line_number; requests_made := requests_made st;
     slept := slept st; lookups := lookups st |}.

(** UUIDIngestor._log_name_change *)
Definition _log_name_change (old_name new_name : string) (date : Z)
    (st : ingestor) : ingestor :=
  let change_record :=
    {| old_name := old_name; new_name := new_name; date := date |} in
  {| table_players := table_players st; table_discovery := table_discovery st;
     uuid_cache := uuid_cache st;
     name_changes :=
       <[old_name := default [] (name_changes st !! old_name) ++ [change_record]]>
         (name_changes st);
     progress_file := progress_file st; requests_made := requests_made st;
     slept := slept st; lookups := lookups st |}.

(** [s.lower()] on ASCII letters *)
Definition lower (s : string) : string :=
  String.string_of_list_ascii
    ((λ c, let n := nat_of_ascii c in
           if (65 <=? n)%nat && (n <=? 90)%nat then ascii_of_nat (n + 32) else c)
       <$> String.list_ascii_of_string s).

Section Resolution.
Context (w : world).

(** The [while retries < 3] loop of get_player_uuid_and_name.  An answer
    200 without an "id" starts the loop again with [retries] unchanged,
    so the loop need not end: [fuel] bounds the iterations and [None]
    is a run that did not end within it. *)
Fixpoint request_loop (fuel : nat) (player_name : string)
    (current_backoff retries : Z) (st : ingestor)
  : option (option string * option string * status * ingestor) :=
  match fuel with
  | O => None
  | S fuel =>
      if retries <? 3 then
        let n := requests_made st in
        let st := count_request st in
        match name_endpoint w player_name n with
        | RequestException =>
            request_loop fuel player_name current_backoff (retries + 1) st
        | answer =>
            let st := sleep Config.REQUEST_DELAY st in
            match answer with
            | Status200 (Some uuid) =>
                if bool_decide (uuid = "")
                then request_loop fuel player_name current_backoff retries st
                else
                  let formatted_uuid := format_uuid uuid in
                  let st := with_cache st (<[player_name := formatted_uuid]>
                                             (uuid_cache st)) in
                  Some (Some formatted_uuid, Some player_name, SUCCESS, st)
            | Status200 None =>
                request_loop fuel player_name current_backoff retries st
            | Status404 => Some (None, None, PLAYER_NOT_FOUND, st)
            | Status429 =>
                let sleep_time :=
                  (of_int (Z.min current_backoff
                                 Config.MAX_RATE_LIMIT_BACKOFF_SECONDS)
                   + jitter w n)%Q in
                let st := sleep sleep_time st in
                request_loop fuel player_name (current_backoff * 2)
                             (retries + 1) st
            | _ =>
                request_loop fuel player_name current_backoff (retries + 1) st
            end
        end
      else Some (None, None, ERROR, st)
  end.

(** UUIDIngestor.get_player_uuid_and_name *)
Definition get_player_uuid_and_name (fuel : nat) (player_name : string)
    (st : ingestor)
  : option (option string * option string * status * ingestor) :=
  match uuid_cache st !! player_name with
  | Some uuid =>
      let n := requests_made st in
      let st := count_request st in
      let answer := profile_endpoint w uuid n in
      let st := match answer with
                | Some _ => sleep Config.REQUEST_DELAY st
                | None => st
                end in
      match mjoin answer with
      | Some current_name =>
          if bool_decide (current_name ≠ "")
             && bool_decide (lower current_name ≠ lower player_name)
          then
            let st := _log_name_change player_name current_name (now w n) st in
            let st := with_cache st (delete player_name
                                       (<[current_name := uuid]> (uuid_cache st))) in
            Some (Some uuid, Some current_name, SUCCESS, st)
          else Some (Some uuid, Some player_name, SUCCESS, st)
      | None => Some (Some uuid, Some player_name, SUCCESS, st)
      end
  | None =>
      request_loop fuel player_name Config.RATE_LIMIT_BACKOFF_SECONDS 0 st
  end.

(** UUIDIngestor.add_uuid_to_discovery_queue; the INSERT is taken to
    succeed (no lock on the database). *)
Definition add_uuid_to_discovery_queue (uuid : string)
    (discovery_method : string) (at_time : Z) (st : ingestor)
  : ingestor * bool :=
  if bool_decide (Exists (λ p, p_uuid p = uuid) (table_players st))
     || bool_decide (Exists (λ q, discovered_uuid q = uuid ∧ processed q = false)
                            (table_discovery st))
  then (st, false)
  else
    ({| table_players := table_players st;
        table_discovery :=
          insert_discovery uuid None discovery_method at_time
                           (table_discovery st);
        uuid_cache := uuid_cache st; name_changes := name_changes st;
        progress_file := progress_file st; requests_made := requests_made st;
        slept := slept st; lookups := lookups st |}, true).

Definition is_space (c : ascii) : bool :=
  let n := nat_of_ascii c in
  (n =? 32)%nat || ((9 <=? n)%nat && (n <=? 13)%nat)
    || ((28 <=? n)%nat && (n <=? 31)%nat).

Fixpoint lstrip (l : list ascii) : list ascii :=
  match l with
  | c :: l' => if is_space c then lstrip l' else l
  | [] => []
  end.

(** [line.strip()] *)
Definition strip (line : string) : string :=
  String.string_of_list_ascii
    (rev (lstrip (rev (lstrip (String.list_ascii_of_string line))))).

(** The loop over [enumerate(f, 1)] of process_scraped_names, from line
    [i] on.  [last_processed_line] is read once, before the loop. *)
Fixpoint process_lines (fuel : nat) (lines : list string) (i : Z)
    (last_processed_line : Z) (st : ingestor) (processed_count : Z)
  : option (ingestor * Z) :=
  match lines with
  | [] => Some (st, processed_count)
  | line :: rest =>
      let current_line_number := i in
      if current_line_number <=? last_processed_line
      then process_lines fuel rest (i + 1) last_processed_line st processed_count
      else
        let name := strip line in
        if bool_decide (name = "") then
          process_lines fuel rest (i + 1) last_processed_line
            (_update_last_processed_line current_line_number st) processed_count
        else
          '(uuid, current_name, status, st) ← get_player_uuid_and_name fuel name st;
          let st := record_lookup st {| lk_line := current_line_number;
                                        lk_name := name; lk_status := status |} in
          let '(st, processed_count) :=
            match status with
            | SUCCESS =>
                let '(st, added) :=
                  add_uuid_to_discovery_queue (default "" uuid) "mineflayer_scrape"
                                              (now w (requests_made st)) st in
                (_update_last_processed_line current_line_number st,
                 if added then processed_count + 1 else processed_count)
            | PLAYER_NOT_FOUND =>
                (_update_last_processed_line current_line_number st,
                 processed_count)
            | RATE_LIMITED | ERROR => (st, processed_count)
            end in
          let st := sleep Config.REQUEST_DELAY st in
          process_lines fuel rest (i + 1) last_processed_line st processed_count
  end.

(** UUIDIngestor.process_scraped_names: [scraped_names] is the content of
    SCRAPED_NAMES_FILE by lines, [None] when the file does not exist. *)
Definition process_scraped_names (fuel : nat)
    (scraped_names : option (list string)) (st : ingestor)
  : option (ingestor * Z) :=
  match scraped_names with
  | None => Some (st, 0)
  | Some lines =>
      let last_processed_line := _get_last_processed_line st in
      process_lines fuel lines 1 last_processed_line st 0
  end.

End Resolution.

End UuidIngestor.

(** The level as the specification words it: prestiges of 487000, then the
    four reduced tiers taken greedily in order, then flat 5000 each. *)
Definition level_by_tiers (experience : Z) : Z :=
  let prestiges := experience / 487000 in
  let r := experience mod 487000 in
  let in_prestige :=
    if r <? 500 then 0 + r / 5000
    else if r - 500 <? 1000 then 1 + (r - 500) / 5000
    else if r - 1500 <? 2000 then 2 + (r - 1500) / 5000
    else if r - 3500 <? 3500 then 3 + (r - 3500) / 5000
    else 4 + (r - 7000) / 5000 in
  100 * prestiges + in_prestige.

(* ===================================================================== *)
(** * Concrete inputs *)
(* ===================================================================== *)

Module Examples.

(** A player's counters before and after a session of three solo wins
    and one doubles loss. *)
Definition before_session : gmap string Z :=
  list_to_map [("wins_bedwars", 10); ("losses_bedwars", 5);
               ("eight_one_wins_bedwars", 5);
               ("eight_two_wins_bedwars", 5); ("eight_two_losses_bedwars", 5)].

Definition after_session : gmap string Z :=
  list_to_map [("wins_bedwars", 13); ("losses_bedwars", 6);
               ("eight_one_wins_bedwars", 8);
               ("eight_two_wins_bedwars", 5); ("eight_two_losses_bedwars", 6)].

(** A solo game as the recent-games endpoint lists it, and the same game
    with the mode written the way the statistics keys write it. *)
Definition solo_game : BedwarsStats.api_game :=
  {| BedwarsStats.gameType := Some "BEDWARS";
     BedwarsStats.date := 1700000000000;
     BedwarsStats.api_mode := Some "BEDWARS_EIGHT_ONE";
     BedwarsStats.api_map := Some "Lighthouse" |}.

Definition eight_one_game : BedwarsStats.api_game :=
  {| BedwarsStats.gameType := Some "BEDWARS";
     BedwarsStats.date := 1700000000000;
     BedwarsStats.api_mode := Some "eight_one";
     BedwarsStats.api_map := Some "Lighthouse" |}.

Definition no_files : BedwarsStats.tracker :=
  {| BedwarsStats.baseline_files := ∅;
     BedwarsStats.session_files := ∅;
     BedwarsStats.recent_games_files := ∅;
     BedwarsStats.player_cooldowns := ∅ |}.

(** A store of three players with 10, 50 and 30 wins; the second one also
    has an older snapshot, of 45 wins. *)
Definition blank_stats (uuid username : string) (wins : Z)
  : LeaderboardTracker.player_stats :=
  {| LeaderboardTracker.uuid := uuid;
     LeaderboardTracker.username := username;
     LeaderboardTracker.bedwars_level := 0;
     LeaderboardTracker.last_login := None;
     LeaderboardTracker.wins := wins;
     LeaderboardTracker.losses := 0;
     LeaderboardTracker.kills := 0;
     LeaderboardTracker.deaths := 0;
     LeaderboardTracker.final_kills := 0;
     LeaderboardTracker.final_deaths := 0;
     LeaderboardTracker.beds_broken := 0;
     LeaderboardTracker.beds_lost := 0;
     LeaderboardTracker.coins := 0;
     LeaderboardTracker.experience := 0;
     LeaderboardTracker.games_played := 0;
     LeaderboardTracker.winstreak := None;
     LeaderboardTracker.solos_wins := 0;
     LeaderboardTracker.solos_losses := 0;
     LeaderboardTracker.solos_winstreak := None;
     LeaderboardTracker.doubles_wins := 0;
     LeaderboardTracker.doubles_losses := 0;
     LeaderboardTracker.doubles_winstreak := None;
     LeaderboardTracker.threes_wins := 0;
     LeaderboardTracker.threes_losses := 0;
     LeaderboardTracker.threes_winstreak := None;
     LeaderboardTracker.fours_wins := 0;
     LeaderboardTracker.fours_losses := 0;
     LeaderboardTracker.fours_winstreak := None |}.

Definition empty_db : LeaderboardTracker.db :=
  {| LeaderboardTracker.players := [];
     LeaderboardTracker.bedwars_stats := [];
     LeaderboardTracker.player_discovery := [] |}.

Definition three_players : LeaderboardTracker.db :=
  LeaderboardTracker.save_player_stats (blank_stats "u3" "Carol" 30) "guild" 400
    (LeaderboardTracker.save_player_stats (blank_stats "u2" "Bob" 50) "guild" 300
       (LeaderboardTracker.save_player_stats (blank_stats "u2" "Bob" 45) "guild" 200
          (LeaderboardTracker.save_player_stats
             (blank_stats "u1" "Alice" 10) "leaderboard" 100 empty_db))).


(** Two rows in the queue, all committed; a world in which every fetch
    fails (the request returns without a player), and one in which no
    fetch returns (the operator interrupts it, or it raises). *)
Definition two_rows : LeaderboardTracker.db :=
  {| LeaderboardTracker.players := [];
     LeaderboardTracker.bedwars_stats := [];
     LeaderboardTracker.player_discovery :=
       LeaderboardTracker.insert_discovery
         "1b2c3d4e-0000-0000-0000-000000000002" None "guild" 20
         (LeaderboardTracker.insert_discovery
            "1b2c3d4e-0000-0000-0000-000000000001" None
            "leaderboard_BEDWARS_Wins" 10 []) |}.

Definition two_queued : LeaderboardTracker.tracker :=
  {| LeaderboardTracker.conn := two_rows;
     LeaderboardTracker.committed := two_rows;
     LeaderboardTracker.rate_limit_remaining := 120;
     LeaderboardTracker.history := [] |}.

Definition failing_world : LeaderboardTracker.world :=
  {| LeaderboardTracker.fetch_player_stats :=
       λ _ st, Some (None, LeaderboardTracker.rate_limit_remaining st - 1);
     LeaderboardTracker.guild_members :=
       λ _ st, ([], LeaderboardTracker.rate_limit_remaining st - 1);
     LeaderboardTracker.clock :=
       λ st, 30 + Z.of_nat (length (LeaderboardTracker.history st)) |}.

Definition interrupted_world : LeaderboardTracker.world :=
  {| LeaderboardTracker.fetch_player_stats := λ _ _, None;
     LeaderboardTracker.guild_members :=
       λ _ st, ([], LeaderboardTracker.rate_limit_remaining st - 1);
     LeaderboardTracker.clock :=
       λ st, 30 + Z.of_nat (length (LeaderboardTracker.history st)) |}.

(** A file of two scraped names, an ingestor that starts from nothing,
    and a world in which the first name is always answered 429 while the
    second resolves. *)
Definition newline : string := String (ascii_of_nat 10) "".

Definition scraped_names : list string :=
  ["Technoblade" +:+ newline; "Dream" +:+ newline].

Definition fresh_ingestor : UuidIngestor.ingestor :=
  {| UuidIngestor.table_players := [];
     UuidIngestor.table_discovery := [];
     UuidIngestor.uuid_cache := ∅;
     UuidIngestor.name_changes := ∅;
     UuidIngestor.progress_file := None;
     UuidIngestor.requests_made := 0;
     UuidIngestor.slept := [];
     UuidIngestor.lookups := [] |}.

Definition throttled_world : UuidIngestor.world :=
  {| UuidIngestor.name_endpoint :=
       λ name _, if bool_decide (name = "Technoblade")
                 then UuidIngestor.Status429
                 else UuidIngestor.Status200
                        (Some "ec70bcaf702f4bb8b48d276fa52a780c");
     UuidIngestor.profile_endpoint := λ _ _, None;
     UuidIngestor.jitter := λ _, (1 # 2)%Q;
     UuidIngestor.now := λ n, 1700000000 + Z.of_nat n |}.

(** The counters after a session of one win, and the counters of the
    longer session with a winstreak reported. *)
Definition one_more_win : gmap string Z :=
  <["wins_bedwars" := 11]> before_session.

Definition after_session_streak : gmap string Z :=
  <["winstreak" := 4]> after_session.

(** A game of another game type. *)
Definition skywars_game : BedwarsStats.api_game :=
  {| BedwarsStats.gameType := Some "SKYWARS";
     BedwarsStats.date := 1700000500000;
     BedwarsStats.api_mode := Some "solo_normal";
     BedwarsStats.api_map := Some "Onionring" |}.

(** A world of the check cycle in which no request succeeds and the
    clock stands at 60 seconds. *)
Definition silent_world : BedwarsStats.cycle_world :=
  {| BedwarsStats.gate_time := λ _ _, 60;
     BedwarsStats.session_time := λ _ _, 60;
     BedwarsStats.stats_answer := λ _ _, None;
     BedwarsStats.recent_answer := λ _ _, None |}.

(** The player document of the second player of [three_players], now
    with 52 wins and 8200 experience, and the statistics built from it. *)
Definition fetched_document : LeaderboardTracker.player_document :=
  {| LeaderboardTracker.displayname := Some "Bob";
     LeaderboardTracker.lastLogin := None;
     LeaderboardTracker.bedwars :=
       list_to_map [("wins_bedwars", 52); ("Experience", 8200)] |}.

Definition fetched_stats : LeaderboardTracker.player_stats :=
  default (blank_stats "" "" 0)
    (LeaderboardTracker.stats_of_player (λ _, "") three_players "u2"
       (Some fetched_document)).

(** The queue of [two_queued] after a run in which every fetch failed. *)
Definition two_failed : LeaderboardTracker.tracker :=
  (LeaderboardTracker.process_discovery_queue failing_world None two_queued).1.

(** A world in which the name endpoint answers 200 without an id. *)
Definition empty_answer_world : UuidIngestor.world :=
  {| UuidIngestor.name_endpoint := λ _ _, UuidIngestor.Status200 None;
     UuidIngestor.profile_endpoint := λ _ _, None;
     UuidIngestor.jitter := λ _, 0%Q;
     UuidIngestor.now := λ n, 1700000000 + Z.of_nat n |}.

(** A file in which the throttled name comes back after the one that
    resolves, and the ingestor after a first run over it. *)
Definition scraped_names_again : list string :=
  scraped_names ++ ["Technoblade" +:+ newline].

Definition after_first_run : UuidIngestor.ingestor :=
  (default (fresh_ingestor, 0)
     (UuidIngestor.process_scraped_names throttled_world 10
        (Some scraped_names_again) fresh_ingestor)).1.

End Examples.

(* ===================================================================== *)
(** * Properties *)
(* ===================================================================== *)

(** ** The stable sort *)

Section StableSortFacts.
Context {A : Type} (after : A -> A -> bool).

Lemma insert_sorted_perm (x : A) (l : list A) : insert_sorted after x l ≡ₚ x :: l.
Proof.
  induction l as [|y l IH]; simpl; [reflexivity|].
  destruct (after x y); [|reflexivity].
  rewrite IH. apply Permutation_swap.
Qed.

Lemma stable_sort_perm (l : list A) : stable_sort after l ≡ₚ l.
Proof.
  induction l as [|x l IH]; simpl; [reflexivity|].
  unfold stable_sort in *. simpl. rewrite insert_sorted_perm, IH. reflexivity.
Qed.

Context (R : relation A) `{!Transitive R}.
Hypothesis after_true : forall x y, after x y = true -> R y x.
Hypothesis after_false : forall x y, after x y = false -> R x y.

Lemma insert_sorted_sorted (x : A) (l : list A) :
  StronglySorted R l -> StronglySorted R (insert_sorted after x l).
Proof.
  induction l as [|y l IH]; simpl; intros Hs.
  - repeat constructor.
  - apply StronglySorted_cons in Hs as [Hy Hl].
    destruct (after x y) eqn:E.
    + apply StronglySorted_cons. split; [|auto].
      rewrite insert_sorted_perm. constructor; [auto | exact Hy].
    + apply StronglySorted_cons. split.
      * constructor; [auto|].
        eapply Forall_impl; [exact Hy|]. intros z Hz. simpl in Hz.
        transitivity y; auto.
      * apply StronglySorted_cons. auto.
Qed.

Lemma stable_sort_sorted (l : list A) : StronglySorted R (stable_sort after l).
Proof.
  induction l as [|x l IH]; simpl; [constructor|].
  apply insert_sorted_sorted, IH.
Qed.

Lemma StronglySorted_take (n : nat) (l : list A) :
  StronglySorted R l -> StronglySorted R (take n l).
Proof.
  intros Hs. rewrite <- (take_drop n l) in Hs.
  eapply StronglySorted_app_1_l, Hs.
Qed.
End StableSortFacts.

(** ** The level formula *)

Lemma consume_costs_pay (costs : list Z) (remaining_xp levels : Z) :
  LeaderboardTracker.consume_costs costs remaining_xp levels
  = RecomputeLevels.pay costs remaining_xp levels.
Proof.
  revert remaining_xp levels.
  induction costs as [|cost costs IH]; intros; simpl; [reflexivity|].
  destruct (remaining_xp >=? cost); [apply IH | reflexivity].
Qed.

(** C1.  The level of the leaderboard generator is 100 levels for each
    full 487000 experience, then one level for each of the tiers 500,
    1000, 2000, 3500 that the rest can pay in that order, then one level
    for each further 5000; it sends 0 to 0, 500 to 1, 487000 to 100, 7000
    to 4 and 12000 to 5. *)
Theorem calculate_bedwars_level_by_tiers :
  (forall experience : Z,
      LeaderboardTracker.calculate_bedwars_level experience
      = level_by_tiers experience)
  /\ LeaderboardTracker.calculate_bedwars_level 0 = 0
  /\ LeaderboardTracker.calculate_bedwars_level 500 = 1
  /\ LeaderboardTracker.calculate_bedwars_level 487000 = 100
  /\ LeaderboardTracker.calculate_bedwars_level 7000 = 4
  /\ LeaderboardTracker.calculate_bedwars_level 12000 = 5.
Proof.
  split; [|repeat split; reflexivity].
  intros experience.
  unfold LeaderboardTracker.calculate_bedwars_level, level_by_tiers.
  set (r := experience mod 487000).
  set (p := experience / 487000).
  cbn [LeaderboardTracker.consume_costs].
  rewrite !Z.geb_leb.
  destruct (Z.leb_spec 500 r) as [H1|H1]; destruct (Z.ltb_spec r 500); try lia.
  - destruct (Z.leb_spec 1000 (r - 500)); destruct (Z.ltb_spec (r - 500) 1000);
      try lia.
    + replace (r - 500 - 1000) with (r - 1500) by lia.
      destruct (Z.leb_spec 2000 (r - 1500)); destruct (Z.ltb_spec (r - 1500) 2000);
        try lia.
      replace (r - 1500 - 2000) with (r - 3500) by lia.
      destruct (Z.leb_spec 3500 (r - 3500)); destruct (Z.ltb_spec (r - 3500) 3500);
        try lia.
      replace (r - 3500 - 3500) with (r - 7000) by lia. lia.
Qed.

(** C10.  The level formula of the leaderboard generator and the one of
    the recompute utility give the same level on every experience. *)
Theorem calculate_bedwars_level_agree (experience : Z) :
  LeaderboardTracker.calculate_bedwars_level experience
  = RecomputeLevels.calculate_bedwars_level experience.
Proof.
  unfold LeaderboardTracker.calculate_bedwars_level,
    RecomputeLevels.calculate_bedwars_level.
  rewrite consume_costs_pay. reflexivity.
Qed.

(** ** The ratio convention *)

Section Ratio.
Import PyFloat.
Context `{Ties}.

Lemma round_nearest_close (x : Q) :
  (Qabs (inject_Z (round_nearest x) - x) <= 1 # 2)%Q.
Proof.
  unfold round_nearest.
  pose proof (Qfloor_le x) as Hlo.
  pose proof (Qlt_floor x) as Hhi.
  rewrite inject_Z_plus in Hhi. change (inject_Z 1) with 1%Q in Hhi.
  destruct (Qcompare_spec (x - inject_Z (Qfloor x)) (1 # 2)) as [He|Hl|Hg].
  - destruct (tie_up x); apply Qabs_case; intros _;
      rewrite ?inject_Z_plus; change (inject_Z 1) with 1%Q; lra.
  - apply Qabs_case; intros _; lra.
  - apply Qabs_case; intros _;
      rewrite ?inject_Z_plus; change (inject_Z 1) with 1%Q; lra.
Qed.

Lemma round3_close (x : Q) : (Qabs (round3 x - x) <= 1 # 2000)%Q.
Proof.
  unfold round3.
  pose proof (round_nearest_close (x * 1000)) as Hc.
  revert Hc. set (k := inject_Z (round_nearest (x * 1000))).
  rewrite !Qabs_Qle_condition. intros [Hc1 Hc2].
  unfold Qdiv. assert (E : (/ 1000 == 1 # 1000)%Q) by reflexivity.
  rewrite E. split; lra.
Qed.

(** C2, as amended.  For counts W, L >= 0 the session tracker's ratio is
    W/L rounded to three decimals when L > 0 (a multiple of 1/1000 within
    1/2000 of W/L) and W when L = 0; the generated columns wlr, kdr, fkdr
    and bblr of a stored snapshot are numerator/denominator, not rounded,
    when the denominator is positive and the numerator otherwise; both
    give 0 on (0, 0). *)
Theorem ratio_convention (W L : Z) :
  0 <= W -> 0 <= L ->
  (0 < L ->
     BedwarsStats.calculate_wlr W L = round3 (truediv W L)
     /\ (Qabs (BedwarsStats.calculate_wlr W L - truediv W L) <= 1 # 2000)%Q
     /\ exists k : Z, BedwarsStats.calculate_wlr W L = (inject_Z k / 1000)%Q)
  /\ (L = 0 -> BedwarsStats.calculate_wlr W L = of_int W)
  /\ (0 < L -> LeaderboardTracker.generated_ratio W L = truediv W L)
  /\ (L = 0 -> LeaderboardTracker.generated_ratio W L = of_int W)
  /\ (forall s : LeaderboardTracker.stats_row,
        let c := LeaderboardTracker.s_stats s in
        LeaderboardTracker.wlr s
        = LeaderboardTracker.generated_ratio
            (LeaderboardTracker.wins c) (LeaderboardTracker.losses c)
        /\ LeaderboardTracker.kdr s
           = LeaderboardTracker.generated_ratio
               (LeaderboardTracker.kills c) (LeaderboardTracker.deaths c)
        /\ LeaderboardTracker.fkdr s
           = LeaderboardTracker.generated_ratio
               (LeaderboardTracker.final_kills c)
               (LeaderboardTracker.final_deaths c)
        /\ LeaderboardTracker.bblr s
           = LeaderboardTracker.generated_ratio
               (LeaderboardTracker.beds_broken c)
               (LeaderboardTracker.beds_lost c))
  /\ BedwarsStats.calculate_wlr 0 0 = 0%Q
  /\ LeaderboardTracker.generated_ratio 0 0 = 0%Q.
Proof.
  intros HW HL.
  unfold BedwarsStats.calculate_wlr, LeaderboardTracker.generated_ratio.
  repeat split; try reflexivity.
  - destruct (Z.ltb_spec 0 L); [reflexivity | lia].
  - destruct (Z.ltb_spec 0 L); [apply round3_close | lia].
  - destruct (Z.ltb_spec 0 L); [| lia].
    exists (round_nearest (truediv W L * 1000)). reflexivity.
  - intros ->. reflexivity.
  - destruct (Z.ltb_spec 0 L); [reflexivity | lia].
  - intros ->. reflexivity.
Qed.

End Ratio.

(** The ratio of the session tracker at 1 win and 3 losses is 0.333,
    which is not 1/3, however ties are settled. *)
Lemma calculate_wlr_1_3_not_third :
  ~ (forall W L : Z, 0 <= W -> 0 < L ->
       (@BedwarsStats.calculate_wlr PyFloat.ties_up W L == PyFloat.truediv W L)%Q)
  /\ ~ (@BedwarsStats.calculate_wlr PyFloat.ties_up 1 3 == PyFloat.truediv 1 3)%Q
  /\ ~ (@BedwarsStats.calculate_wlr PyFloat.ties_down 1 3 == PyFloat.truediv 1 3)%Q
  /\ @BedwarsStats.calculate_wlr PyFloat.ties_up 1 3 = (333 # 1000)%Q.
Proof.
  assert (N : ~ (333 # 1000 == 1 # 3)%Q) by (intros E; discriminate E).
  repeat split.
  - intros A. apply N. exact (A 1 3 ltac:(lia) ltac:(lia)).
  - exact N.
  - exact N.
Qed.

(** [ratio_convention] at 7 wins and 2 losses. *)
Lemma ratio_convention_witness :
  @BedwarsStats.calculate_wlr PyFloat.ties_up 7 2 = (3500 # 1000)%Q
  /\ LeaderboardTracker.generated_ratio 7 2 = (7 # 2)%Q.
Proof.
  pose proof (@ratio_convention PyFloat.ties_up 7 2 ltac:(lia) ltac:(lia))
    as (A & _ & B & _).
  split.
  - rewrite (proj1 (A ltac:(lia))). reflexivity.
  - rewrite (B ltac:(lia)). reflexivity.
Defined.

(** ** The session tracker *)

Section SessionTracker.
Import PyFloat BedwarsStats.
Context `{Ties}.

Lemma _parse_bedwars_stats_modes (stats : gmap string Z) :
  dom (modes (_parse_bedwars_stats stats))
  = ({["solos"; "doubles"; "threes"; "fours"]} : gset string).
Proof.
  unfold _parse_bedwars_stats; simpl.
  rewrite !dom_insert_L, dom_empty_L. set_solver.
Qed.

(** C5, as amended.  The session diff holds, for the overall scope and
    for each mode of the current statistics, the current count minus the
    baseline count (0 for a mode the baseline lacks), with the ratio of
    the tracker computed on the two differences: wins over losses
    rounded to three decimals when the difference of losses is positive,
    the difference of wins otherwise.  A mode whose two differences are
    zero has no entry in the diff.  The modes of parsed statistics are
    solos, doubles, threes and fours. *)
Theorem calculate_session_diff_per_scope (current_stats baseline_stats : parsed_stats) :
  let diff := calculate_session_diff current_stats baseline_stats in
  let ratio := λ wins_diff losses_diff : Z,
    if 0 <? losses_diff then round3 (truediv wins_diff losses_diff)
    else of_int wins_diff in
  d_wins (overall diff) = wins current_stats - wins baseline_stats
  /\ d_losses (overall diff) = losses current_stats - losses baseline_stats
  /\ d_WLR (overall diff)
     = ratio (d_wins (overall diff)) (d_losses (overall diff))
  /\ (forall (mode : string) (cur : mode_stats),
        modes current_stats !! mode = Some cur ->
        let wins_diff :=
          ms_wins cur - from_option ms_wins 0 (modes baseline_stats !! mode) in
        let losses_diff :=
          ms_losses cur - from_option ms_losses 0 (modes baseline_stats !! mode) in
        if decide (wins_diff = 0 /\ losses_diff = 0)
        then modes_diff diff !! mode = None
        else modes_diff diff !! mode
             = Some {| d_wins := wins_diff; d_losses := losses_diff;
                       d_WLR := ratio wins_diff losses_diff |})
  /\ (forall mode : string,
        modes current_stats !! mode = None -> modes_diff diff !! mode = None)
  /\ (forall stats : gmap string Z,
        dom (modes (_parse_bedwars_stats stats))
        = ({["solos"; "doubles"; "threes"; "fours"]} : gset string)).
Proof.
  simpl. split; [reflexivity|]. split; [reflexivity|]. split; [reflexivity|].
  split; [|split; [|apply _parse_bedwars_stats_modes]].
  - intros mode cur Hcur. rewrite map_lookup_imap, Hcur. simpl.
    unfold mode_diff.
    destruct (modes baseline_stats !! mode) as [b|]; simpl;
      case_decide as Hz;
      repeat match goal with |- context [?a =? 0] => destruct (Z.eqb_spec a 0) end;
      simpl; try reflexivity; lia.
  - intros mode Hcur. rewrite map_lookup_imap, Hcur. reflexivity.
Qed.

(** C4.  When the statistics fetched have the wins and the losses of the
    stored baseline, processing the session leaves every file as it was:
    no session entry is written, and the session log and the baseline
    are unchanged.  Hence processing the same statistics a second time
    changes nothing after the first. *)
Theorem process_player_session_idempotent
    (player_name : string) (current_stats : parsed_stats) (now now' : Z)
    (t : tracker) :
  (forall baseline_stats : parsed_stats,
      baseline_files t !! player_name = Some baseline_stats ->
      wins current_stats = wins baseline_stats ->
      losses current_stats = losses baseline_stats ->
      process_player_session player_name (Some current_stats) now t = t)
  /\ process_player_session player_name (Some current_stats) now'
       (process_player_session player_name (Some current_stats) now t)
     = process_player_session player_name (Some current_stats) now t.
Proof.
  split.
  - intros b Hb Hw Hl. unfold process_player_session.
    rewrite Hb, Hw, Hl, !Z.eqb_refl. reflexivity.
  - unfold process_player_session at 2 3.
    destruct (baseline_files t !! player_name) as [b|] eqn:Hb.
    + destruct ((wins current_stats =? wins b) && (losses current_stats =? losses b))
        eqn:Hsame.
      * unfold process_player_session. rewrite Hb, Hsame. reflexivity.
      * unfold process_player_session; simpl.
        rewrite lookup_insert_eq, !Z.eqb_refl. reflexivity.
    + unfold process_player_session; simpl.
      rewrite lookup_insert_eq, !Z.eqb_refl. reflexivity.
Qed.

(** ** Winstreak estimates *)

Lemma update_scope_other (diff : session_diff) (current_stats : parsed_stats)
    (winstreak_data : gmap string estimate) (scope k : string) :
  scope <> k ->
  update_scope diff current_stats winstreak_data scope !! k = winstreak_data !! k.
Proof.
  intros Hne. unfold update_scope.
  destruct (scope_inputs diff current_stats scope) as [[wins losses] api].
  destruct ((wins =? 0) && (losses =? 0)); [reflexivity|].
  destruct api; [|destruct (0 <? losses)]; by rewrite lookup_insert_ne.
Qed.

Lemma foldl_update_scope_other (diff : session_diff) (current_stats : parsed_stats)
    (scopes : list string) (winstreak_data : gmap string estimate) (k : string) :
  k ∉ scopes ->
  foldl (update_scope diff current_stats) winstreak_data scopes !! k
  = winstreak_data !! k.
Proof.
  revert winstreak_data.
  induction scopes as [|s scopes IH]; intros wd Hk; simpl; [reflexivity|].
  rewrite IH by set_solver. apply update_scope_other. set_solver.
Qed.

Lemma update_winstreak_estimates_overall (winstreak_data : gmap string estimate)
    (diff : session_diff) (current_stats : parsed_stats) :
  modes_diff diff !! "overall" = None ->
  update_winstreak_estimates winstreak_data diff current_stats !! "overall"
  = update_scope diff current_stats winstreak_data "overall" !! "overall".
Proof.
  intros Hno. unfold update_winstreak_estimates, scopes_of. simpl.
  apply foldl_update_scope_other.
  intros Hin. apply list_elem_of_fmap in Hin as [[k v] [Hk Hin]].
  apply elem_of_map_to_list in Hin. simpl in Hk. congruence.
Qed.

(** On the overall scope the estimate moves as announced: without a
    reported winstreak, a session of 5 wins and no loss adds 5 to the
    three values, and a following session of 2 wins and 1 loss sets them
    to 0, 2 and 1. *)
Lemma winstreak_overall_scenario (winstreak_data : gmap string estimate)
    (diff1 diff2 : session_diff) (stats1 stats2 : parsed_stats) :
  modes_diff diff1 !! "overall" = None -> modes_diff diff2 !! "overall" = None ->
  winstreak stats1 = None -> winstreak stats2 = None ->
  d_wins (overall diff1) = 5 -> d_losses (overall diff1) = 0 ->
  d_wins (overall diff2) = 2 -> d_losses (overall diff2) = 1 ->
  let prior := default fresh_estimate (winstreak_data !! "overall") in
  let data1 := update_winstreak_estimates winstreak_data diff1 stats1 in
  let data2 := update_winstreak_estimates data1 diff2 stats2 in
  (exists e1, data1 !! "overall" = Some e1
     /\ min_possible e1 = min_possible prior + 5
     /\ max_possible e1 = max_possible prior + 5
     /\ likely e1 = (likely prior + 5)%Q)
  /\ (exists e2, data2 !! "overall" = Some e2
     /\ min_possible e2 = 0 /\ max_possible e2 = 2 /\ (likely e2 == 1)%Q).
Proof.
  intros Hm1 Hm2 Hs1 Hs2 Hw1 Hl1 Hw2 Hl2. simpl.
  rewrite !update_winstreak_estimates_overall by assumption.
  unfold update_scope, scope_inputs.
  rewrite !decide_True by reflexivity. 
  rewrite Hs1, Hs2, Hw1, Hl1, Hw2, Hl2. simpl.
  rewrite !lookup_insert_eq. split; eexists; (split; [reflexivity|]); simpl; repeat split; reflexivity.
Qed.

(** C3.  After a session of three solo wins and one doubles loss, with
    no winstreak reported, the estimate stored for the scope "solos",
    whose own difference is 3 wins and no loss, is min 0, max 3, likely
    3/2: the scope is updated with the wins and losses of the overall
    difference, not with its own. *)
Theorem winstreak_mode_scope_reads_overall :
  let baseline_stats := _parse_bedwars_stats Examples.before_session in
  let current_stats := _parse_bedwars_stats Examples.after_session in
  let diff := calculate_session_diff current_stats baseline_stats in
  (d_wins (overall diff), d_losses (overall diff)) = (3, 1)
  /\ (λ d, (d_wins d, d_losses d)) <$> modes_diff diff !! "solos" = Some (3, 0)
  /\ ms_winstreak <$> modes current_stats !! "solos" = Some None
  /\ update_winstreak_estimates ∅ diff current_stats !! "solos"
     = Some {| api_value := None; min_possible := 0; max_possible := 3;
               likely := (3 # 2)%Q |}.
Proof.
  repeat split; vm_compute; reflexivity.
Qed.

End SessionTracker.

(** A session of one win and three losses has the ratio 0.333 in its
    diff, which is not 1/3. *)
Lemma session_diff_ratio_not_third :
  let baseline_stats :=
    @BedwarsStats._parse_bedwars_stats PyFloat.ties_up
      (list_to_map [("wins_bedwars", 10); ("losses_bedwars", 5)]) in
  let current_stats :=
    @BedwarsStats._parse_bedwars_stats PyFloat.ties_up
      (list_to_map [("wins_bedwars", 11); ("losses_bedwars", 8)]) in
  let diff :=
    @BedwarsStats.calculate_session_diff PyFloat.ties_up
      current_stats baseline_stats in
  BedwarsStats.d_wins (BedwarsStats.overall diff) = 1
  /\ BedwarsStats.d_losses (BedwarsStats.overall diff) = 3
  /\ BedwarsStats.d_WLR (BedwarsStats.overall diff) = (333 # 1000)%Q
  /\ ~ (BedwarsStats.d_WLR (BedwarsStats.overall diff) == PyFloat.truediv 1 3)%Q.
Proof.
  repeat split. intros E. discriminate E.
Qed.

(** [calculate_session_diff_per_scope] on the session of three solo wins
    and one doubles loss, for the mode solos. *)
Lemma calculate_session_diff_per_scope_witness :
  let baseline_stats :=
    @BedwarsStats._parse_bedwars_stats PyFloat.ties_up Examples.before_session in
  let current_stats :=
    @BedwarsStats._parse_bedwars_stats PyFloat.ties_up Examples.after_session in
  BedwarsStats.modes_diff
    (@BedwarsStats.calculate_session_diff PyFloat.ties_up
       current_stats baseline_stats) !! "solos"
  = Some {| BedwarsStats.d_wins := 3; BedwarsStats.d_losses := 0;
            BedwarsStats.d_WLR := 3%Q |}.
Proof.
  intros baseline_stats current_stats.
  destruct (@calculate_session_diff_per_scope PyFloat.ties_up
              current_stats baseline_stats) as (_ & _ & _ & M & _).
  exact (M "solos" _ eq_refl).
Defined.

(** [process_player_session_idempotent] on a baseline of 10 wins and 5
    losses that is fetched again. *)
Lemma process_player_session_idempotent_witness :
  let stats := @BedwarsStats._parse_bedwars_stats PyFloat.ties_up
                 Examples.before_session in
  let t := {| BedwarsStats.baseline_files := {["Steve" := stats]};
              BedwarsStats.session_files := ∅;
              BedwarsStats.recent_games_files := ∅;
              BedwarsStats.player_cooldowns := ∅ |} in
  @BedwarsStats.process_player_session PyFloat.ties_up
    "Steve" (Some stats) 0 t = t.
Proof.
  intros stats t.
  apply (proj1 (@process_player_session_idempotent PyFloat.ties_up
                  "Steve" stats 0 0 t) stats).
  - reflexivity.
  - reflexivity.
  - reflexivity.
Defined.

(** ** Recent games *)

Section RecentGames.
Import BedwarsStats.

#[local] Instance timestamp_ge_trans :
  Transitive (λ a b : game, timestamp b <= timestamp a).
Proof. intros a b c. lia. Qed.

Lemma merge_recent_games_cases (existing fetched : list game) :
  let new_games := filter (λ g, game_id g ∉ game_id <$> existing) fetched in
  (new_games = [] /\ merge_recent_games existing fetched = existing)
  \/ merge_recent_games existing fetched
     = take 50 (stable_sort (λ x y, timestamp x <? timestamp y)
                            (new_games ++ existing)).
Proof.
  unfold merge_recent_games. simpl.
  destruct (filter _ fetched); [left|right]; auto.
Qed.

Lemma merge_recent_games_sources (existing fetched : list game) (g : game) :
  g ∈ merge_recent_games existing fetched ->
  g ∈ existing \/ (g ∈ fetched /\ game_id g ∉ game_id <$> existing).
Proof.
  destruct (merge_recent_games_cases existing fetched) as [[_ ->]| ->]; [auto|].
  intros Hg. apply elem_of_take in Hg as (i & Hg & _).
  apply list_elem_of_lookup_2 in Hg. rewrite stable_sort_perm in Hg.
  apply elem_of_app in Hg as [Hg|Hg]; [right|by left].
  apply list_elem_of_filter in Hg. tauto.
Qed.

Lemma merge_recent_games_known (existing fetched : list game) :
  (forall g, g ∈ fetched -> game_id g ∈ game_id <$> existing) ->
  merge_recent_games existing fetched = existing.
Proof.
  intros Hall.
  destruct (merge_recent_games_cases existing fetched) as [[_ ->]|E]; [auto|].
  unfold merge_recent_games.
  destruct (filter _ fetched) as [|g new_games] eqn:Hf; [reflexivity|].
  assert (Hg : g ∈ filter (λ g, game_id g ∉ game_id <$> existing) fetched)
    by (rewrite Hf; left).
  apply list_elem_of_filter in Hg as [Hnew Hin]. destruct Hnew. auto.
Qed.

Lemma merge_recent_games_NoDup (existing fetched : list game) :
  NoDup (game_id <$> existing) -> NoDup (game_id <$> fetched) ->
  NoDup (game_id <$> merge_recent_games existing fetched).
Proof.
  intros He Hf.
  destruct (merge_recent_games_cases existing fetched) as [[_ ->]| ->]; [auto|].
  rewrite fmap_take. eapply sublist_NoDup; [|apply sublist_take].
  rewrite stable_sort_perm, fmap_app. apply NoDup_app. repeat split.
  - eapply sublist_NoDup; [exact Hf|]. apply fmap_sublist, sublist_filter.
  - intros i Hi. apply list_elem_of_fmap in Hi as (g & -> & Hg).
    apply list_elem_of_filter in Hg. tauto.
  - exact He.
Qed.

Lemma merge_recent_games_length (existing fetched : list game) :
  (length existing <= 50 -> length (merge_recent_games existing fetched) <= 50)%nat.
Proof.
  destruct (merge_recent_games_cases existing fetched) as [[_ ->]| ->]; [auto|].
  intros _. rewrite length_take. lia.
Qed.

Lemma merge_recent_games_newest_first (existing fetched : list game) :
  newest_first existing -> newest_first (merge_recent_games existing fetched).
Proof.
  destruct (merge_recent_games_cases existing fetched) as [[_ ->]| ->]; [auto|].
  intros _. apply StronglySorted_take. apply stable_sort_sorted.
  - apply _.
  - intros x y Hxy. apply Z.ltb_lt in Hxy. lia.
  - intros x y Hxy. apply Z.ltb_ge in Hxy. lia.
Qed.

Lemma _parse_bedwars_game_mode (g : api_game) :
  let raw := default "UNKNOWN" (api_mode g) in
  mode (_parse_bedwars_game g)
  = if decide (raw = "BEDWARS_EIGHT_ONE") then "solos"
    else if decide (raw = "BEDWARS_EIGHT_TWO") then "doubles"
    else if decide (raw = "BEDWARS_FOUR_THREE") then "threes"
    else if decide (raw = "BEDWARS_FOUR_FOUR") then "fours"
    else raw.
Proof.
  simpl. unfold mode_mapping.
  rewrite !lookup_insert, lookup_empty.
  repeat case_decide; simpl; congruence.
Qed.

Lemma recent_log_process (player_name : string)
    (games : list api_game) (t : tracker) :
  recent_log (process_recent_games player_name (Some games) t) player_name
  = merge_recent_games (recent_log t player_name)
      (_parse_bedwars_game <$> filter (λ g, gameType g = Some "BEDWARS") games).
Proof.
  unfold process_recent_games, recent_log at 1. simpl.
  rewrite lookup_insert_eq. reflexivity.
Qed.

(** C6, as amended.  After an update of a player's recent games: every
    entry of the log was in the log or is a fetched game whose identifier
    the log did not hold, so that fetching only games already held leaves
    the log as it was; a log of distinct identifiers stays so when the
    identifiers fetched are distinct; a log of at most 50 entries stays
    so; a log that is newest first stays so.  The identifier of a game is
    date_mode_map, and the label of its mode is solos, doubles, threes
    or fours for BEDWARS_EIGHT_ONE, BEDWARS_EIGHT_TWO, BEDWARS_FOUR_THREE
    and BEDWARS_FOUR_FOUR, and the mode itself otherwise. *)
Theorem recent_games_log_invariant (player_name : string)
    (games : list api_game) (t : tracker) :
  let fetched :=
    _parse_bedwars_game <$> filter (λ g, gameType g = Some "BEDWARS") games in
  let before := recent_log t player_name in
  let after :=
    recent_log (process_recent_games player_name (Some games) t) player_name in
  (forall g, g ∈ after ->
     g ∈ before \/ (g ∈ fetched /\ game_id g ∉ game_id <$> before))
  /\ ((forall g, g ∈ fetched -> game_id g ∈ game_id <$> before) -> after = before)
  /\ (NoDup (game_id <$> before) -> NoDup (game_id <$> fetched) ->
      NoDup (game_id <$> after))
  /\ (length before <= 50 -> length after <= 50)%nat
  /\ (newest_first before -> newest_first after)
  /\ (forall g : api_game,
        let raw := default "UNKNOWN" (api_mode g) in
        game_id (_parse_bedwars_game g)
        = str_of_int (date g) +:+ "_" +:+ raw +:+ "_"
            +:+ default "UNKNOWN" (api_map g)
        /\ timestamp (_parse_bedwars_game g) = date g
        /\ mode (_parse_bedwars_game g)
           = if decide (raw = "BEDWARS_EIGHT_ONE") then "solos"
             else if decide (raw = "BEDWARS_EIGHT_TWO") then "doubles"
             else if decide (raw = "BEDWARS_FOUR_THREE") then "threes"
             else if decide (raw = "BEDWARS_FOUR_FOUR") then "fours"
             else raw).
Proof.
  intros fetched before after. subst after. rewrite recent_log_process.
  fold fetched before.
  split; [apply merge_recent_games_sources|].
  split; [apply merge_recent_games_known|].
  split; [apply merge_recent_games_NoDup|].
  split; [apply merge_recent_games_length|].
  split; [apply merge_recent_games_newest_first|].
  intros g. split; [reflexivity|]. split; [reflexivity|].
  apply _parse_bedwars_game_mode.
Qed.
End RecentGames.

(** A game of mode "eight_one" keeps that label, it does not become
    "solos"; and a single answer that lists one game twice puts it twice
    in the log. *)
Lemma recent_games_claim_fails :
  BedwarsStats.mode (BedwarsStats._parse_bedwars_game Examples.eight_one_game)
  = "eight_one"
  /\ BedwarsStats.mode (BedwarsStats._parse_bedwars_game Examples.eight_one_game)
     <> "solos"
  /\ BedwarsStats.game_id <$>
       BedwarsStats.recent_log
         (BedwarsStats.process_recent_games "Steve"
            (Some [Examples.solo_game; Examples.solo_game]) Examples.no_files)
         "Steve"
     = ["1700000000000_BEDWARS_EIGHT_ONE_Lighthouse";
        "1700000000000_BEDWARS_EIGHT_ONE_Lighthouse"]
  /\ ~ NoDup (BedwarsStats.game_id <$>
       BedwarsStats.recent_log
         (BedwarsStats.process_recent_games "Steve"
            (Some [Examples.solo_game; Examples.solo_game]) Examples.no_files)
         "Steve").
Proof.
  assert (E : BedwarsStats.game_id <$>
       BedwarsStats.recent_log
         (BedwarsStats.process_recent_games "Steve"
            (Some [Examples.solo_game; Examples.solo_game]) Examples.no_files)
         "Steve"
     = ["1700000000000_BEDWARS_EIGHT_ONE_Lighthouse";
        "1700000000000_BEDWARS_EIGHT_ONE_Lighthouse"]) by (vm_compute; reflexivity).
  split; [vm_compute; reflexivity|].
  split; [vm_compute; discriminate|].
  split; [exact E|].
  rewrite E. intros Hn. apply NoDup_cons in Hn as [Hn _]. apply Hn. left.
Qed.

(** [recent_games_log_invariant] on a log fed the same game a second
    time. *)
Lemma recent_games_log_invariant_witness :
  let t := BedwarsStats.process_recent_games "Steve"
             (Some [Examples.solo_game]) Examples.no_files in
  BedwarsStats.recent_log
    (BedwarsStats.process_recent_games "Steve" (Some [Examples.solo_game]) t)
    "Steve"
  = BedwarsStats.recent_log t "Steve"
  /\ length (BedwarsStats.recent_log t "Steve") = 1%nat.
Proof.
  intros t. split; [|vm_compute; reflexivity].
  apply (recent_games_log_invariant "Steve" [Examples.solo_game] t).
  intros g Hg. vm_compute in Hg. apply list_elem_of_singleton in Hg. subst g.
  vm_compute. left.
Defined.

Section RecentGamesRuns.
Import BedwarsStats.

(** Starting without a file, whatever is fetched at each update, the log
    of a player stays newest first and within 50 entries. *)
Lemma recent_log_always (player_name : string)
    (answers : list (option (list api_game))) :
  let t := foldl (λ t data, process_recent_games player_name data t)
                 Examples.no_files answers in
  (length (recent_log t player_name) <= 50)%nat
  /\ newest_first (recent_log t player_name).
Proof.
  simpl.
  assert (H0 : (length (recent_log Examples.no_files player_name) <= 50)%nat
               /\ newest_first (recent_log Examples.no_files player_name)).
  { unfold recent_log. simpl. rewrite lookup_empty. simpl.
    split; [lia|constructor]. }
  revert H0. generalize Examples.no_files as t.
  induction answers as [|data answers IH]; intros t H0; simpl; [exact H0|].
  apply IH. destruct data as [games|]; [|exact H0].
  destruct H0 as [Hlen Hsorted]. rewrite recent_log_process.
  split; [by apply merge_recent_games_length
         |by apply merge_recent_games_newest_first].
Qed.
End RecentGamesRuns.

(** ** Leaderboards *)



Section Leaderboards.
Import PyFloat LeaderboardTracker.
Context `{Ties}.





#[local] Instance by_col_trans col : Transitive (by_col col).
Proof. intros x y z. unfold by_col. intros; eapply Qle_trans; eauto. Qed.








End Leaderboards.

Section StoreKeys.
Import LeaderboardTracker.

(** Saving a player keeps the uuids of the players table distinct. *)
Lemma save_player_stats_players_key (stats : player_stats) (m : string)
    (now : Z) (d : db) :
  NoDup (p_uuid <$> players d) ->
  NoDup (p_uuid <$> players (save_player_stats stats m now d)).
Proof.
  intros Hn. unfold save_player_stats. simpl. rewrite fmap_app.
  apply NoDup_app. split; [|split].
  - eapply sublist_NoDup; [exact Hn|]. apply fmap_sublist, sublist_filter.
  - intros u Hu Hu'. simpl in Hu'. apply list_elem_of_singleton in Hu'.
    apply list_elem_of_fmap in Hu as (p & -> & Hp).
    apply list_elem_of_filter in Hp as [Hne _]. congruence.
  - simpl. apply NoDup_singleton.
Qed.

(** Saving a player at a time at which the player has no snapshot yet
    keeps the keys of the store: this is how a store comes to have
    them. *)
Lemma save_player_stats_keys_hold (stats : player_stats) (m : string)
    (now : Z) (d : db) :
  keys_hold d ->
  Forall (λ s, uuid (s_stats s) = uuid stats -> s_timestamp s <> now)
         (bedwars_stats d) ->
  keys_hold (save_player_stats stats m now d).
Proof.
  intros [Hp Hs] Hnew. split; [by apply save_player_stats_players_key|].
  simpl. rewrite fmap_app. apply NoDup_app. split; [exact Hs|].
  split; [|apply NoDup_singleton].
  intros [u t] Hin Hin'. simpl in Hin'. apply list_elem_of_singleton in Hin'.
  injection Hin' as -> ->.
  apply list_elem_of_fmap in Hin as (s & E & Hs').
  injection E as Eu Et. rewrite Forall_forall in Hnew.
  by apply (Hnew s Hs').
Qed.

End StoreKeys.




(** ** The discovery queue *)

Section Queue.
Import LeaderboardTracker.

Lemma next_id_above (ids : list Z) (i : Z) : i ∈ ids -> i < next_id ids.
Proof.
  unfold next_id. induction ids as [|j ids IH]; simpl; intros Hi.
  - by apply elem_of_nil in Hi.
  - apply elem_of_cons in Hi as [->|Hi]; [lia|]. specialize (IH Hi). lia.
Qed.

Lemma queue_grows_refl (d : db) : queue_grows d d.
Proof. split; auto. Qed.

Lemma queue_grows_trans (d1 d2 d3 : db) :
  queue_grows d1 d2 -> queue_grows d2 d3 -> queue_grows d1 d3.
Proof. intros [A1 B1] [A2 B2]. split; auto. Qed.

Lemma insert_discovery_grows (u : string) (src : option string) (m : string)
    (now : Z) (d : db) :
  queue_grows d {| players := players d; bedwars_stats := bedwars_stats d;
                   player_discovery :=
                     insert_discovery u src m now (player_discovery d) |}.
Proof.
  unfold queue_grows, consumed, insert_discovery. simpl. split.
  - intros i Hi. rewrite fmap_app. apply elem_of_app. by left.
  - intros i [Hi Hall]. split.
    + rewrite fmap_app. apply elem_of_app. by left.
    + intros q Hq Hid. apply elem_of_app in Hq as [Hq|Hq]; [auto|].
      apply list_elem_of_singleton in Hq. subst q. simpl in Hid.
      apply next_id_above in Hi. lia.
Qed.

Lemma add_player_to_discovery_grows (u : string) (src : option string)
    (m : string) (now : Z) (d : db) :
  queue_grows d (add_player_to_discovery u src m now d).1.
Proof.
  unfold add_player_to_discovery.
  repeat case_bool_decide; simpl;
    auto using queue_grows_refl, insert_discovery_grows.
Qed.

Lemma save_player_stats_grows (stats : player_stats) (m : string) (now : Z)
    (d : db) :
  queue_grows d (save_player_stats stats m now d).
Proof. split; auto. Qed.

Lemma set_processed_ids (item_id : Z) (d : db) :
  id <$> player_discovery (set_processed item_id d) = id <$> player_discovery d.
Proof.
  unfold set_processed. simpl. rewrite <- list_fmap_compose.
  apply list_fmap_ext. intros i q _. simpl. by case_bool_decide.
Qed.

Lemma set_processed_grows (item_id : Z) (d : db) :
  queue_grows d (set_processed item_id d).
Proof.
  split.
  - intros i. by rewrite set_processed_ids.
  - intros i [Hi Hall]. split; [by rewrite set_processed_ids|].
    intros q Hq Hid. unfold set_processed in Hq. simpl in Hq.
    apply list_elem_of_fmap in Hq as (q0 & -> & Hq0).
    case_bool_decide; [reflexivity|]. auto.
Qed.

Lemma set_processed_consumed (item_id : Z) (d : db) :
  item_id ∈ id <$> player_discovery d ->
  consumed item_id (set_processed item_id d).
Proof.
  intros Hi. split; [by rewrite set_processed_ids|].
  intros q Hq Hid. unfold set_processed in Hq. simpl in Hq.
  apply list_elem_of_fmap in Hq as (q0 & -> & Hq0).
  case_bool_decide as E; [reflexivity|]. simpl in Hid. congruence.
Qed.

Context (w : world).

(** queue_player is add_player_to_discovery on the store of the
    connection; it writes nothing to the history. *)
Lemma queue_player_conn (u : string) (src : option string) (m : string)
    (now : Z) (st : tracker) :
  let r := queue_player u src m now st in
  conn r.1 = (add_player_to_discovery u src m now (conn st)).1
  /\ r.2 = (add_player_to_discovery u src m now (conn st)).2
  /\ history r.1 = history st.
Proof.
  unfold queue_player.
  destruct (add_player_to_discovery u src m now (conn st)) as [d [|]];
    simpl; auto.
Qed.

(** A call of discover_players_from_guild writes nothing to the history
    and lets the queue grow. *)
Lemma discover_players_from_guild_grows (u : string) (st : tracker) :
  let st' := (discover_players_from_guild w u st).1 in
  history st' = history st /\ queue_grows (conn st) (conn st').
Proof.
  unfold discover_players_from_guild.
  destruct (guild_members w u st) as [members budget].
  set (st0 := with_rate_limit st budget).
  change (history st) with (history st0). change (conn st) with (conn st0).
  generalize 0 as n. generalize st0 as s. clear st0.
  induction members as [|member members IH]; intros s n; simpl.
  - split; [reflexivity|apply queue_grows_refl].
  - destruct member as [member_uuid|]; [|apply IH].
    case_bool_decide; [apply IH|].
    pose proof (queue_player_conn member_uuid (Some u) "guild" (clock w s) s)
      as (Hc & _ & Hh).
    destruct (queue_player member_uuid (Some u) "guild" (clock w s) s)
      as [s' added]. simpl in Hc, Hh.
    match goal with |- context [foldl ?f (?s1, ?n1) members] =>
      destruct (IH s1 n1) as [IH1 IH2] end.
    split; [rewrite IH1; exact Hh|].
    eapply queue_grows_trans; [|exact IH2]. rewrite Hc.
    apply add_player_to_discovery_grows.
Qed.

Lemma is_processed_set (item_id : Z) (d : db) :
  item_id ∈ id <$> player_discovery d ->
  is_processed item_id (set_processed item_id d) = true.
Proof.
  intros Hi. apply list_elem_of_fmap in Hi as (q & -> & Hq).
  unfold is_processed. apply bool_decide_eq_true. apply Exists_exists.
  eexists. split.
  - unfold set_processed. simpl. apply list_elem_of_fmap. exists q. eauto.
  - rewrite bool_decide_true by reflexivity. simpl. auto.
Qed.

(** One turn of the loop.  It adds two events for its row: the mark,
    then the fetch with what it finds of the flag; it lets the queue
    grow and leaves the row consumed in the connection.  A turn that is
    not cut short ends with everything committed; a turn that the fetch
    cuts short has committed nothing. *)
Lemma process_item_spec (item : discovery_row) (st : tracker) (n : Z) :
  let r := process_item w item st n in
  let st' := r.1.1 in
  history st' = history st
                ++ [Marked (id item);
                    FetchAttempted (id item)
                      (is_processed (id item) (set_processed (id item) (conn st)))
                      (is_processed (id item) (committed st))]
  /\ queue_grows (conn st) (conn st')
  /\ (id item ∈ id <$> player_discovery (conn st) -> consumed (id item) (conn st'))
  /\ (r.2 = false -> committed st' = conn st')
  /\ (r.2 = true -> committed st' = committed st).
Proof.
  unfold process_item, attempt_fetch, mark_processed.
  set (st1 := record_event (record_event _ (Marked (id item))) _).
  assert (H1 : history st1 = history st
                 ++ [Marked (id item);
                     FetchAttempted (id item)
                       (is_processed (id item) (set_processed (id item) (conn st)))
                       (is_processed (id item) (committed st))]).
  { subst st1. simpl. rewrite <- app_assoc. reflexivity. }
  assert (G1 : queue_grows (conn st) (conn st1)) by apply set_processed_grows.
  assert (C1 : id item ∈ id <$> player_discovery (conn st) ->
               consumed (id item) (conn st1))
    by apply set_processed_consumed.
  assert (K1 : committed st1 = committed st) by reflexivity.
  destruct (fetch_player_stats w (discovered_uuid item) st1)
    as [[stats budget]|]; cbn [fst snd].
  2:{ split; [exact H1|]. split; [exact G1|]. split; [exact C1|].
      split; [discriminate|auto]. }
  destruct stats as [stats|]; cbn [fst snd].
  2:{ split; [exact H1|]. split; [exact G1|]. split; [exact C1|].
      split; [reflexivity|discriminate]. }
  set (st2 := commit (with_conn (with_rate_limit st1 budget) _)).
  assert (G2 : queue_grows (conn st1) (conn st2))
    by apply save_player_stats_grows.
  assert (H2 : history st2 = history st1) by reflexivity.
  destruct (20 <? rate_limit_remaining st2); cbn [fst snd].
  - destruct (discover_players_from_guild_grows (discovered_uuid item) st2)
      as [D1 D2].
    split; [simpl; rewrite D1, H2; exact H1|].
    split; [simpl; eauto using queue_grows_trans|].
    split; [|split; [reflexivity|discriminate]].
    intros Hid. simpl. apply (proj2 D2), (proj2 G2). auto.
  - split; [exact H1|].
    split; [simpl; eauto using queue_grows_trans|].
    split; [|split; [reflexivity|discriminate]].
    intros Hid. simpl. apply (proj2 G2). auto.
Qed.

(** The loop handles a prefix of the rows selected, one fetch each and
    in their order, lets the queue grow and leaves each of them consumed
    in the connection.  When the loop is not cut short and started with
    nothing uncommitted, it ends with nothing uncommitted. *)
Lemma process_items_spec (queue_items : list discovery_row) (st : tracker)
    (n : Z) :
  let r := process_items w queue_items st n in
  let st' := r.1.1 in
  exists (k : nat) (evs : list event),
    history st' = history st ++ evs
    /\ fetched_ids evs = id <$> take k queue_items
    /\ queue_grows (conn st) (conn st')
    /\ (forall item, item ∈ take k queue_items ->
          id item ∈ id <$> player_discovery (conn st) ->
          consumed (id item) (conn st'))
    /\ (r.2 = false -> committed st = conn st -> committed st' = conn st').
Proof.
  revert st n. induction queue_items as [|item rest IH]; intros st n; simpl.
  - exists 0%nat, []. simpl. rewrite app_nil_r.
    split; [reflexivity|]. split; [reflexivity|].
    split; [apply queue_grows_refl|]. split; [|auto].
    intros item Hi. by apply elem_of_nil in Hi.
  - destruct (rate_limit_remaining st <=? 5).
    + exists 0%nat, []. simpl. rewrite app_nil_r.
      split; [reflexivity|]. split; [reflexivity|].
      split; [apply queue_grows_refl|]. split; [|auto].
      intros it Hi. by apply elem_of_nil in Hi.
    + pose proof (process_item_spec item st n) as (H1 & G1 & C1 & K1 & _).
      destruct (process_item w item st n) as [[st1 m] raised].
      cbn [fst snd] in H1, G1, C1, K1.
      destruct raised.
      * exists 1%nat, [Marked (id item);
                       FetchAttempted (id item)
                         (is_processed (id item)
                            (set_processed (id item) (conn st)))
                         (is_processed (id item) (committed st))].
        cbn [fst snd]. split; [exact H1|]. split; [reflexivity|].
        split; [exact G1|]. split; [|discriminate].
        intros it Hit Hid. simpl in Hit.
        apply list_elem_of_singleton in Hit. subst it. auto.
      * destruct (IH st1 m) as (k & evs & Hk1 & Hf & Hk2 & Hk3 & Hk4).
        exists (S k), ([Marked (id item);
                        FetchAttempted (id item)
                          (is_processed (id item)
                             (set_processed (id item) (conn st)))
                          (is_processed (id item) (committed st))] ++ evs).
        split; [rewrite Hk1, H1, <- !app_assoc; reflexivity|].
        split; [cbn [take fmap list_fmap]; rewrite <- Hf; reflexivity|].
        split; [eauto using queue_grows_trans|].
        split.
        -- intros it Hit Hid. simpl in Hit.
           apply elem_of_cons in Hit as [->|Hit].
           ++ apply (proj2 Hk2). auto.
           ++ apply Hk3; [exact Hit|]. apply (proj1 G1). exact Hid.
        -- intros Hr _. apply Hk4; [exact Hr|]. by apply K1.
Qed.

End Queue.

Section AtMostOnce.
Import LeaderboardTracker.

Lemma select_queue_items_open (limit : Z) (d : db) (item : discovery_row) :
  item ∈ select_queue_items limit d ->
  item ∈ player_discovery d /\ processed item = false.
Proof.
  unfold select_queue_items, sql_limit, order_by_discovered_at. intros Hi.
  assert (Hs : item ∈ stable_sort (λ x y, discovered_at y <? discovered_at x)
                 (filter (λ q, processed q = false) (player_discovery d))).
  { destruct (limit <? 0); [exact Hi|].
    apply elem_of_take in Hi as (i & Hi & _).
    by apply list_elem_of_lookup_2 in Hi. }
  rewrite stable_sort_perm in Hs. apply list_elem_of_filter in Hs. tauto.
Qed.

Lemma consumed_not_selected (limit : Z) (d : db) (item_id : Z) :
  consumed item_id d -> item_id ∉ id <$> select_queue_items limit d.
Proof.
  intros [_ Hall] Hin. apply list_elem_of_fmap in Hin as (q & -> & Hq).
  apply select_queue_items_open in Hq as [Hq Hopen].
  specialize (Hall q Hq eq_refl). congruence.
Qed.

Lemma events_of_run_app (st st' : tracker) (evs : list event) :
  history st' = history st ++ evs -> events_of_run st st' = evs.
Proof. intros E. unfold events_of_run. rewrite E. apply drop_app_length. Qed.

(** What a run of process_discovery_queue leaves behind, however it is
    left. *)
Lemma process_discovery_queue_spec (w : world) (limit : option Z) (st : tracker) :
  let st' := (process_discovery_queue w limit st).1 in
  exists handled : list discovery_row,
    fetched_ids (events_of_run st st') = id <$> handled
    /\ queue_grows (conn st) (conn st')
    /\ forall item, item ∈ handled ->
         item ∈ player_discovery (conn st) /\ processed item = false
         /\ consumed (id item) (conn st').
Proof.
  unfold process_discovery_queue, run_discovery_queue.
  set (items := select_queue_items _ (conn st)).
  destruct (process_items_spec w items st 0) as (k & evs & Hh & Hf & Hg & Hc & _).
  exists (take k items). split; [by rewrite (events_of_run_app _ _ evs)|].
  split; [exact Hg|]. intros item Hitem.
  assert (Hsel : item ∈ items).
  { apply elem_of_take in Hitem as (i & Hi & _).
    by apply list_elem_of_lookup_2 in Hi. }
  apply select_queue_items_open in Hsel as [Hq Hopen].
  split; [exact Hq|]. split; [exact Hopen|].
  apply Hc; [exact Hitem|]. apply list_elem_of_fmap. eauto.
Qed.

(** A run that returns, started with nothing uncommitted, ends with
    nothing uncommitted: the marks of the rows it handled are in the
    file, whatever their fetches gave. *)
Lemma returned_run_committed (w : world) (limit : option Z) (st : tracker) :
  (run_discovery_queue w limit st).2 = false ->
  committed st = conn st ->
  let st' := (process_discovery_queue w limit st).1 in
  committed st' = conn st' /\ conn (restart st') = conn st'.
Proof.
  unfold process_discovery_queue, run_discovery_queue. intros Hr Hc.
  set (items := select_queue_items _ (conn st)) in *.
  destruct (process_items_spec w items st 0) as (k & evs & _ & _ & _ & _ & Hk).
  cbv zeta in Hk. specialize (Hk Hr Hc). split; [exact Hk|]. exact Hk.
Qed.

(** The rows a returned run attempted to fetch are not selected after
    a restart either. *)
Lemma returned_run_survives_restart (w : world) (limit : option Z)
    (st : tracker) (item_id : Z) :
  (run_discovery_queue w limit st).2 = false ->
  committed st = conn st ->
  let st' := (process_discovery_queue w limit st).1 in
  item_id ∈ fetched_ids (events_of_run st st') ->
  forall limit' : Z,
    item_id ∉ id <$> select_queue_items limit' (conn (restart st')).
Proof.
  intros Hr Hc st' Hfetch limit'.
  destruct (returned_run_committed w limit st Hr Hc) as [_ Hk].
  fold st' in Hk. rewrite Hk.
  destruct (process_discovery_queue_spec w limit st) as (handled & Hev & _ & Hh).
  fold st' in Hev, Hh. rewrite Hev in Hfetch.
  apply list_elem_of_fmap in Hfetch as (item & -> & Hitem).
  apply consumed_not_selected. by apply Hh.
Qed.

Lemma step_queue_grows (st st' : tracker) :
  step st st' -> queue_grows (conn st) (conn st').
Proof.
  intros [w limit s|u src m now s|u m now s|budget s].
  - destruct (process_discovery_queue_spec w limit s) as (h & _ & Hg & _).
    exact Hg.
  - rewrite (proj1 (queue_player_conn u src m now s)).
    apply add_player_to_discovery_grows.
  - apply insert_discovery_grows.
  - apply queue_grows_refl.
Qed.

Lemma steps_queue_grow (st st' : tracker) :
  rtc step st st' -> queue_grows (conn st) (conn st').
Proof.
  induction 1 as [|s1 s2 s3 Hstep _ IH]; [apply queue_grows_refl|].
  eapply queue_grows_trans; [|exact IH]. by apply step_queue_grows.
Qed.

(** While the process lives, a row whose fetch was attempted in a run
    stays consumed in the connection: no later selection returns it and
    no later run attempts its fetch again. *)
Lemma fetched_row_stays_consumed (w : world) (limit : option Z)
    (st st'' : tracker) (item_id : Z) :
  let st' := (process_discovery_queue w limit st).1 in
  item_id ∈ fetched_ids (events_of_run st st') ->
  rtc step st' st'' ->
  consumed item_id (conn st'')
  /\ (forall limit' : Z, item_id ∉ id <$> select_queue_items limit' (conn st''))
  /\ (forall (w' : world) (limit' : option Z),
        item_id ∉ fetched_ids
                    (events_of_run st'' (process_discovery_queue w' limit' st'').1)).
Proof.
  intros st' Hfetch Hsteps.
  destruct (process_discovery_queue_spec w limit st) as (handled & Hev & Hg & Hc).
  fold st' in Hev, Hg, Hc.
  assert (C' : consumed item_id (conn st')).
  { rewrite Hev in Hfetch.
    apply list_elem_of_fmap in Hfetch as (item & -> & Hitem). by apply Hc. }
  assert (C'' : consumed item_id (conn st''))
    by (by apply (steps_queue_grow st' st'')).
  split; [exact C''|].
  split; [intros limit'; by apply consumed_not_selected|].
  intros w' limit' Hagain.
  destruct (process_discovery_queue_spec w' limit' st'')
    as (handled' & Hev' & _ & Hc').
  rewrite Hev' in Hagain.
  apply list_elem_of_fmap in Hagain as (item & -> & Hitem).
  destruct (Hc' item Hitem) as (Hq & Hopen & _).
  destruct C'' as [_ Hall]. specialize (Hall item Hq eq_refl). congruence.
Qed.

End AtMostOnce.

(** C7.  A queue of two rows, all committed, and a run of
    process_discovery_queue in which the fetch of the first row does
    not return (the operator interrupts the request, or it raises).  The
    row was flagged before the request was made, but only in the open
    transaction: the request finds the flag in the connection and not in
    what is committed, and the run is left without a commit.  When the
    program is started again the flag is gone: the run that follows
    selects the row again and attempts its fetch a second time.  A fetch
    that fails by returning nothing is followed by the commit of the
    loop, and then no row is left to select after a restart. *)
Theorem interrupted_fetch_is_attempted_again :
  let r1 := LeaderboardTracker.run_discovery_queue
              Examples.interrupted_world None Examples.two_queued in
  let st1 := r1.1.1 in
  let st2 := LeaderboardTracker.restart st1 in
  let st3 := (LeaderboardTracker.process_discovery_queue
                Examples.failing_world None st2).1 in
  let returned := (LeaderboardTracker.process_discovery_queue
                     Examples.failing_world None Examples.two_queued).1 in
  r1.2 = true
  /\ LeaderboardTracker.history st1
     = [LeaderboardTracker.Marked 1;
        LeaderboardTracker.FetchAttempted 1 true false]
  /\ LeaderboardTracker.is_processed 1 (LeaderboardTracker.conn st1) = true
  /\ LeaderboardTracker.is_processed 1 (LeaderboardTracker.committed st1) = false
  /\ LeaderboardTracker.id <$>
       LeaderboardTracker.select_queue_items 200 (LeaderboardTracker.conn st2)
     = [1; 2]
  /\ LeaderboardTracker.events_of_run st2 st3
     = [LeaderboardTracker.Marked 1;
        LeaderboardTracker.FetchAttempted 1 true false;
        LeaderboardTracker.Marked 2;
        LeaderboardTracker.FetchAttempted 2 true false]
  /\ LeaderboardTracker.fetched_ids (LeaderboardTracker.history st3) = [1; 1; 2]
  /\ LeaderboardTracker.select_queue_items 200
       (LeaderboardTracker.conn (LeaderboardTracker.restart returned)) = [].
Proof.
  vm_compute. repeat split.
Qed.


(** ** Name resolution *)

Section Ingestor.
Import UuidIngestor.
Context (w : world).

Lemma request_loop_progress (fuel : nat) (player_name : string)
    (current_backoff retries : Z) (st : ingestor) r :
  request_loop w fuel player_name current_backoff retries st = Some r ->
  progress_file r.2 = progress_file st.
Proof.
  revert current_backoff retries st.
  induction fuel as [|fuel IH]; intros b k st; simpl; [discriminate|].
  destruct (k <? 3); [|intros [= <-]; reflexivity].
  destruct (name_endpoint w player_name (requests_made st)) as [[u|]| | |c|];
    try case_bool_decide;
    try (intros E; apply IH in E; rewrite E; reflexivity);
    intros [= <-]; reflexivity.
Qed.

Lemma get_player_uuid_and_name_progress (fuel : nat) (player_name : string)
    (st : ingestor) r :
  get_player_uuid_and_name w fuel player_name st = Some r ->
  progress_file r.2 = progress_file st.
Proof.
  unfold get_player_uuid_and_name.
  destruct (uuid_cache st !! player_name) as [u|];
    [|apply request_loop_progress].
  destruct (profile_endpoint w u (requests_made st)) as [[c|]|]; simpl;
    try destruct (_ && _); intros [= <-]; reflexivity.
Qed.

(** What a line above the cursor does to the cursor: a name that
    resolves or is not found moves it to the line, a failure leaves it
    where it was. *)
Lemma process_line_cursor (fuel : nat) (line : string) (i last n : Z)
    (st : ingestor) r :
  last < i -> strip line <> "" ->
  get_player_uuid_and_name w fuel (strip line) st = Some r ->
  exists st' n',
    process_lines w fuel [line] i last st n = Some (st', n')
    /\ progress_file st'
       = match r.1.2 with
         | SUCCESS | PLAYER_NOT_FOUND => Some i
         | RATE_LIMITED | ERROR => progress_file st
         end.
Proof.
  intros Hi Hname Hr. simpl.
  destruct (Z.leb_spec i last); [lia|].
  rewrite bool_decide_false by assumption.
  pose proof (get_player_uuid_and_name_progress _ _ _ _ Hr) as Hp.
  rewrite Hr. destruct r as [[[uuid cur] status] st1]. simpl in *.
  destruct status; simpl.
  - destruct (add_uuid_to_discovery_queue _ _ _ _) as [st2 added].
    eexists _, _. split; reflexivity.
  - eexists _, _. split; reflexivity.
  - eexists _, _. split; [reflexivity|]. simpl. exact Hp.
  - eexists _, _. split; [reflexivity|]. simpl. exact Hp.
Qed.

(** Lines at or below the cursor are passed over. *)
Lemma process_lines_below_cursor (fuel : nat) (lines : list string)
    (i last n : Z) (st : ingestor) :
  i + Z.of_nat (length lines) - 1 <= last ->
  process_lines w fuel lines i last st n = Some (st, n).
Proof.
  revert i. induction lines as [|line lines IH]; intros i Hi; simpl;
    [reflexivity|].
  simpl in Hi. destruct (Z.leb_spec i last); [|lia].
  apply IH. lia.
Qed.

End Ingestor.

(** C9.  A file of two names, the first always answered 429 and the
    second resolved: the run looks the first up (three requests, with
    sleeps of 10, 20 and 40 seconds plus the jitter after them), gets
    ERROR and leaves the cursor, then resolves the second and sets the
    cursor to line 2.  From there a later run, against any world, passes
    over both lines: the name that failed is not looked up again. *)
Theorem failed_name_passed_over_for_good :
  match UuidIngestor.process_scraped_names Examples.throttled_world 10
          (Some Examples.scraped_names) Examples.fresh_ingestor with
  | Some (st, added) =>
      (λ l, (UuidIngestor.lk_line l, UuidIngestor.lk_name l,
             UuidIngestor.lk_status l)) <$> UuidIngestor.lookups st
      = [(1, "Technoblade", UuidIngestor.ERROR);
         (2, "Dream", UuidIngestor.SUCCESS)]
      /\ UuidIngestor.progress_file st = Some 2
      /\ UuidIngestor.slept st
         = [2; 21 # 2; 2; 41 # 2; 2; 81 # 2; 2; 2; 2]%Q
      /\ forall (w : UuidIngestor.world) (fuel : nat),
           UuidIngestor.process_scraped_names w fuel
             (Some Examples.scraped_names) st = Some (st, 0)
  | None => False
  end.
Proof.
  vm_compute. repeat split.
Qed.

(* ===================================================================== *)
(** * Further properties *)
(* ===================================================================== *)

(** ** The level formula *)

Section Levels.
Import LeaderboardTracker.

(** The levels gained inside a prestige, from the experience left in it. *)
Lemma level_split (experience : Z) :
  calculate_bedwars_level experience
  = 100 * (experience / 487000)
    + calculate_bedwars_level (experience mod 487000).
Proof.
  unfold calculate_bedwars_level.
  rewrite Z.mod_mod by lia.
  rewrite (Z.div_small (experience mod 487000)) by (apply Z.mod_pos_bound; lia).
  destruct (consume_costs _ _ _). lia.
Qed.

Lemma level_in_prestige (r1 r2 : Z) :
  0 <= r1 <= r2 -> r2 < 487000 ->
  0 <= calculate_bedwars_level r1 <= calculate_bedwars_level r2
  /\ calculate_bedwars_level r2 <= 99.
Proof.
  intros H12 H2. unfold calculate_bedwars_level.
  rewrite !Z.mod_small, !Z.div_small by lia.
  cbn [consume_costs]. rewrite !Z.geb_leb.
  repeat match goal with
         | |- context [?a <=? ?b] => destruct (Z.leb_spec a b)
         end; try lia;
  Z.div_mod_to_equations; lia.
Qed.

Theorem calculate_bedwars_level_monotone (xp1 xp2 : Z) :
  xp1 <= xp2 -> calculate_bedwars_level xp1 <= calculate_bedwars_level xp2.
Proof.
  intros Hle. rewrite (level_split xp1), (level_split xp2).
  assert (B1 := Z.mod_pos_bound xp1 487000 ltac:(lia)).
  assert (B2 := Z.mod_pos_bound xp2 487000 ltac:(lia)).
  assert (Hp : xp1 / 487000 <= xp2 / 487000) by (apply Z.div_le_mono; lia).
  destruct (Z.eq_dec (xp1 / 487000) (xp2 / 487000)) as [E|N].
  - assert (xp1 mod 487000 <= xp2 mod 487000).
    { rewrite !Z.mod_eq by lia. rewrite E. lia. }
    pose proof (level_in_prestige (xp1 mod 487000) (xp2 mod 487000)
                  ltac:(lia) ltac:(lia)). lia.
  - pose proof (level_in_prestige (xp1 mod 487000) (xp1 mod 487000)
                  ltac:(lia) ltac:(lia)).
    pose proof (level_in_prestige (xp2 mod 487000) (xp2 mod 487000)
                  ltac:(lia) ltac:(lia)). lia.
Qed.

Theorem calculate_bedwars_level_prestige (experience : Z) :
  calculate_bedwars_level (experience + 487000)
  = calculate_bedwars_level experience + 100
  /\ 100 * (experience / 487000) <= calculate_bedwars_level experience
     < 100 * (experience / 487000) + 100.
Proof.
  split.
  - rewrite (level_split (experience + 487000)), (level_split experience).
    replace (experience + 487000) with (experience + 1 * 487000) by lia.
    rewrite Z.div_add, Z.mod_add by lia. lia.
  - rewrite (level_split experience).
    assert (B := Z.mod_pos_bound experience 487000 ltac:(lia)).
    pose proof (level_in_prestige (experience mod 487000)
                  (experience mod 487000) ltac:(lia) ltac:(lia)). lia.
Qed.
End Levels.

(** ** The session tracker, further *)

Section SessionMore.
Import PyFloat BedwarsStats.
Context `{Ties}.

(** The diff of statistics with themselves is empty. *)
Lemma calculate_session_diff_self (stats : parsed_stats) :
  let diff := calculate_session_diff stats stats in
  d_wins (overall diff) = 0 /\ d_losses (overall diff) = 0
  /\ d_WLR (overall diff) = 0%Q
  /\ modes_diff diff = ∅.
Proof.
  simpl. rewrite !Z.sub_diag. repeat split.
  apply map_eq. intros mode. rewrite map_lookup_imap, lookup_empty.
  destruct (modes stats !! mode) as [m|] eqn:E; simpl; [|reflexivity].
  unfold mode_diff. rewrite E, !Z.sub_diag. reflexivity.
Qed.

(** The entries of a diff are modes of the current statistics that
    moved. *)
Theorem modes_diff_moved (current_stats baseline_stats : parsed_stats)
    (mode : string) (delta : wl_diff) :
  modes_diff (calculate_session_diff current_stats baseline_stats) !! mode
  = Some delta ->
  is_Some (modes current_stats !! mode)
  /\ (d_wins delta <> 0 \/ d_losses delta <> 0).
Proof.
  simpl. rewrite map_lookup_imap.
  destruct (modes current_stats !! mode) as [m|]; simpl; [|discriminate].
  unfold mode_diff.
  destruct (modes baseline_stats !! mode) as [b|];
    repeat match goal with |- context [?a =? 0] => destruct (Z.eqb_spec a 0) end;
    simpl; try discriminate; intros [= <-]; simpl; split; eauto.
Qed.

Lemma update_scope_bounds (diff : session_diff) (current_stats : parsed_stats)
    (winstreak_data : gmap string estimate) (scope : string) :
  0 <= d_wins (overall diff) ->
  map_Forall (λ _ e, min_possible e <= max_possible e) winstreak_data ->
  map_Forall (λ _ e, min_possible e <= max_possible e)
             (update_scope diff current_stats winstreak_data scope).
Proof.
  intros Hw Hall. unfold update_scope, scope_inputs.
  assert (Hfresh : min_possible (default fresh_estimate (winstreak_data !! scope))
                   <= max_possible (default fresh_estimate (winstreak_data !! scope))).
  { destruct (winstreak_data !! scope) as [e|] eqn:E; simpl; [|lia].
    exact (Hall _ _ E). }
  repeat case_decide; simpl;
    repeat match goal with
           | |- context [if ?b then _ else _] => destruct b eqn:?
           | |- context [match ?o with Some _ => _ | None => _ end] =>
               destruct o eqn:?
           end;
    try assumption; apply map_Forall_insert_2; simpl; try assumption; lia.
Qed.

Theorem update_winstreak_estimates_bounds (winstreak_data : gmap string estimate)
    (diff : session_diff) (current_stats : parsed_stats) :
  0 <= d_wins (overall diff) ->
  map_Forall (λ _ e, min_possible e <= max_possible e) winstreak_data ->
  map_Forall (λ _ e, min_possible e <= max_possible e)
             (update_winstreak_estimates winstreak_data diff current_stats).
Proof.
  intros Hw. unfold update_winstreak_estimates.
  generalize (scopes_of diff) as scopes. intros scopes. revert winstreak_data.
  induction scopes as [|s scopes IH]; intros wd Hall; simpl; [exact Hall|].
  apply IH. by apply update_scope_bounds.
Qed.

(** Scopes that are neither the overall one nor a mode of the diff keep
    their estimate. *)
Theorem update_winstreak_estimates_frame (winstreak_data : gmap string estimate)
    (diff : session_diff) (current_stats : parsed_stats) (scope : string) :
  scope <> "overall" -> modes_diff diff !! scope = None ->
  update_winstreak_estimates winstreak_data diff current_stats !! scope
  = winstreak_data !! scope.
Proof.
  intros Hne Hno. unfold update_winstreak_estimates.
  apply foldl_update_scope_other. unfold scopes_of.
  intros Hin. apply elem_of_cons in Hin as [?|Hin]; [congruence|].
  apply list_elem_of_fmap in Hin as ([k v] & Hk & Hin).
  apply elem_of_map_to_list in Hin. simpl in Hk. congruence.
Qed.

Lemma update_scope_trusts_api (diff : session_diff) (current_stats : parsed_stats)
    (winstreak_data : gmap string estimate) (scope : string) (wins losses w : Z) :
  scope_inputs diff current_stats scope = (wins, losses, Some w) ->
  (wins <> 0 \/ losses <> 0) ->
  update_scope diff current_stats winstreak_data scope !! scope
  = Some {| api_value := Some w; min_possible := w; max_possible := w;
            likely := of_int w |}.
Proof.
  intros Hin Hmoved. unfold update_scope. rewrite Hin.
  destruct (Z.eqb_spec wins 0), (Z.eqb_spec losses 0); simpl; try lia;
    apply lookup_insert_eq.
Qed.

Lemma foldl_update_scope_trusts_api (diff : session_diff)
    (current_stats : parsed_stats) (scopes : list string)
    (winstreak_data : gmap string estimate) (scope : string) (wins losses w : Z) :
  scope_inputs diff current_stats scope = (wins, losses, Some w) ->
  (wins <> 0 \/ losses <> 0) ->
  scope ∈ scopes ->
  foldl (update_scope diff current_stats) winstreak_data scopes !! scope
  = Some {| api_value := Some w; min_possible := w; max_possible := w;
            likely := of_int w |}.
Proof.
  intros Hin Hmoved. revert winstreak_data.
  induction scopes as [|s scopes IH]; intros wd Hs; simpl.
  - by apply elem_of_nil in Hs.
  - destruct (decide (scope ∈ scopes)) as [Hl|Hl]; [by apply IH|].
    apply elem_of_cons in Hs as [->|Hs]; [|contradiction].
    rewrite foldl_update_scope_other by assumption.
    by eapply update_scope_trusts_api.
Qed.

(** A winstreak the API reports for a scope of the session replaces the
    estimate of that scope. *)
Theorem update_winstreak_estimates_trusts_api
    (winstreak_data : gmap string estimate) (diff : session_diff)
    (current_stats : parsed_stats) (scope : string) (w : Z) :
  (d_wins (overall diff) <> 0 \/ d_losses (overall diff) <> 0) ->
  (scope = "overall" /\ winstreak current_stats = Some w)
  \/ (scope <> "overall" /\ is_Some (modes_diff diff !! scope)
      /\ ms_winstreak <$> modes current_stats !! scope = Some (Some w)) ->
  update_winstreak_estimates winstreak_data diff current_stats !! scope
  = Some {| api_value := Some w; min_possible := w; max_possible := w;
            likely := of_int w |}.
Proof.
  intros Hmoved Hscope. unfold update_winstreak_estimates.
  apply (foldl_update_scope_trusts_api diff current_stats _ _ scope
           (d_wins (overall diff)) (d_losses (overall diff))); [|exact Hmoved|].
  - unfold scope_inputs.
    destruct Hscope as [[-> Hw]|(Hne & Hm & Hw)].
    + rewrite decide_True by reflexivity. by rewrite Hw.
    + rewrite decide_False by assumption. rewrite decide_True by assumption.
      destruct (modes current_stats !! scope) as [m|]; simpl in *;
        [|discriminate]. by injection Hw as ->.
  - unfold scopes_of.
    destruct Hscope as [[-> _]|(_ & [d Hd] & _)]; [left|right].
    apply list_elem_of_fmap. exists (scope, d). split; [reflexivity|].
    by apply elem_of_map_to_list.
Qed.

Lemma numbered_densely_empty : numbered_densely empty_session_data.
Proof. intros k. simpl. rewrite lookup_empty, map_size_empty. split.
  - intros [x Hx]. discriminate.
  - lia.
Qed.

Lemma numbered_densely_next (sd : session_data) (ws : gmap string estimate)
    (diff : session_diff) :
  numbered_densely sd ->
  sd_sessions sd !! S (size (sd_sessions sd)) = None
  /\ numbered_densely
       {| sd_winstreak := ws;
          sd_sessions := <[S (size (sd_sessions sd)) := diff]> (sd_sessions sd) |}.
Proof.
  intros Hd.
  assert (Hfree : sd_sessions sd !! S (size (sd_sessions sd)) = None).
  { apply eq_None_not_Some. intros Hs. apply Hd in Hs. lia. }
  split; [exact Hfree|]. intros k. simpl.
  rewrite map_size_insert_None by exact Hfree.
  destruct (decide (k = S (size (sd_sessions sd)))) as [->|Hne].
  - rewrite lookup_insert_eq. split; [lia|eauto].
  - rewrite lookup_insert_ne by congruence.
    split; [intros Hk; apply Hd in Hk; lia|intros Hk; apply Hd; lia].
Qed.

Theorem process_player_session_numbering (player_name : string)
    (current_stats : parsed_stats) (now : Z) (t : tracker) :
  let before := default empty_session_data (session_files t !! player_name) in
  let t' := process_player_session player_name (Some current_stats) now t in
  let after := default empty_session_data (session_files t' !! player_name) in
  numbered_densely before ->
  numbered_densely after
  /\ sd_sessions before ⊆ sd_sessions after
  /\ size (sd_sessions after)
     = (size (sd_sessions before)
        + if logs_session player_name current_stats t then 1 else 0)%nat.
Proof.
  intros before t' after Hd. subst t' after.
  unfold process_player_session, logs_session.
  destruct (baseline_files t !! player_name) as [b|]; simpl;
    [|fold before; split; [exact Hd|split; [reflexivity|lia]]].
  destruct ((wins current_stats =? wins b) && (losses current_stats =? losses b));
    simpl; [fold before; split; [exact Hd|split; [reflexivity|lia]]|].
  rewrite lookup_insert_eq. simpl. fold before.
  destruct (numbered_densely_next before
              (update_winstreak_estimates (sd_winstreak before)
                 (calculate_session_diff current_stats b) current_stats)
              (calculate_session_diff current_stats b) Hd) as [Hfree Hd'].
  split; [exact Hd'|]. split.
  - by apply insert_subseteq.
  - rewrite map_size_insert_None by exact Hfree. lia.
Qed.

Theorem process_player_session_baseline (player_name : string)
    (current_stats : parsed_stats) (now : Z) (t : tracker) :
  let t' := process_player_session player_name (Some current_stats) now t in
  (exists baseline_stats,
      baseline_files t' !! player_name = Some baseline_stats
      /\ wins baseline_stats = wins current_stats
      /\ losses baseline_stats = losses current_stats)
  /\ forall other : string, other <> player_name ->
       baseline_files t' !! other = baseline_files t !! other
       /\ session_files t' !! other = session_files t !! other
       /\ player_cooldowns t' !! other = player_cooldowns t !! other
       /\ recent_games_files t' = recent_games_files t.
Proof.
  simpl. unfold process_player_session.
  destruct (baseline_files t !! player_name) as [b|] eqn:Hb.
  - destruct (Z.eqb_spec (wins current_stats) (wins b)) as [Ew|Nw];
      [destruct (Z.eqb_spec (losses current_stats) (losses b)) as [El|Nl]|];
      simpl.
    + split; [eauto|]. intros; auto.
    + split; [rewrite lookup_insert_eq; eauto|].
      intros other Hne. rewrite !lookup_insert_ne by congruence.
      repeat split. destruct (_ && _); [|reflexivity].
      by rewrite lookup_insert_ne by congruence.
    + split; [rewrite lookup_insert_eq; eauto|].
      intros other Hne. rewrite !lookup_insert_ne by congruence.
      repeat split. destruct (_ && _); [|reflexivity].
      by rewrite lookup_insert_ne by congruence.
  - simpl. split; [rewrite lookup_insert_eq; eauto|].
    intros other Hne. rewrite !lookup_insert_ne by congruence. auto.
Qed.

End SessionMore.

(** ** The check cycle, recent games and name changes *)

Section CycleMore.
Import PyFloat BedwarsStats.
Context `{Ties}.

(** A session of one or two games puts the player on cooldown: any
    check within the next thirty minutes passes the player over. *)
Theorem short_session_starts_cooldown (w : cycle_world) (player_name : string)
    (current_stats baseline_stats : parsed_stats) (now : Z) (t : tracker) :
  baseline_files t !! player_name = Some baseline_stats ->
  1 <= (wins current_stats - wins baseline_stats)
       + (losses current_stats - losses baseline_stats) <= 2 ->
  let t1 := process_player_session player_name (Some current_stats) now t in
  player_cooldowns t1 !! player_name
  = Some {| last_check := now; api_on := true |}
  /\ (gate_time w player_name t1 < now + 30 * 60 ->
      check_player w t1 player_name = t1).
Proof.
  intros Hb Hgames t1.
  assert (Hc : player_cooldowns t1 !! player_name
               = Some {| last_check := now; api_on := true |}).
  { subst t1. unfold process_player_session. rewrite Hb.
    destruct (Z.eqb_spec (wins current_stats) (wins baseline_stats)) as [Ew|Nw];
      [destruct (Z.eqb_spec (losses current_stats) (losses baseline_stats))
         as [El|Nl]; [lia|]|]; simpl;
      (destruct (Z.leb_spec 1 (wins current_stats - wins baseline_stats
                               + (losses current_stats - losses baseline_stats)));
       [|lia]);
      (destruct (Z.leb_spec (wins current_stats - wins baseline_stats
                             + (losses current_stats - losses baseline_stats)) 2);
       [|lia]); simpl; apply lookup_insert_eq. }
  split; [exact Hc|]. intros Hgate.
  unfold check_player. rewrite Hc. unfold on_cooldown. simpl.
  unfold Config.PLAYER_COOLDOWN_MINUTES.
  destruct (Z.ltb_spec (gate_time w player_name t1) (now + 30 * 60));
    [reflexivity|lia].
Qed.

Lemma process_recent_games_frame (player_name other : string)
    (data : option (list api_game)) (t : tracker) :
  other <> player_name ->
  let t' := process_recent_games player_name data t in
  baseline_files t' = baseline_files t
  /\ session_files t' = session_files t
  /\ player_cooldowns t' = player_cooldowns t
  /\ recent_games_files t' !! other = recent_games_files t !! other.
Proof.
  intros Hne. unfold process_recent_games.
  destruct (fetch_recent_games data); simpl; [|auto].
  rewrite lookup_insert_ne by congruence. auto.
Qed.

Lemma process_player_session_frame (player_name other : string)
    (fetched : option parsed_stats) (now : Z) (t : tracker) :
  other <> player_name ->
  let t' := process_player_session player_name fetched now t in
  baseline_files t' !! other = baseline_files t !! other
  /\ session_files t' !! other = session_files t !! other
  /\ player_cooldowns t' !! other = player_cooldowns t !! other
  /\ recent_games_files t' = recent_games_files t.
Proof.
  intros Hne. simpl. unfold process_player_session.
  destruct fetched as [cur|]; [|auto].
  destruct (baseline_files t !! player_name) as [b|]; simpl.
  - destruct (_ && _); simpl; [auto|].
    rewrite !lookup_insert_ne by congruence. repeat split.
    destruct (_ && _); [|reflexivity]. by rewrite lookup_insert_ne by congruence.
  - rewrite !lookup_insert_ne by congruence. auto.
Qed.

Lemma check_player_frame (w : cycle_world) (player_name other : string)
    (t : tracker) :
  other <> player_name ->
  let t' := check_player w t player_name in
  baseline_files t' !! other = baseline_files t !! other
  /\ session_files t' !! other = session_files t !! other
  /\ player_cooldowns t' !! other = player_cooldowns t !! other
  /\ recent_games_files t' !! other = recent_games_files t !! other.
Proof.
  intros Hne. unfold check_player.
  destruct (match player_cooldowns t !! player_name with
            | Some c => on_cooldown (gate_time w player_name t) c
            | None => false end); [simpl; auto|].
  set (t1 := process_player_session _ _ _ t).
  destruct (process_player_session_frame player_name other
              (stats_answer w player_name t) (session_time w player_name t) t Hne)
    as (A1 & A2 & A3 & A4).
  destruct (process_recent_games_frame player_name other
              (recent_answer w player_name t1) t1 Hne) as (B1 & B2 & B3 & B4).
  fold t1 in A1, A2, A3, A4.
  simpl. rewrite B1, B2, B3, B4, A4. auto.
Qed.

(** A check cycle touches the files of the players it is given, and of
    nobody else. *)
Theorem check_cycle_frame (w : cycle_world) (valid_players : list string)
    (other : string) (t : tracker) :
  other ∉ valid_players ->
  let t' := check_cycle w valid_players t in
  baseline_files t' !! other = baseline_files t !! other
  /\ session_files t' !! other = session_files t !! other
  /\ player_cooldowns t' !! other = player_cooldowns t !! other
  /\ recent_games_files t' !! other = recent_games_files t !! other.
Proof.
  unfold check_cycle. revert t.
  induction valid_players as [|p ps IH]; intros t Hno; simpl; [auto|].
  apply not_elem_of_cons in Hno as [Hne Hno].
  destruct (IH (check_player w t p) Hno) as (A1 & A2 & A3 & A4).
  destruct (check_player_frame w p other t Hne) as (B1 & B2 & B3 & B4).
  rewrite A1, A2, A3, A4. auto.
Qed.

End CycleMore.

Section RecentMore.
Import BedwarsStats.

(** The entries a merge drops are the oldest ones. *)
Theorem merge_recent_games_keeps_newest (existing fetched : list game) :
  let new_games := filter (λ g, game_id g ∉ game_id <$> existing) fetched in
  let log := merge_recent_games existing fetched in
  exists dropped : list game,
    new_games ++ existing ≡ₚ log ++ dropped
    /\ length dropped = (length (new_games ++ existing) - length log)%nat
    /\ forall kept old, kept ∈ log -> old ∈ dropped ->
         timestamp old <= timestamp kept.
Proof.
  intros new_games log.
  destruct (merge_recent_games_cases existing fetched) as [[E1 E2]|E].
  - exists []. subst log. fold new_games in E1. rewrite E2, E1. simpl.
    rewrite app_nil_r. split; [reflexivity|]. split; [lia|].
    intros kept old _ Hold. by apply elem_of_nil in Hold.
  - fold new_games in E. subst log. rewrite E.
    set (sorted := stable_sort (λ x y, timestamp x <? timestamp y)
                     (new_games ++ existing)).
    assert (Hs : newest_first sorted).
    { apply stable_sort_sorted.
      - intros a b c. lia.
      - intros x y Hxy. apply Z.ltb_lt in Hxy. lia.
      - intros x y Hxy. apply Z.ltb_ge in Hxy. lia. }
    exists (drop 50 sorted). rewrite take_drop. split.
    + symmetry. apply stable_sort_perm.
    + split.
      * rewrite length_drop, length_take.
        assert (length sorted = length (new_games ++ existing))
          by (apply Permutation_length, stable_sort_perm). lia.
      * intros kept old Hk Ho. rewrite <- (take_drop 50 sorted) in Hs.
        exact (StronglySorted_app_1_elem_of _ _ _ _ _ Hs Hk Ho).
Qed.

(** Games of other game types never reach the log. *)
Theorem process_recent_games_other_types `{PyFloat.Ties} (player_name : string)
    (games : list api_game) (t : tracker) :
  (forall g, g ∈ games -> gameType g <> Some "BEDWARS") ->
  let t' := process_recent_games player_name (Some games) t in
  recent_log t' player_name = recent_log t player_name
  /\ api_enabled <$> recent_games_files t' !! player_name
     = Some (match games with [] => false | _ :: _ => true end).
Proof.
  intros Hother. simpl. split.
  - rewrite recent_log_process.
    replace (filter _ games) with (@nil api_game); [reflexivity|].
    symmetry. destruct (filter _ games) as [|g l] eqn:E; [reflexivity|].
    assert (Hg : g ∈ filter (λ g, gameType g = Some "BEDWARS") games)
      by (rewrite E; left).
    apply list_elem_of_filter in Hg as [Hb Hg]. by destruct (Hother g Hg).
  - unfold process_recent_games. simpl. rewrite lookup_insert_eq. simpl.
    f_equal. destruct games; [reflexivity|].
    apply bool_decide_true. simpl. lia.
Qed.

(** The name-change log holds a new name once for an old name; a name
    that differs by letter case only is not a change, and a change that
    is detected is in the log afterwards. *)
Theorem detect_name_change_log (original_name current_name : string) (now : Z)
    (name_changes : gmap string (list name_change)) :
  let log := detect_name_change original_name (Some current_name) now name_changes in
  ((forall old records, name_changes !! old = Some records ->
      NoDup (new_name <$> records)) ->
   forall old records, log !! old = Some records -> NoDup (new_name <$> records))
  /\ (str_lower current_name = str_lower original_name -> log = name_changes)
  /\ (current_name <> "" ->
      str_lower current_name <> str_lower original_name ->
      exists records, log !! original_name = Some records
                      /\ current_name ∈ new_name <$> records).
Proof.
  simpl. unfold detect_name_change.
  destruct (name_changes !! original_name) as [rs|] eqn:E; simpl.
  - split; [|split].
    + intros Hinv old records.
      destruct (bool_decide (current_name ≠ "")
                && bool_decide (str_lower current_name ≠ str_lower original_name));
        [|apply Hinv].
      case_bool_decide as Hex.
      * rewrite insert_id by exact E. apply Hinv.
      * destruct (decide (old = original_name)) as [->|Hne].
        -- rewrite lookup_insert_eq. intros [= <-]. rewrite fmap_app.
           apply NoDup_app. split; [by eapply Hinv|]. split.
           ++ intros n Hn Hn'. simpl in Hn'. apply list_elem_of_singleton in Hn'.
              subst n. apply Hex. apply Exists_exists.
              apply list_elem_of_fmap in Hn as (r & Hr & Hin). eauto.
           ++ simpl. apply NoDup_singleton.
        -- rewrite lookup_insert_ne by congruence. apply Hinv.
    + intros Hsame. rewrite (bool_decide_false (_ ≠ str_lower _)) by tauto.
      by rewrite andb_false_r.
    + intros Hne Hdiff. rewrite !bool_decide_true by assumption. simpl.
      case_bool_decide as Hex.
      * rewrite lookup_insert_eq. eexists. split; [reflexivity|].
        apply Exists_exists in Hex as (r & Hr & <-).
        apply list_elem_of_fmap. eauto.
      * rewrite lookup_insert_eq. eexists. split; [reflexivity|].
        rewrite fmap_app. apply elem_of_app. right. simpl. left.
  - split; [|split].
    + intros Hinv old records.
      destruct (bool_decide (current_name ≠ "")
                && bool_decide (str_lower current_name ≠ str_lower original_name));
        [|apply Hinv].
      destruct (decide (old = original_name)) as [->|Hne].
      * rewrite lookup_insert_eq. intros [= <-]. simpl. apply NoDup_singleton.
      * rewrite lookup_insert_ne by congruence. apply Hinv.
    + intros Hsame. rewrite (bool_decide_false (_ ≠ str_lower _)) by tauto.
      by rewrite andb_false_r.
    + intros Hne Hdiff. rewrite !bool_decide_true by assumption. simpl.
      rewrite lookup_insert_eq. eexists. split; [reflexivity|]. simpl. left.
Qed.
End RecentMore.

(** ** The store *)

Section Uuid.
Import LeaderboardTracker.

Abbreviation chars := String.list_ascii_of_string.
Abbreviation of_chars := String.string_of_list_ascii.

Lemma chars_app (a b : string) : chars (a +:+ b) = chars a ++ chars b.
Proof. induction a as [|c a IH]; simpl; [reflexivity|]. by rewrite IH. Qed.

Lemma chars_of_chars (l : list ascii) : chars (of_chars l) = l.
Proof. apply String.list_ascii_of_string_of_list_ascii. Qed.

Lemma of_chars_chars (s : string) : of_chars (chars s) = s.
Proof. apply String.string_of_list_ascii_of_string. Qed.

Lemma filter_no_dash_idemp (l : list ascii) :
  filter (λ c, c ≠ "-"%char) (filter (λ c, c ≠ "-"%char) l)
  = filter (λ c, c ≠ "-"%char) l.
Proof.
  induction l as [|c l IH]; [reflexivity|].
  rewrite filter_cons. case_decide; [|exact IH].
  rewrite filter_cons, decide_True by assumption. by rewrite IH.
Qed.

Lemma filter_no_dash_take_drop (c : list ascii) :
  filter (λ x, x ≠ "-"%char) c = c ->
  filter (λ x, x ≠ "-"%char)
    (take 8 c ++ "-"%char :: take 4 (drop 8 c) ++ "-"%char ::
     take 4 (drop 12 c) ++ "-"%char :: take 4 (drop 16 c) ++ "-"%char ::
     drop 20 c) = c.
Proof.
  intros Hc.
  assert (Hpart : take 8 c ++ take 4 (drop 8 c) ++ take 4 (drop 12 c)
                  ++ take 4 (drop 16 c) ++ drop 20 c = c).
  { rewrite <- (take_drop 8 c) at 6.
    rewrite <- (take_drop 4 (drop 8 c)) at 2.
    rewrite drop_drop. simpl.
    rewrite <- (take_drop 4 (drop 12 c)) at 2.
    rewrite drop_drop. simpl.
    rewrite <- (take_drop 4 (drop 16 c)) at 2.
    rewrite drop_drop. reflexivity. }
  transitivity (filter (λ x, x ≠ "-"%char)
                  (take 8 c ++ take 4 (drop 8 c) ++ take 4 (drop 12 c)
                   ++ take 4 (drop 16 c) ++ drop 20 c));
    [|by rewrite Hpart].
  repeat (rewrite filter_app; f_equal;
          try rewrite filter_cons_False by (intros N; by apply N)).
Qed.

Lemma remove_dashes_format (uuid : string) :
  remove_dashes (format_uuid uuid) = remove_dashes uuid.
Proof.
  unfold format_uuid, slice, slice_from.
  set (c := chars (remove_dashes uuid)).
  assert (Hc : filter (λ x, x ≠ "-"%char) c = c).
  { subst c. unfold remove_dashes. rewrite chars_of_chars.
    apply filter_no_dash_idemp. }
  unfold remove_dashes at 1.
  rewrite !chars_app, !chars_of_chars. simpl.
  change (drop 0 c) with c.
  rewrite filter_no_dash_take_drop by exact Hc.
  subst c. apply of_chars_chars.
Qed.

Lemma format_uuid_idem (uuid : string) :
  format_uuid (format_uuid uuid) = format_uuid uuid.
Proof. unfold format_uuid at 1. by rewrite remove_dashes_format. Qed.

(** Formatting a uuid ignores the dashes it has and is idempotent, and
    removing the dashes of the result gives back the uuid without its
    dashes; a uuid of 32 characters other than dashes comes out 36
    characters long. *)
Theorem format_uuid_canonical (uuid : string) :
  format_uuid (remove_dashes uuid) = format_uuid uuid
  /\ format_uuid (format_uuid uuid) = format_uuid uuid
  /\ remove_dashes (format_uuid uuid) = remove_dashes uuid
  /\ (String.length (remove_dashes uuid) = 32%nat ->
      String.length (format_uuid uuid) = 36%nat).
Proof.
  assert (Hr : forall u, remove_dashes (remove_dashes u) = remove_dashes u).
  { intros u. unfold remove_dashes. rewrite chars_of_chars.
    by rewrite filter_no_dash_idemp. }
  split; [unfold format_uuid; by rewrite Hr|].
  split; [apply format_uuid_idem|].
  split; [apply remove_dashes_format|].
  intros Hlen. unfold format_uuid, slice, slice_from.
  set (c := chars (remove_dashes uuid)).
  assert (Hl : length c = 32%nat).
  { subst c. rewrite <- Hlen. clear. generalize (remove_dashes uuid).
    intros s. induction s; simpl; congruence. }
  assert (Hlen' : forall s, String.length s = length (chars s)).
  { intros s. induction s; simpl; congruence. }
  rewrite Hlen', !chars_app, !chars_of_chars. simpl.
  change (drop 0 c) with c.
  repeat (rewrite length_app; simpl).
  rewrite !length_take, !length_drop, Hl. reflexivity.
Qed.
End Uuid.

Section StoreMore.
Import LeaderboardTracker.

Lemma queued_more_refl (d : db) : queued_more d d 0.
Proof.
  split; [reflexivity|]. split; [reflexivity|]. exists [].
  rewrite app_nil_r. auto.
Qed.

Lemma queued_more_trans (d1 d2 d3 : db) (n m : Z) :
  queued_more d1 d2 n -> queued_more d2 d3 m -> queued_more d1 d3 (n + m).
Proof.
  intros (P1 & S1 & a1 & Q1 & L1 & U1) (P2 & S2 & a2 & Q2 & L2 & U2).
  split; [congruence|]. split; [congruence|]. exists (a1 ++ a2).
  rewrite Q2, Q1, <- app_assoc, length_app. split; [reflexivity|].
  split; [lia|]. by apply Forall_app.
Qed.

Lemma add_player_to_discovery_queued (uuid : string) (src : option string)
    (m : string) (now : Z) (d : db) :
  let r := add_player_to_discovery uuid src m now d in
  queued_more d r.1 (if r.2 then 1 else 0)
  /\ (r.2 = false -> r.1 = d).
Proof.
  unfold add_player_to_discovery.
  repeat case_bool_decide; simpl; try (split; [apply queued_more_refl|auto]).
  split; [|discriminate].
  split; [reflexivity|]. split; [reflexivity|].
  eexists. split; [reflexivity|]. split; [reflexivity|].
  repeat constructor.
Qed.

(** Offering the same uuid a second time adds nothing. *)
Theorem add_player_to_discovery_twice (uuid : string)
    (src src' : option string) (m m' : string) (now now' : Z) (d : db) :
  let d1 := (add_player_to_discovery uuid src m now d).1 in
  add_player_to_discovery uuid src' m' now' d1 = (d1, false).
Proof.
  simpl.
  destruct (add_player_to_discovery uuid src m now d) as [d1 b] eqn:E. simpl.
  unfold add_player_to_discovery in E.
  destruct (bool_decide (Exists _ (players d))) eqn:Bp.
  { injection E as <- <-. unfold add_player_to_discovery. by rewrite Bp. }
  destruct (bool_decide (Exists _ (player_discovery d))) eqn:Bq.
  { injection E as <- <-. unfold add_player_to_discovery. by rewrite Bp, Bq. }
  injection E as <- <-. unfold add_player_to_discovery. simpl. rewrite Bp.
  rewrite bool_decide_true; [reflexivity|].
  unfold insert_discovery. apply Exists_app. right. left. simpl. auto.
Qed.

(** A uuid that never produced a player and whose queue rows are all
    processed is queued again when it is offered in a form no row holds
    (without its dashes), and is refused when it is offered the way the
    rows hold it. *)
Theorem processed_row_requeued (uuid : string) (src : option string)
    (m : string) (now : Z) (d : db) :
  Forall (λ p, p_uuid p <> uuid /\ p_uuid p <> format_uuid uuid) (players d) ->
  Forall (λ q, discovered_uuid q = format_uuid uuid -> processed q = true)
         (player_discovery d) ->
  Exists (λ q, discovered_uuid q = format_uuid uuid) (player_discovery d) ->
  (Forall (λ q, discovered_uuid q <> uuid) (player_discovery d) ->
   (add_player_to_discovery uuid src m now d).2 = true)
  /\ (add_player_to_discovery (format_uuid uuid) src m now d).2 = false.
Proof.
  intros Hp Hq Hex. rewrite Forall_forall in Hp. rewrite Forall_forall in Hq.
  split.
  - intros Hraw. rewrite Forall_forall in Hraw. unfold add_player_to_discovery.
    rewrite bool_decide_false.
    2:{ intros E. apply Exists_exists in E as (p & Hin & Hor).
        destruct (Hp p Hin). tauto. }
    rewrite bool_decide_false; [reflexivity|].
    intros E. apply Exists_exists in E as (q & Hin & Hor).
    destruct Hor as [E|[E1 E2]]; [by apply (Hraw q Hin)|].
    specialize (Hq q Hin E1). congruence.
  - unfold add_player_to_discovery.
    rewrite format_uuid_idem. rewrite bool_decide_false.
    2:{ intros E. apply Exists_exists in E as (p & Hin & Hor).
        destruct (Hp p Hin). tauto. }
    rewrite bool_decide_true; [reflexivity|].
    eapply Exists_impl; [exact Hex|]. simpl. auto.
Qed.

End StoreMore.

(** ** The keys of the store *)

Section StoreKeysMore.
Import LeaderboardTracker.

Lemma players_after_save (stats : player_stats) (m : string) (now : Z) (d : db) :
  exists p, filter (λ p, p_uuid p = uuid stats)
              (players (save_player_stats stats m now d)) = [p]
            /\ p_username p = username stats
            /\ p_bedwars_level p = bedwars_level stats.
Proof.
  simpl. eexists. rewrite filter_app.
  replace (filter (λ p, p_uuid p = uuid stats)
             (filter (λ p, p_uuid p ≠ uuid stats) (players d)))
    with (@nil player_row).
  - rewrite filter_cons_True by reflexivity. simpl. auto.
  - symmetry. induction (players d) as [|p l IH]; [reflexivity|].
    rewrite (filter_cons (λ p, p_uuid p ≠ uuid stats)).
    case_decide; [|exact IH]. by rewrite filter_cons_False.
Qed.

Lemma save_player_stats_rows (stats : player_stats) (m : string) (now : Z)
    (d : db) :
  let d' := save_player_stats stats m now d in
  (exists s, bedwars_stats d' = bedwars_stats d ++ [s]
             /\ s_stats s = stats /\ s_timestamp s = now
             /\ s_id s ∉ s_id <$> bedwars_stats d)
  /\ (exists p, filter (λ p, p_uuid p = uuid stats) (players d') = [p]
                /\ p_username p = username stats
                /\ p_bedwars_level p = bedwars_level stats)
  /\ filter (λ p, p_uuid p <> uuid stats) (players d')
     = filter (λ p, p_uuid p <> uuid stats) (players d)
  /\ player_discovery d' = player_discovery d.
Proof.
  simpl. split; [|split; [|split; [|reflexivity]]].
  - eexists. split; [reflexivity|]. split; [reflexivity|]. split; [reflexivity|].
    simpl. intros Hin. apply next_id_above in Hin. lia.
  - apply players_after_save.
  - rewrite filter_app, filter_cons_False by (simpl; tauto).
    rewrite filter_nil, app_nil_r.
    induction (players d) as [|p l IH]; [reflexivity|].
    rewrite (filter_cons (λ p, p_uuid p ≠ uuid stats) p l).
    case_decide; [|exact IH].
    rewrite filter_cons_True by assumption. by rewrite IH.
Qed.

Lemma save_player_stats_lookup (stats : player_stats) (m : string) (now : Z)
    (d : db) :
  let d' := save_player_stats stats m now d in
  get_username_from_uuid_from_db d' (uuid stats) = Some (username stats)
  /\ forall other, other <> uuid stats ->
       get_username_from_uuid_from_db d' other
       = get_username_from_uuid_from_db d other.
Proof.
  simpl. split.
  - destruct (players_after_save stats m now d) as (p & Hp & Hn & _).
    unfold get_username_from_uuid_from_db. rewrite Hp. simpl. by rewrite Hn.
  - intros other Hne. unfold get_username_from_uuid_from_db. f_equal. f_equal.
    simpl. rewrite filter_app, filter_cons_False by (simpl; congruence).
    rewrite filter_nil, app_nil_r.
    induction (players d) as [|p l IH]; [reflexivity|].
    rewrite (filter_cons (λ p, p_uuid p ≠ uuid stats) p l).
    case_decide as Hp.
    + rewrite !(filter_cons (λ p, p_uuid p = other)).
      case_decide; by rewrite IH.
    + rewrite (filter_cons_False (λ p, p_uuid p = other) p l) by congruence.
      exact IH.
Qed.

(** Saving a fetch appends one snapshot under a fresh id, leaves one row
    for the player, the one just written, and leaves the other players
    and the queue as they were; get_username_from_uuid_from_db then
    answers the name just saved for that uuid, and what it answered
    before for any other. *)
Theorem save_player_stats_appends (stats : player_stats) (m : string) (now : Z)
    (d : db) :
  let d' := save_player_stats stats m now d in
  (exists s, bedwars_stats d' = bedwars_stats d ++ [s]
             /\ s_stats s = stats /\ s_timestamp s = now
             /\ s_id s ∉ s_id <$> bedwars_stats d)
  /\ (exists p, filter (λ p, p_uuid p = uuid stats) (players d') = [p]
                /\ p_username p = username stats
                /\ p_bedwars_level p = bedwars_level stats)
  /\ filter (λ p, p_uuid p <> uuid stats) (players d')
     = filter (λ p, p_uuid p <> uuid stats) (players d)
  /\ player_discovery d' = player_discovery d
  /\ get_username_from_uuid_from_db d' (uuid stats) = Some (username stats)
  /\ forall other, other <> uuid stats ->
       get_username_from_uuid_from_db d' other
       = get_username_from_uuid_from_db d other.
Proof.
  intros d'.
  destruct (save_player_stats_rows stats m now d) as (A & B & C & D).
  destruct (save_player_stats_lookup stats m now d) as (E & F).
  repeat split; assumption.
Qed.

End StoreKeysMore.

(** ** Runs of the queue *)

Section WellKeyed.
Import LeaderboardTracker.

Lemma insert_discovery_ids (u : string) (src : option string) (m : string)
    (now : Z) (rows : list discovery_row) :
  NoDup (id <$> rows) -> NoDup (id <$> insert_discovery u src m now rows).
Proof.
  intros Hn. unfold insert_discovery. rewrite fmap_app. apply NoDup_app.
  split; [exact Hn|]. split; [|apply NoDup_singleton].
  intros i Hi Hi'. simpl in Hi'. apply list_elem_of_singleton in Hi'.
  apply next_id_above in Hi. lia.
Qed.

Lemma well_keyed_queue (d d' : db) :
  players d' = players d -> bedwars_stats d' = bedwars_stats d ->
  (NoDup (id <$> player_discovery d) -> NoDup (id <$> player_discovery d')) ->
  well_keyed d -> well_keyed d'.
Proof.
  intros Hp Hs Hq (K1 & K2 & K3 & K4). unfold well_keyed, snapshots_have_players.
  rewrite Hp, Hs. auto.
Qed.

Lemma add_player_to_discovery_keyed (u : string) (src : option string)
    (m : string) (now : Z) (d : db) :
  well_keyed d -> well_keyed (add_player_to_discovery u src m now d).1.
Proof.
  unfold add_player_to_discovery. repeat case_bool_decide; simpl; auto.
  apply well_keyed_queue; auto. simpl. apply insert_discovery_ids.
Qed.

Lemma set_processed_keyed (item_id : Z) (d : db) :
  well_keyed d -> well_keyed (set_processed item_id d).
Proof.
  apply well_keyed_queue; auto. by rewrite set_processed_ids.
Qed.

Lemma save_player_stats_keyed (stats : player_stats) (m : string) (now : Z)
    (d : db) :
  well_keyed d -> well_keyed (save_player_stats stats m now d).
Proof.
  intros (K1 & K2 & K3 & K4). split; [by apply save_player_stats_players_key|].
  split; [|split; [exact K3|]].
  - simpl. rewrite fmap_app. apply NoDup_app. split; [exact K2|].
    split; [|apply NoDup_singleton].
    intros i Hi Hi'. simpl in Hi'. apply list_elem_of_singleton in Hi'.
    apply next_id_above in Hi. lia.
  - intros s Hs. simpl in Hs. apply elem_of_app in Hs as [Hs|Hs].
    + destruct (K4 s Hs) as (p & Hp & Hu).
      destruct (decide (p_uuid p = uuid stats)) as [E|N].
      * eexists. split; [simpl; apply elem_of_app; right; left|].
        simpl. congruence.
      * exists p. split; [|exact Hu]. simpl. apply elem_of_app. left.
        by apply list_elem_of_filter.
    + apply list_elem_of_singleton in Hs. subst s.
      eexists. split; [simpl; apply elem_of_app; right; left|]. reflexivity.
Qed.

Context (w : world).

(** The roster loop of discover_players_from_guild: what it returns is
    the number of rows it queued. *)
Lemma discover_guild_queued (u : string) (st : tracker) :
  let r := discover_players_from_guild w u st in
  queued_more (conn st) (conn r.1) r.2
  /\ (well_keyed (conn st) -> well_keyed (conn r.1)).
Proof.
  unfold discover_players_from_guild.
  destruct (guild_members w u st) as [members budget].
  set (st0 := with_rate_limit st budget).
  change (conn st) with (conn st0).
  assert (G : forall (s : tracker) (n : Z) (base : db),
             queued_more base (conn s) n ->
             (well_keyed base -> well_keyed (conn s)) ->
             let r := foldl (λ '(st, discovered) member,
                 match member with
                 | Some member_uuid =>
                     if bool_decide (member_uuid = "") then (st, discovered)
                     else
                       let '(st', added) :=
                         queue_player member_uuid (Some u) "guild"
                                      (clock w st) st in
                       (st', if added then discovered + 1 else discovered)
                 | None => (st, discovered)
                 end) (s, n) members in
             queued_more base (conn r.1) r.2
             /\ (well_keyed base -> well_keyed (conn r.1))).
  { induction members as [|member members IH]; intros s n base Hq Hk; simpl;
      [auto|].
    destruct member as [member_uuid|]; [|by apply IH].
    case_bool_decide; [by apply IH|].
    pose proof (add_player_to_discovery_queued member_uuid (Some u) "guild"
                  (clock w s) (conn s)) as [Hadd _].
    pose proof (add_player_to_discovery_keyed member_uuid (Some u) "guild"
                  (clock w s) (conn s)) as Hkey.
    pose proof (queue_player_conn member_uuid (Some u) "guild" (clock w s) s)
      as (Hc & Ha & _).
    destruct (queue_player member_uuid (Some u) "guild" (clock w s) s)
      as [s' added]. simpl in Hc, Ha. rewrite <- Hc in Hadd, Hkey.
    rewrite <- Ha in Hadd.
    apply IH.
    - replace (if added then n + 1 else n) with (n + (if added then 1 else 0))
        by (destruct added; lia).
      by eapply queued_more_trans.
    - auto. }
  apply G; [apply queued_more_refl|auto].
Qed.

(** One turn of the loop: a snapshot more exactly when the count grows,
    the queue larger by what the guild walk queued. *)
Lemma process_item_store (item : discovery_row) (st : tracker) (n : Z) :
  let r := (process_item w item st n).1 in
  (well_keyed (conn st) -> well_keyed (conn r.1))
  /\ (r.2 = n \/ r.2 = n + 1)
  /\ Z.of_nat (length (bedwars_stats (conn r.1)))
     = Z.of_nat (length (bedwars_stats (conn st))) + (r.2 - n).
Proof.
  unfold process_item, attempt_fetch, mark_processed.
  set (st1 := record_event (record_event _ (Marked (id item))) _).
  assert (K1 : well_keyed (conn st) -> well_keyed (conn st1))
    by apply set_processed_keyed.
  assert (L1 : bedwars_stats (conn st1) = bedwars_stats (conn st)) by reflexivity.
  destruct (fetch_player_stats w (discovered_uuid item) st1)
    as [[stats budget]|]; cbn [fst snd];
    [|split; [auto|split; [auto|try rewrite L1; lia]]].
  destruct stats as [stats|]; cbn [fst snd];
    [|split; [auto|split; [auto|simpl; try rewrite L1; lia]]].
  set (st2 := commit (with_conn (with_rate_limit st1 budget) _)).
  assert (K2 : well_keyed (conn st1) -> well_keyed (conn st2))
    by apply save_player_stats_keyed.
  assert (L2 : length (bedwars_stats (conn st2))
               = S (length (bedwars_stats (conn st)))).
  { subst st2. simpl. rewrite length_app. simpl. try rewrite L1. lia. }
  destruct (20 <? rate_limit_remaining st2); cbn [fst snd].
  - pose proof (discover_guild_queued (discovered_uuid item) st2) as G.
    cbv zeta in G. destruct G as [(_ & Hs & _) Hk].
    change (conn (commit ?s)) with (conn s).
    rewrite Hs. split; [auto|]. split; [auto|]. lia.
  - change (conn (commit ?s)) with (conn s).
    split; [auto|]. split; [auto|]. lia.
Qed.

Lemma process_items_store (queue_items : list discovery_row) (st : tracker)
    (n : Z) :
  let r := (process_items w queue_items st n).1 in
  (well_keyed (conn st) -> well_keyed (conn r.1))
  /\ n <= r.2 <= n + Z.of_nat (length queue_items)
  /\ Z.of_nat (length (bedwars_stats (conn r.1)))
     = Z.of_nat (length (bedwars_stats (conn st))) + (r.2 - n)
  /\ (rate_limit_remaining st <= 5 -> r = (st, n)).
Proof.
  revert st n. induction queue_items as [|item rest IH]; intros st n; simpl.
  - split; [auto|]. split; [lia|]. split; [lia|auto].
  - destruct (Z.leb_spec (rate_limit_remaining st) 5).
    + simpl. split; [auto|]. split; [lia|]. split; [lia|auto].
    + pose proof (process_item_store item st n) as (K & C & L).
      destruct (process_item w item st n) as [[st1 m] raised].
      cbn [fst snd] in K, C, L.
      destruct raised; cbn [fst snd].
      * split; [auto|]. split; [lia|]. split; [lia|]. lia.
      * destruct (IH st1 m) as (K' & C' & L' & _).
        split; [auto|]. split; [lia|]. split; [lia|]. lia.
Qed.

End WellKeyed.

Section RunMore.
Import LeaderboardTracker.

(** The count a run returns is the number of snapshots it stored; it is
    at most the number of rows selected, and a run that starts with a
    budget of 5 or less does nothing. *)
Theorem process_discovery_queue_count (w : world) (limit : option Z)
    (st : tracker) :
  let r := process_discovery_queue w limit st in
  Z.of_nat (length (bedwars_stats (conn r.1)))
  = Z.of_nat (length (bedwars_stats (conn st))) + r.2
  /\ 0 <= r.2 <= Z.of_nat (length (select_queue_items
                                     (default Config.PLAYERS_PER_CYCLE limit)
                                     (conn st)))
  /\ (rate_limit_remaining st <= 5 -> r = (st, 0)).
Proof.
  unfold process_discovery_queue, run_discovery_queue.
  destruct (process_items_store w
              (select_queue_items (default Config.PLAYERS_PER_CYCLE limit)
                 (conn st)) st 0) as (_ & C & L & B).
  split; [lia|]. split; [lia|exact B].
Qed.

(** Whatever happens to the tracker, the store stays well keyed. *)
Theorem well_keyed_steps (st st' : tracker) :
  rtc step st st' -> well_keyed (conn st) -> well_keyed (conn st').
Proof.
  induction 1 as [|s1 s2 s3 Hstep _ IH]; [auto|]. intros K. apply IH.
  destruct Hstep as [w limit s|u src m now s|u m now s|budget s].
  - unfold process_discovery_queue, run_discovery_queue.
    by apply (process_items_store w _ s 0).
  - rewrite (proj1 (queue_player_conn u src m now s)).
    by apply add_player_to_discovery_keyed.
  - revert K. apply well_keyed_queue; auto. simpl. apply insert_discovery_ids.
  - exact K.
Qed.

(** What discover_players_from_guild returns is the number of rows it
    queued, all open; it changes neither players nor snapshots. *)
Theorem discover_players_from_guild_count (w : world) (uuid : string)
    (st : tracker) :
  let r := discover_players_from_guild w uuid st in
  queued_more (conn st) (conn r.1) r.2.
Proof. apply discover_guild_queued. Qed.

Lemma select_queue_items_sorted (limit : Z) (d : db) :
  let open := filter (λ q, processed q = false) (player_discovery d) in
  let selected := select_queue_items limit d in
  StronglySorted (λ a b, discovered_at a <= discovered_at b) selected
  /\ exists rest, open ≡ₚ selected ++ rest
       /\ forall x y, x ∈ selected -> y ∈ rest ->
            discovered_at x <= discovered_at y.
Proof.
  simpl. unfold select_queue_items, order_by_discovered_at.
  set (open := filter _ (player_discovery d)).
  set (sorted := stable_sort _ open).
  assert (Hs : StronglySorted (λ a b, discovered_at a <= discovered_at b) sorted).
  { apply stable_sort_sorted.
    - intros a b c. lia.
    - intros x y Hxy. apply Z.ltb_lt in Hxy. lia.
    - intros x y Hxy. apply Z.ltb_ge in Hxy. lia. }
  assert (Hp : open ≡ₚ sorted) by (symmetry; apply stable_sort_perm).
  unfold sql_limit. destruct (limit <? 0).
  - split; [exact Hs|]. exists []. rewrite app_nil_r. split; [exact Hp|].
    intros x y _ Hy. by apply elem_of_nil in Hy.
  - split; [by apply StronglySorted_take|].
    exists (drop (Z.to_nat limit) sorted). rewrite take_drop.
    split; [exact Hp|]. intros x y Hx Hy.
    rewrite <- (take_drop (Z.to_nat limit) sorted) in Hs.
    exact (StronglySorted_app_1_elem_of _ _ _ _ _ Hs Hx Hy).
Qed.

(** The rows a run selects are open rows, the oldest first and none
    younger than an open row left behind, and at most as many as the
    limit. *)
Theorem select_queue_items_oldest_first (limit : Z) (d : db) :
  let open := filter (λ q, processed q = false) (player_discovery d) in
  let selected := select_queue_items limit d in
  StronglySorted (λ a b, discovered_at a <= discovered_at b) selected
  /\ (exists rest, open ≡ₚ selected ++ rest
        /\ forall x y, x ∈ selected -> y ∈ rest ->
             discovered_at x <= discovered_at y)
  /\ (0 <= limit -> (length selected <= Z.to_nat limit)%nat).
Proof.
  simpl. destruct (select_queue_items_sorted limit d) as [Hs Hr].
  split; [exact Hs|]. split; [exact Hr|].
  intros Hl. unfold select_queue_items, sql_limit.
  destruct (Z.ltb_spec limit 0); [lia|]. rewrite length_take. lia.
Qed.

End RunMore.

(** ** Seeding and fetching *)

Section SeedMore.
Import LeaderboardTracker.

Lemma seed_leaders_queued (stamp : db -> Z) (game_type lb_title : string)
    (leaders : list string) (base : db) (acc : db * Z) :
  queued_more base acc.1 acc.2 ->
  queued_more base (seed_leaders stamp game_type lb_title leaders acc).1
                   (seed_leaders stamp game_type lb_title leaders acc).2.
Proof.
  unfold seed_leaders. revert acc.
  induction leaders as [|u leaders IH]; intros [d n] Hq; simpl; [exact Hq|].
  pose proof (add_player_to_discovery_queued u None
                ("leaderboard_" +:+ game_type +:+ "_" +:+ lb_title)
                (stamp d) d) as [Hadd _].
  destruct (add_player_to_discovery u None _ (stamp d) d) as [d' added].
  apply IH. simpl in *.
  replace (if added then n + 1 else n) with (n + (if added then 1 else 0))
    by (destruct added; lia).
  by eapply queued_more_trans.
Qed.

Lemma seed_boards_queued (stamp : db -> Z)
    (boards : list (string * list api_leaderboard)) (d : db) :
  queued_more d (seed_boards stamp boards d).1 (seed_boards stamp boards d).2.
Proof.
  unfold seed_boards.
  assert (G : forall (acc : db * Z), queued_more d acc.1 acc.2 ->
            let r := foldl (λ acc '(game_type, leaderboards),
                       if bool_decide (game_type ≠ "BEDWARS") then acc
                       else foldl (λ acc lb,
                              seed_leaders stamp game_type
                                (default "Unknown" (board_title lb))
                                (board_leaders lb) acc) acc leaderboards)
                     acc boards in
            queued_more d r.1 r.2).
  { induction boards as [|[game_type lbs] boards IH]; intros acc Hq; simpl;
      [exact Hq|].
    apply IH. case_bool_decide; [exact Hq|].
    clear IH. revert acc Hq. induction lbs as [|lb lbs IH]; intros acc Hq;
      simpl; [exact Hq|].
    apply IH. by apply seed_leaders_queued. }
  apply G. apply queued_more_refl.
Qed.

Lemma seed_boards_other_games (stamp : db -> Z)
    (boards : list (string * list api_leaderboard)) (acc : db * Z) :
  Forall (λ b, b.1 ≠ "BEDWARS") boards ->
  foldl (λ acc '(game_type, leaderboards),
           if bool_decide (game_type ≠ "BEDWARS") then acc
           else foldl (λ acc lb,
                  seed_leaders stamp game_type
                    (default "Unknown" (board_title lb))
                    (board_leaders lb) acc) acc leaderboards)
        acc boards = acc.
Proof.
  induction 1 as [|[game_type lbs] boards Hb _ IH]; simpl; [reflexivity|].
  by rewrite bool_decide_true.
Qed.

(** seed_from_leaderboards returns the number of rows it queued, all of
    them open, and touches neither players nor snapshots; within the
    hour after a fetch, or when the request fails, it changes nothing
    and keeps the time of the last fetch; and only the leaderboards of
    BEDWARS are read. *)
Theorem seed_from_leaderboards_count (stamp : db -> Z)
    (data : option (list (string * list api_leaderboard)))
    (now last_leaderboard_fetch : Z) (d : db) :
  let r := seed_from_leaderboards stamp data now last_leaderboard_fetch d in
  queued_more d r.1.1 r.2
  /\ (now - last_leaderboard_fetch < 3600 \/ data = None ->
      r = (d, last_leaderboard_fetch, 0))
  /\ (3600 <= now - last_leaderboard_fetch -> is_Some data -> r.1.2 = now)
  /\ (forall boards, data = Some boards ->
        Forall (λ b, b.1 ≠ "BEDWARS") boards -> r.1.1 = d /\ r.2 = 0).
Proof.
  unfold seed_from_leaderboards.
  destruct (Z.ltb_spec (now - last_leaderboard_fetch) 3600) as [Hg|Hg].
  - simpl. split; [apply queued_more_refl|]. split; [auto|].
    split; [lia|auto].
  - destruct data as [boards|]; simpl.
    + pose proof (seed_boards_queued stamp boards d) as Hq.
      pose proof (seed_boards_other_games stamp boards (d, 0)) as Ho.
      fold (seed_boards stamp boards d) in Ho.
      destruct (seed_boards stamp boards d) as [d' n]. simpl in *.
      split; [exact Hq|]. split; [intros [?|?]; [lia|discriminate]|].
      split; [auto|]. intros boards' [= <-] Hb. specialize (Ho Hb).
      by injection Ho.
    + split; [apply queued_more_refl|]. split; [auto|].
      split; [intros _ [? ?]; discriminate|]. intros ? [=].
Qed.

End SeedMore.

(** ** The recompute utility *)

Section Recompute.
Import LeaderboardTracker.
Import RecomputeLevels.

Lemma with_bedwars_level_same (p : player_row) :
  with_bedwars_level p (p_bedwars_level p) = p.
Proof. by destruct p. Qed.

(** Every update of the list carries the level of the latest experience
    of its uuid. *)
Lemma updates_to_perform_level (d : db) (l : Z) (u : string) :
  (l, u) ∈ updates_to_perform d ->
  exists e, latest_experience d u = Some e
            /\ l = RecomputeLevels.calculate_bedwars_level e.
Proof.
  unfold updates_to_perform. intros Hin.
  apply list_elem_of_omap in Hin as (p & _ & Hp).
  destruct (latest_experience d (p_uuid p)) as [e|] eqn:E; [|discriminate].
  case_bool_decide; [|discriminate]. injection Hp as <- <-. eauto.
Qed.

Lemma updates_to_perform_none (d : db) (p : player_row) :
  p ∈ players d -> p_uuid p ∉ (updates_to_perform d).*2 ->
  match latest_experience d (p_uuid p) with
  | Some e => p_bedwars_level p = RecomputeLevels.calculate_bedwars_level e
  | None => True
  end.
Proof.
  intros Hp Hn. destruct (latest_experience d (p_uuid p)) as [e|] eqn:E; [|done].
  destruct (decide (p_bedwars_level p
                    = RecomputeLevels.calculate_bedwars_level e)) as [|Hne];
    [done|].
  exfalso. apply Hn. apply list_elem_of_fmap.
  exists (RecomputeLevels.calculate_bedwars_level e, p_uuid p).
  split; [reflexivity|]. unfold updates_to_perform.
  apply list_elem_of_omap. exists p. split; [exact Hp|].
  rewrite E. rewrite bool_decide_true by congruence. reflexivity.
Qed.

Lemma foldl_set_level (level_of : string -> Z) (ups : list (Z * string))
    (rows : list player_row) :
  (forall l u, (l, u) ∈ ups -> l = level_of u) ->
  foldl (λ rows update, set_level update rows) rows ups
  = (λ p, if bool_decide (p_uuid p ∈ ups.*2)
          then with_bedwars_level p (level_of (p_uuid p)) else p) <$> rows.
Proof.
  revert rows. induction ups as [|[l u] ups IH]; intros rows Hl; simpl.
  - rewrite <- (list_fmap_id rows) at 1. apply list_fmap_ext. intros i p _.
    reflexivity.
  - rewrite IH by (intros; apply Hl; by (apply elem_of_cons; right)).
    unfold set_level. rewrite <- list_fmap_compose. apply list_fmap_ext.
    intros i p _. simpl.
    assert (l = level_of u) as -> by (apply Hl; apply elem_of_cons; by left).
    assert (Hu : forall l', p_uuid (with_bedwars_level p l') = p_uuid p)
      by reflexivity.
    assert (Hw : forall l' l'', with_bedwars_level (with_bedwars_level p l') l''
                                = with_bedwars_level p l'') by reflexivity.
    change (list_fmap (Z * string)%type string snd ups) with (ups.*2).
    destruct (decide (p_uuid p = u)) as [E|Hne].
    + rewrite (bool_decide_true (p_uuid p = u)) by exact E.
      rewrite Hu, Hw.
      rewrite (bool_decide_true (p_uuid p ∈ u :: ups.*2))
        by (apply elem_of_cons; by left).
      rewrite E. by destruct (bool_decide _).
    + rewrite (bool_decide_false (p_uuid p = u)) by exact Hne.
      destruct (decide (p_uuid p ∈ ups.*2)) as [Hin|Hnin].
      * rewrite (bool_decide_true (p_uuid p ∈ ups.*2)) by exact Hin.
        rewrite (bool_decide_true (p_uuid p ∈ u :: ups.*2))
          by (apply elem_of_cons; by right).
        reflexivity.
      * rewrite (bool_decide_false (p_uuid p ∈ ups.*2)) by exact Hnin.
        rewrite (bool_decide_false (p_uuid p ∈ u :: ups.*2)); [done|].
        intros Hc. apply elem_of_cons in Hc as [?|?]; done.
Qed.

Lemma recompute_all_levels_levels (d : db) :
  players (recompute_all_levels d)
  = (λ p, match latest_experience d (p_uuid p) with
          | Some experience =>
              with_bedwars_level p
                (LeaderboardTracker.calculate_bedwars_level experience)
          | None => p
          end) <$> players d
  /\ bedwars_stats (recompute_all_levels d) = bedwars_stats d
  /\ player_discovery (recompute_all_levels d) = player_discovery d.
Proof.
  split; [|split; reflexivity]. simpl.
  rewrite (foldl_set_level
             (λ u, default 0 (RecomputeLevels.calculate_bedwars_level
                                <$> latest_experience d u))).
  - apply Forall_fmap_ext, Forall_forall. intros p Hp.
    case_bool_decide as Hin.
    + apply list_elem_of_fmap in Hin as ([l u] & Hu & Hin). simpl in Hu.
      apply updates_to_perform_level in Hin as (e & He & _).
      rewrite Hu, He. simpl. f_equal.
    + pose proof (updates_to_perform_none d p Hp Hin) as Hl.
      destruct (latest_experience d (p_uuid p)) as [e|]; [|done].
      rewrite <- (with_bedwars_level_same p) at 1. f_equal. rewrite Hl. reflexivity.
  - intros l u Hin. apply updates_to_perform_level in Hin as (e & -> & ->).
    reflexivity.
Qed.

Lemma omap_none {A B} (f : A -> option B) (l : list A) :
  Forall (λ x, f x = None) l -> omap f l = [].
Proof. induction 1 as [|x l Hx _ IH]; simpl; [done|]. by rewrite Hx. Qed.

Lemma recompute_all_levels_again (d : db) :
  updates_to_perform (recompute_all_levels d) = []
  /\ recompute_all_levels (recompute_all_levels d) = recompute_all_levels d.
Proof.
  assert (Hu : updates_to_perform (recompute_all_levels d) = []).
  { unfold updates_to_perform. apply omap_none, Forall_forall. intros p Hp.
    change (latest_experience (recompute_all_levels d) (p_uuid p))
      with (latest_experience d (p_uuid p)).
    simpl in Hp.
    rewrite (foldl_set_level
               (λ u, default 0 (RecomputeLevels.calculate_bedwars_level
                                  <$> latest_experience d u))) in Hp.
    2:{ intros l u Hin. apply updates_to_perform_level in Hin as (e & -> & ->).
        reflexivity. }
    apply list_elem_of_fmap in Hp as (q & -> & Hq).
    case_bool_decide as Hin.
    - simpl. apply list_elem_of_fmap in Hin as ([l u] & Hu & Hin).
      simpl in Hu. apply updates_to_perform_level in Hin as (e & He & _).
      rewrite Hu, He. simpl. by rewrite bool_decide_false by tauto.
    - pose proof (updates_to_perform_none d q Hq Hin) as Hl.
      destruct (latest_experience d (p_uuid q)) as [e|]; [|done].
      by rewrite bool_decide_false by (rewrite Hl; tauto). }
  split; [exact Hu|]. unfold recompute_all_levels at 1. rewrite Hu. reflexivity.
Qed.

(** recompute_all_levels gives every player with a snapshot the level of
    the experience of the player's latest snapshot, as the tracker
    computes it, and leaves everything else as it was: players without
    snapshots, the other columns, the snapshots and the queue.  A second
    run finds nothing to update and changes nothing. *)
Theorem recompute_all_levels_spec (d : db) :
  players (recompute_all_levels d)
  = (λ p, match latest_experience d (p_uuid p) with
          | Some experience =>
              with_bedwars_level p
                (LeaderboardTracker.calculate_bedwars_level experience)
          | None => p
          end) <$> players d
  /\ bedwars_stats (recompute_all_levels d) = bedwars_stats d
  /\ player_discovery (recompute_all_levels d) = player_discovery d
  /\ updates_to_perform (recompute_all_levels d) = []
  /\ recompute_all_levels (recompute_all_levels d) = recompute_all_levels d.
Proof.
  destruct (recompute_all_levels_levels d) as (A & B & C).
  destruct (recompute_all_levels_again d) as (D & E).
  repeat split; assumption.
Qed.

Lemma stable_sort_head {A} (after : A -> A -> bool) (top : A) (l : list A) :
  (forall y, y ∈ l -> after top y = false) ->
  (forall y, y ∈ l -> y = top \/ after y top = true) ->
  top ∈ l ->
  head (stable_sort after l) = Some top.
Proof.
  induction l as [|x l IH]; intros Htop Hlow Hin;
    [by apply elem_of_nil in Hin|].
  unfold stable_sort. simpl. fold (stable_sort after l).
  destruct (Hlow x) as [->|Hx]; [left|..].
  - pose proof (stable_sort_perm after l) as Hp.
    destruct (stable_sort after l) as [|y l']; simpl; [done|].
    rewrite Htop; [done|]. right. rewrite <- Hp. left.
  - apply elem_of_cons in Hin as [->|Hin];
      [rewrite Htop in Hx by (apply elem_of_cons; by left); discriminate|].
    specialize (IH (λ y Hy, Htop y (proj2 (elem_of_cons _ _ _) (or_intror Hy)))
                   (λ y Hy, Hlow y (proj2 (elem_of_cons _ _ _) (or_intror Hy))) Hin).
    destruct (stable_sort after l) as [|y l']; [done|].
    simpl in IH. injection IH as ->. simpl. by rewrite Hx.
Qed.

(** A player stored from a fetch later than the player's earlier
    snapshots carries the level the recompute utility would give:
    recompute_all_levels has no update for that player. *)
Theorem fetched_player_level_current (isoformat : Z -> string)
    (data : option player_document) (stats : player_stats) (m : string)
    (now : Z) (d : db) :
  stats_of_player isoformat d (uuid stats) data = Some stats ->
  Forall (λ s, uuid (s_stats s) = uuid stats -> s_timestamp s < now)
         (bedwars_stats d) ->
  let d' := save_player_stats stats m now d in
  latest_experience d' (uuid stats) = Some (experience stats)
  /\ uuid stats ∉ (updates_to_perform d').*2.
Proof.
  intros Hf Hold d'.
  assert (Hlevel : bedwars_level stats
                   = RecomputeLevels.calculate_bedwars_level (experience stats)).
  { unfold stats_of_player in Hf. destruct data as [doc|]; [|discriminate].
    simpl in Hf. destruct (_ <? _); [discriminate|].
    injection Hf as Hf. rewrite <- Hf. simpl.
    unfold LeaderboardTracker.calculate_bedwars_level,
      RecomputeLevels.calculate_bedwars_level.
    by rewrite consume_costs_pay. }
  assert (Hlatest : latest_experience d' (uuid stats) = Some (experience stats)).
  { unfold latest_experience.
    set (new := {| s_id := next_id (s_id <$> bedwars_stats d);
                   s_timestamp := now; s_stats := stats |}).
    assert (Hrows : forall y,
              y ∈ filter (λ s, uuid (s_stats s) = uuid stats) (bedwars_stats d')
              -> y = new \/ s_timestamp y < now).
    { intros y Hy. apply list_elem_of_filter in Hy as [Hu Hy]. simpl in Hy.
      apply elem_of_app in Hy as [Hy|Hy].
      - right. rewrite Forall_forall in Hold. by apply Hold.
      - left. by apply list_elem_of_singleton in Hy. }
    rewrite (stable_sort_head _ new); [reflexivity|..].
    - intros y Hy. apply Z.ltb_ge. simpl.
      destruct (Hrows y Hy) as [->|?]; simpl; lia.
    - intros y Hy. destruct (Hrows y Hy) as [->|?]; [by left|right].
      apply Z.ltb_lt. simpl. lia.
    - apply list_elem_of_filter. split; [reflexivity|]. simpl.
      apply elem_of_app. right. apply list_elem_of_singleton. reflexivity. }
  split; [exact Hlatest|]. intros Hin.
  apply list_elem_of_fmap in Hin as ([l u] & Hu & Hin). simpl in Hu. subst u.
  unfold updates_to_perform in Hin.
  apply list_elem_of_omap in Hin as (p & Hp & Hup).
  destruct (latest_experience d' (p_uuid p)) as [e|] eqn:E; [|discriminate].
  case_bool_decide as Hne; [|discriminate]. injection Hup as _ Hu.
  rewrite Hu, Hlatest in E. injection E as <-.
  destruct (players_after_save stats m now d) as (q & Hq & _ & Hlq).
  assert (Hpq : p ∈ [q]).
  { rewrite <- Hq. apply list_elem_of_filter. by split. }
  apply list_elem_of_singleton in Hpq. subst q.
  apply Hne. by rewrite Hlq.
Qed.

End Recompute.

(** ** Name lookups *)

Section IngestorMore.
Import LeaderboardTracker.
Import UuidIngestor.
Context (w : world).

(** What the loop does not touch, and what it answers. *)
Lemma request_loop_frame (fuel : nat) (player_name : string)
    (current_backoff retries : Z) (st : ingestor) u nm status st' :
  request_loop w fuel player_name current_backoff retries st
  = Some (u, nm, status, st') ->
  lookups st' = lookups st /\ table_players st' = table_players st
  /\ table_discovery st' = table_discovery st
  /\ name_changes st' = name_changes st
  /\ (requests_made st <= requests_made st')%nat
  /\ match status with
     | SUCCESS =>
         exists id, id <> "" /\ u = Some (format_uuid id)
                    /\ nm = Some player_name
                    /\ uuid_cache st' = <[player_name := format_uuid id]>
                                          (uuid_cache st)
     | PLAYER_NOT_FOUND | ERROR =>
         u = None /\ nm = None /\ uuid_cache st' = uuid_cache st
     | RATE_LIMITED => False
     end.
Proof.
  revert current_backoff retries st.
  induction fuel as [|fuel IH]; intros b k st; simpl; [discriminate|].
  destruct (k <? 3); [|intros [= <- <- <- <-]; repeat split; auto].
  destruct (name_endpoint w player_name (requests_made st)) as [[id|]| | |c|];
    try case_bool_decide;
    try (intros E; apply IH in E; simpl in E;
         destruct E as (? & ? & ? & ? & ? & ?);
         repeat split; auto; lia);
    intros [= <- <- <- <-]; simpl; repeat split; auto.
  exists id. auto.
Qed.

Lemma lower_inj_ne (a b : string) : lower a <> lower b -> a <> b.
Proof. congruence. Qed.

Lemma get_player_uuid_and_name_outcome (fuel : nat) (player_name : string)
    (st : ingestor) u nm status st' :
  get_player_uuid_and_name w fuel player_name st = Some (u, nm, status, st') ->
  status <> RATE_LIMITED
  /\ match status with
     | SUCCESS =>
         exists id name, u = Some id /\ nm = Some name
                         /\ uuid_cache st' !! name = Some id
     | _ => u = None /\ nm = None /\ uuid_cache st' = uuid_cache st
     end
  /\ table_players st' = table_players st
  /\ table_discovery st' = table_discovery st
  /\ lookups st' = lookups st.
Proof.
  unfold get_player_uuid_and_name.
  destruct (uuid_cache st !! player_name) as [id|] eqn:Hc.
  - destruct (profile_endpoint w id (requests_made st)) as [[c|]|]; simpl;
      try (destruct (bool_decide (c ≠ "")
                     && bool_decide (lower c ≠ lower player_name)) eqn:Hn);
      intros [= <- <- <- <-]; simpl; (split; [done|]);
      (split; [|auto]); exists id; eexists; (split; [done|]);
      (split; [done|]); try exact Hc.
    apply andb_true_iff in Hn as [_ Hn]. apply bool_decide_eq_true in Hn.
    apply lower_inj_ne in Hn.
    rewrite lookup_delete_ne by congruence. apply lookup_insert_eq.
  - intros E. apply request_loop_frame in E
      as (Hl & Hp & Hd & _ & _ & Hs).
    destruct status; [| |destruct Hs|].
    + destruct Hs as (id & _ & -> & -> & ->). split; [done|].
      split; [|auto]. exists (format_uuid id), player_name.
      split; [done|]. split; [done|]. apply lookup_insert_eq.
    + destruct Hs as (-> & -> & ->). auto.
    + destruct Hs as (-> & -> & ->). auto.
Qed.

(** get_player_uuid_and_name never answers RATE_LIMITED; it answers
    SUCCESS with a uuid and a name under which the cache then holds
    that uuid, and any other status with neither and the cache as it
    was.  It writes to no table and records no lookup. *)
Theorem get_player_uuid_and_name_status (fuel : nat) (player_name : string)
    (st : ingestor) u nm status st' :
  get_player_uuid_and_name w fuel player_name st = Some (u, nm, status, st') ->
  status <> RATE_LIMITED
  /\ match status with
     | SUCCESS =>
         exists id name, u = Some id /\ nm = Some name
                         /\ uuid_cache st' !! name = Some id
     | _ => u = None /\ nm = None /\ uuid_cache st' = uuid_cache st
     end
  /\ table_players st' = table_players st
  /\ table_discovery st' = table_discovery st
  /\ lookups st' = lookups st.
Proof. apply get_player_uuid_and_name_outcome. Qed.

(** Without an answer 200 that lacks an id every turn of the loop uses
    a retry or returns, so the loop ends. *)
Lemma request_loop_bounded (fuel : nat) (player_name : string)
    (current_backoff retries : Z) (st : ingestor) :
  (forall n, match name_endpoint w player_name n with
             | Status200 None => False
             | Status200 (Some id) => id <> ""
             | _ => True
             end) ->
  0 <= retries ->
  (Z.to_nat (3 - retries) < fuel)%nat ->
  exists r, request_loop w fuel player_name current_backoff retries st = Some r
            /\ (requests_made r.2 <= requests_made st + Z.to_nat (3 - retries))%nat.
Proof.
  intros Hw. revert current_backoff retries st.
  induction fuel as [|fuel IH]; intros b k st Hk Hf; [lia|]. simpl.
  destruct (Z.ltb_spec k 3) as [Hlt|Hge]; [|eexists; split; [done|simpl; lia]].
  specialize (Hw (requests_made st)).
  assert (Hnext : forall b' st1,
            requests_made st1 = S (requests_made st) ->
            exists r, request_loop w fuel player_name b' (k + 1) st1 = Some r
                      /\ (requests_made r.2
                          <= requests_made st + Z.to_nat (3 - k))%nat).
  { intros b' st1 Hr. destruct (IH b' (k + 1) st1) as (r & Hr1 & Hr2);
      [lia|lia|]. exists r. split; [exact Hr1|]. lia. }
  destruct (name_endpoint w player_name (requests_made st)) as [[id|]| | |c|];
    try done; try (apply Hnext; reflexivity).
  - rewrite bool_decide_false by exact Hw. eexists. split; [done|]. simpl. lia.
  - eexists. split; [done|]. simpl. lia.
Qed.

(** When the name endpoint never answers 200 without an id,
    get_player_uuid_and_name ends, after three requests at most. *)
Theorem get_player_uuid_and_name_ends (fuel : nat) (player_name : string)
    (st : ingestor) :
  (forall n, match name_endpoint w player_name n with
             | Status200 None => False
             | Status200 (Some id) => id <> ""
             | _ => True
             end) ->
  (4 <= fuel)%nat ->
  exists r, get_player_uuid_and_name w fuel player_name st = Some r
            /\ (requests_made st <= requests_made r.2 <= requests_made st + 3)%nat.
Proof.
  intros Hw Hf. unfold get_player_uuid_and_name.
  destruct (uuid_cache st !! player_name) as [id|].
  - destruct (profile_endpoint w id (requests_made st)) as [[c|]|]; simpl;
      try destruct (_ && _); eexists; (split; [done|]); simpl; lia.
  - destruct (request_loop_bounded fuel player_name
                Config.RATE_LIMIT_BACKOFF_SECONDS 0 st Hw) as (r & Hr & Hn);
      [lia|simpl; lia|].
    exists r. split; [exact Hr|]. split; [|simpl in Hn; lia].
    destruct r as [[[u nm] status] st'].
    by apply request_loop_frame in Hr as (_ & _ & _ & _ & ? & _).
Qed.

(** While the name endpoint answers 200 without an id, the loop starts
    again with its retries unchanged: the lookup of a name that is not
    in the cache never ends. *)
Theorem get_player_uuid_and_name_spins (fuel : nat) (player_name : string)
    (st : ingestor) :
  (forall n, name_endpoint w player_name n = Status200 None
             \/ name_endpoint w player_name n = Status200 (Some "")) ->
  uuid_cache st !! player_name = None ->
  get_player_uuid_and_name w fuel player_name st = None.
Proof.
  intros Hw Hc. unfold get_player_uuid_and_name. rewrite Hc.
  generalize Config.RATE_LIMIT_BACKOFF_SECONDS as b.
  assert (G : forall retries, retries < 3 -> forall b st,
            request_loop w fuel player_name b retries st = None);
    [|intros b; by apply G].
  intros k Hk. induction fuel as [|fuel' IH]; intros b st'; simpl; [done|].
  destruct (Z.ltb_spec k 3); [|lia].
  destruct (Hw (requests_made st')) as [-> | ->]; apply IH.
Qed.

(** add_uuid_to_discovery_queue queues a uuid that is no player and has
    no open row, as one open row at the end of the queue, and then
    refuses it: a second call changes nothing. *)
Theorem add_uuid_to_discovery_queue_twice (uuid m : string) (t1 t2 : Z)
    (st : ingestor) :
  let r := add_uuid_to_discovery_queue uuid m t1 st in
  (r.2 = true <->
   Forall (λ p, p_uuid p <> uuid) (table_players st)
   /\ Forall (λ q, discovered_uuid q = uuid -> processed q = true)
             (table_discovery st))
  /\ (r.2 = false -> r.1 = st)
  /\ (r.2 = true ->
      exists q, table_discovery r.1 = table_discovery st ++ [q]
                /\ discovered_uuid q = uuid /\ processed q = false
                /\ source_uuid q = None /\ discovery_method q = m)
  /\ add_uuid_to_discovery_queue uuid m t2 r.1 = (r.1, false).
Proof.
  simpl. unfold add_uuid_to_discovery_queue at 1 2 3 4 5.
  destruct (bool_decide (Exists (λ p, p_uuid p = uuid) (table_players st)))
    eqn:Hp; simpl.
  - split; [|split; [done|split; [done|]]].
    + split; [done|]. intros [Hn _]. apply bool_decide_eq_true in Hp.
      apply Exists_exists in Hp as (p & Hin & Hu).
      rewrite Forall_forall in Hn. by apply Hn in Hin.
    + unfold add_uuid_to_discovery_queue. rewrite Hp. simpl.
      unfold add_uuid_to_discovery_queue. by rewrite Hp.
  - destruct (bool_decide (Exists (λ q, discovered_uuid q = uuid
                                        ∧ processed q = false)
                                  (table_discovery st))) eqn:Hq; simpl.
    + split; [|split; [done|split; [done|]]].
      * split; [done|]. intros [_ Hn]. apply bool_decide_eq_true in Hq.
        apply Exists_exists in Hq as (q & Hin & Hu & Hf).
        rewrite Forall_forall in Hn. apply Hn in Hin; [congruence|done].
      * unfold add_uuid_to_discovery_queue. rewrite Hp, Hq. simpl.
        unfold add_uuid_to_discovery_queue. by rewrite Hp, Hq.
    + split; [|split; [done|split]].
      * apply bool_decide_eq_false in Hp, Hq.
        split; [|done]. intros _. split.
        -- apply Forall_forall. intros p Hin Hu. apply Hp.
           apply Exists_exists. eauto.
        -- apply Forall_forall. intros q Hin Hu.
           destruct (processed q) eqn:E; [done|]. exfalso. apply Hq.
           apply Exists_exists. eauto.
      * intros _. eexists. split; [reflexivity|]. simpl. auto.
      * unfold add_uuid_to_discovery_queue at 2 3. rewrite Hp, Hq. simpl.
        unfold add_uuid_to_discovery_queue. simpl. rewrite Hp. simpl.
        rewrite bool_decide_true; [reflexivity|].
        unfold insert_discovery. apply Exists_app. right.
        apply Exists_cons_hd. simpl. auto.
Qed.


End IngestorMore.

(** ** Runs over the scraped names *)

Section ScrapedNames.
Import LeaderboardTracker.
Import UuidIngestor.
Context (w : world).

Lemma add_uuid_to_discovery_queue_frame (uuid m : string) (t : Z)
    (st : ingestor) :
  let r := add_uuid_to_discovery_queue uuid m t st in
  lookups r.1 = lookups st /\ table_players r.1 = table_players st
  /\ progress_file r.1 = progress_file st
  /\ requests_made r.1 = requests_made st
  /\ Z.of_nat (length (table_discovery r.1))
     = Z.of_nat (length (table_discovery st)) + (if r.2 then 1 else 0).
Proof.
  simpl. unfold add_uuid_to_discovery_queue. destruct (_ || _); simpl.
  - repeat split; lia.
  - repeat split. unfold insert_discovery. rewrite length_app. simpl. lia.
Qed.

(** The loop of process_scraped_names from line [i] on. *)
Lemma process_lines_run (fuel : nat) (lines : list string) (i last n : Z)
    (st st' : ingestor) (n' : Z) :
  process_lines w fuel lines i last st n = Some (st', n') ->
  exists new,
    lookups st' = lookups st ++ new
    /\ Forall (λ l, last < lk_line l /\ i <= lk_line l < i + Z.of_nat (length lines)
                    /\ lk_status l <> RATE_LIMITED
                    /\ (strip <$> lines) !! Z.to_nat (lk_line l - i)
                       = Some (lk_name l)
                    /\ lk_name l <> "") new
    /\ StronglySorted (λ a b, lk_line a < lk_line b) new
    /\ (progress_file st' = progress_file st
        \/ exists j, progress_file st' = Some j /\ last < j
                     /\ i <= j < i + Z.of_nat (length lines))
    /\ Forall (λ l, lk_status l = SUCCESS \/ lk_status l = PLAYER_NOT_FOUND ->
                    exists j, progress_file st' = Some j /\ lk_line l <= j) new
    /\ n <= n'
    /\ Z.of_nat (length (table_discovery st'))
       = Z.of_nat (length (table_discovery st)) + (n' - n)
    /\ table_players st' = table_players st.
Proof.
  revert i n st. induction lines as [|line rest IH]; intros i n st.
  - simpl. intros [= <- <-]. exists []. rewrite app_nil_r.
    repeat split; auto; try constructor; lia.
  - cbn [process_lines].
    assert (Hlen : Z.of_nat (length (line :: rest))
                   = Z.of_nat (length rest) + 1) by (simpl; lia).
    rewrite Hlen.
    assert (Hskip : forall st1 n1,
      progress_file st1 = progress_file st \/
        (progress_file st1 = Some i /\ last < i) ->
      lookups st1 = lookups st -> n1 = n ->
      table_discovery st1 = table_discovery st ->
      table_players st1 = table_players st ->
      process_lines w fuel rest (i + 1) last st1 n1 = Some (st', n') ->
      exists new,
        lookups st' = lookups st ++ new
        /\ Forall (λ l, last < lk_line l
                        /\ i <= lk_line l < i + (Z.of_nat (length rest) + 1)
                        /\ lk_status l <> RATE_LIMITED
                        /\ (strip <$> line :: rest) !! Z.to_nat (lk_line l - i)
                           = Some (lk_name l)
                        /\ lk_name l <> "") new
        /\ StronglySorted (λ a b, lk_line a < lk_line b) new
        /\ (progress_file st' = progress_file st
            \/ exists j, progress_file st' = Some j /\ last < j
                         /\ i <= j < i + (Z.of_nat (length rest) + 1))
        /\ Forall (λ l, lk_status l = SUCCESS \/ lk_status l = PLAYER_NOT_FOUND ->
                        exists j, progress_file st' = Some j /\ lk_line l <= j) new
        /\ n <= n'
        /\ Z.of_nat (length (table_discovery st'))
           = Z.of_nat (length (table_discovery st)) + (n' - n)
        /\ table_players st' = table_players st).
    { intros st1 n1 Hpf Hlk -> Hd Hp E.
      apply IH in E as (new & H1 & H2 & H3 & H4 & H5 & H6 & H7 & H8).
      exists new. rewrite H1, Hlk. split; [done|]. split.
      { eapply Forall_impl; [exact H2|]. intros l (? & ? & ? & Hl & ?).
        split; [done|]. split; [lia|]. split; [done|]. split; [|done].
        replace (Z.to_nat (lk_line l - i))
          with (S (Z.to_nat (lk_line l - (i + 1)))) by lia.
        exact Hl. }
      split; [done|]. split.
      { destruct H4 as [H4|(j & H4 & ? & ?)].
        - rewrite H4. destruct Hpf as [?|[? ?]]; [by left|].
          right. exists i. split; [done|]. lia.
        - right. exists j. split; [done|]. lia. }
      split; [done|]. split; [done|]. rewrite H7, H8, Hd, Hp. done. }
    destruct (Z.leb_spec i last) as [Hle|Hgt].
    { apply Hskip; auto. }
    case_bool_decide as Hname.
    { apply Hskip; auto. }
    destruct (get_player_uuid_and_name w fuel (strip line) st)
      as [[[[u nm] status] st1]|] eqn:Eg; [|discriminate].
    cbn [mbind option_bind].
    pose proof (get_player_uuid_and_name_progress w _ _ _ _ Eg) as Hpg.
    simpl in Hpg.
    apply get_player_uuid_and_name_outcome in Eg
      as (Hrl & _ & Hp1 & Hd1 & Hl1).
    set (lk := {| lk_line := i; lk_name := strip line; lk_status := status |}).
    set (st2 := record_lookup st1 lk).
    pose proof (add_uuid_to_discovery_queue_frame (default "" u)
                  "mineflayer_scrape" (now w (requests_made st2)) st2)
      as (A1 & A2 & A3 & A4 & A5). cbv zeta in A1, A2, A3, A4, A5.
    assert (Hrest : forall st3 n3,
      (progress_file st3 = progress_file st /\ status = ERROR
       \/ progress_file st3 = Some i) ->
      lookups st3 = lookups st ++ [lk] -> n <= n3 ->
      Z.of_nat (length (table_discovery st3))
      = Z.of_nat (length (table_discovery st)) + (n3 - n) ->
      table_players st3 = table_players st ->
      process_lines w fuel rest (i + 1) last st3 n3 = Some (st', n') ->
      exists new,
        lookups st' = lookups st ++ new
        /\ Forall (λ l, last < lk_line l
                        /\ i <= lk_line l < i + (Z.of_nat (length rest) + 1)
                        /\ lk_status l <> RATE_LIMITED
                        /\ (strip <$> line :: rest) !! Z.to_nat (lk_line l - i)
                           = Some (lk_name l)
                        /\ lk_name l <> "") new
        /\ StronglySorted (λ a b, lk_line a < lk_line b) new
        /\ (progress_file st' = progress_file st
            \/ exists j, progress_file st' = Some j /\ last < j
                         /\ i <= j < i + (Z.of_nat (length rest) + 1))
        /\ Forall (λ l, lk_status l = SUCCESS \/ lk_status l = PLAYER_NOT_FOUND ->
                        exists j, progress_file st' = Some j /\ lk_line l <= j) new
        /\ n <= n'
        /\ Z.of_nat (length (table_discovery st'))
           = Z.of_nat (length (table_discovery st)) + (n' - n)
        /\ table_players st' = table_players st).
    { intros st3 n3 Hpf Hlk Hn Hd Hp E.
      apply IH in E as (new & H1 & H2 & H3 & H4 & H5 & H6 & H7 & H8).
      exists (lk :: new). rewrite H1, Hlk, <- app_assoc. split; [done|].
      split.
      { constructor.
        - simpl. split; [lia|]. split; [lia|]. split; [done|].
          rewrite Z.sub_diag. done.
        - eapply Forall_impl; [exact H2|]. intros l (? & ? & ? & Hl & ?).
          split; [done|]. split; [lia|]. split; [done|]. split; [|done].
          replace (Z.to_nat (lk_line l - i))
            with (S (Z.to_nat (lk_line l - (i + 1)))) by lia.
          exact Hl. }
      split.
      { constructor; [done|]. eapply Forall_impl; [exact H2|].
        intros l (? & ? & _). simpl. lia. }
      split.
      { destruct H4 as [H4|(j & H4 & ? & ?)].
        - rewrite H4. destruct Hpf as [[? _]|?]; [by left|].
          right. exists i. split; [done|]. lia.
        - right. exists j. split; [done|]. lia. }
      split.
      { constructor; [|done]. simpl. intros Hs.
        destruct H4 as [H4|(j & H4 & ? & ?)].
        - rewrite H4. destruct Hpf as [[_ ->]|?]; [by destruct Hs|].
          exists i. split; [done|]. lia.
        - exists j. split; [done|]. lia. }
      split; [lia|]. rewrite H7, H8, Hd, Hp. split; [lia|done]. }
    destruct status; [| |done|].
    + destruct (add_uuid_to_discovery_queue (default "" u) "mineflayer_scrape"
                  (now w (requests_made st2)) st2) as [st3 added].
      simpl in A1, A2, A3, A4, A5.
      apply Hrest; simpl; auto.
      * rewrite A1. simpl. by rewrite Hl1.
      * destruct added; lia.
      * rewrite A5. simpl. rewrite Hd1. destruct added; lia.
      * rewrite A2. simpl. done.
    + apply Hrest; simpl; auto.
      * by rewrite Hl1.
      * lia.
      * rewrite Hd1. lia.
    + apply Hrest; simpl; auto.
      * by rewrite Hl1.
      * lia.
      * rewrite Hd1. lia.
Qed.

(** A run of process_scraped_names looks up only lines beyond the
    cursor that are not blank, each once and in the order of the file,
    under the stripped line; the count it returns is the number of rows
    it queued, and it never writes to the players table. *)
Theorem process_scraped_names_lookups (fuel : nat) (lines : list string)
    (st st' : ingestor) (n : Z) :
  process_scraped_names w fuel (Some lines) st = Some (st', n) ->
  exists new,
    lookups st' = lookups st ++ new
    /\ StronglySorted (λ a b, lk_line a < lk_line b) new
    /\ Forall (λ l, _get_last_processed_line st < lk_line l
                    /\ 1 <= lk_line l <= Z.of_nat (length lines)
                    /\ (strip <$> lines) !! Z.to_nat (lk_line l - 1)
                       = Some (lk_name l)
                    /\ lk_name l <> "") new
    /\ 0 <= n
    /\ Z.of_nat (length (table_discovery st'))
       = Z.of_nat (length (table_discovery st)) + n
    /\ table_players st' = table_players st.
Proof.
  unfold process_scraped_names. intros E.
  apply process_lines_run in E as (new & H1 & H2 & H3 & _ & _ & H6 & H7 & H8).
  exists new. split; [done|]. split; [done|]. split.
  - eapply Forall_impl; [exact H2|]. intros l (? & ? & _ & ? & ?).
    repeat split; auto; lia.
  - split; [lia|]. split; [lia|done].
Qed.

End ScrapedNames.

Section LaterRuns.
Import LeaderboardTracker.
Import UuidIngestor.

(** Once a run has resolved a line (SUCCESS or PLAYER_NOT_FOUND), no
    later run over the same file looks up that line or any line before
    it, whatever the identity service answers then: a name that failed
    before a line that resolved is not tried again. *)
Theorem process_scraped_names_cursor (w : world) (fuel : nat)
    (lines : list string) (st st1 : ingestor) (n1 : Z) (l : lookup) :
  process_scraped_names w fuel (Some lines) st = Some (st1, n1) ->
  l ∈ drop (length (lookups st)) (lookups st1) ->
  lk_status l = SUCCESS \/ lk_status l = PLAYER_NOT_FOUND ->
  forall (w2 : world) (fuel2 : nat) (st2 : ingestor) (n2 : Z) (k : lookup),
    process_scraped_names w2 fuel2 (Some lines) st1 = Some (st2, n2) ->
    k ∈ drop (length (lookups st1)) (lookups st2) ->
    lk_line l < lk_line k.
Proof.
  unfold process_scraped_names. intros E Hl Hs w2 fuel2 st2 n2 k E2 Hk.
  apply process_lines_run in E as (new & H1 & _ & _ & _ & H5 & _).
  rewrite H1, drop_app_length in Hl.
  rewrite Forall_forall in H5. destruct (H5 l Hl Hs) as (j & Hj & Hlj).
  apply process_lines_run in E2 as (new2 & G1 & G2 & _).
  rewrite G1, drop_app_length in Hk.
  rewrite Forall_forall in G2. destruct (G2 k Hk) as (Hlast & _).
  unfold _get_last_processed_line in Hlast. rewrite Hj in Hlast.
  simpl in Hlast. lia.
Qed.

End LaterRuns.

(** ** Instances *)

Lemma calculate_bedwars_level_monotone_witness :
  LeaderboardTracker.calculate_bedwars_level 7000
  <= LeaderboardTracker.calculate_bedwars_level 487500.
Proof. apply calculate_bedwars_level_monotone. lia. Defined.

Lemma modes_diff_moved_witness :
  let baseline_stats :=
    @BedwarsStats._parse_bedwars_stats PyFloat.ties_up Examples.before_session in
  let current_stats :=
    @BedwarsStats._parse_bedwars_stats PyFloat.ties_up Examples.after_session in
  is_Some (BedwarsStats.modes current_stats !! "solos").
Proof.
  intros baseline_stats current_stats.
  refine (proj1 (@modes_diff_moved PyFloat.ties_up current_stats baseline_stats
                   "solos" {| BedwarsStats.d_wins := 3;
                              BedwarsStats.d_losses := 0;
                              BedwarsStats.d_WLR := 3%Q |} _)).
  vm_compute. reflexivity.
Defined.

Lemma update_winstreak_estimates_bounds_witness :
  let baseline_stats :=
    @BedwarsStats._parse_bedwars_stats PyFloat.ties_up Examples.before_session in
  let current_stats :=
    @BedwarsStats._parse_bedwars_stats PyFloat.ties_up Examples.after_session in
  let diff :=
    @BedwarsStats.calculate_session_diff PyFloat.ties_up
      current_stats baseline_stats in
  map_Forall (λ _ e, BedwarsStats.min_possible e <= BedwarsStats.max_possible e)
             (BedwarsStats.update_winstreak_estimates ∅ diff current_stats).
Proof.
  intros baseline_stats current_stats diff.
  apply update_winstreak_estimates_bounds.
  - vm_compute. discriminate.
  - apply map_Forall_empty.
Defined.

Lemma update_winstreak_estimates_frame_witness :
  let baseline_stats :=
    @BedwarsStats._parse_bedwars_stats PyFloat.ties_up Examples.before_session in
  let current_stats :=
    @BedwarsStats._parse_bedwars_stats PyFloat.ties_up Examples.after_session in
  let diff :=
    @BedwarsStats.calculate_session_diff PyFloat.ties_up
      current_stats baseline_stats in
  BedwarsStats.update_winstreak_estimates ∅ diff current_stats !! "fours" = None.
Proof.
  intros baseline_stats current_stats diff.
  rewrite update_winstreak_estimates_frame.
  - apply lookup_empty.
  - discriminate.
  - vm_compute. reflexivity.
Defined.

Lemma update_winstreak_estimates_trusts_api_witness :
  let baseline_stats :=
    @BedwarsStats._parse_bedwars_stats PyFloat.ties_up Examples.before_session in
  let current_stats :=
    @BedwarsStats._parse_bedwars_stats PyFloat.ties_up
      Examples.after_session_streak in
  let diff :=
    @BedwarsStats.calculate_session_diff PyFloat.ties_up
      current_stats baseline_stats in
  BedwarsStats.update_winstreak_estimates ∅ diff current_stats !! "overall"
  = Some {| BedwarsStats.api_value := Some 4; BedwarsStats.min_possible := 4;
            BedwarsStats.max_possible := 4; BedwarsStats.likely := PyFloat.of_int 4 |}.
Proof.
  intros baseline_stats current_stats diff.
  apply update_winstreak_estimates_trusts_api.
  - left. vm_compute. discriminate.
  - left. split; [reflexivity|]. vm_compute. reflexivity.
Defined.

Lemma process_player_session_numbering_witness :
  let stats :=
    @BedwarsStats._parse_bedwars_stats PyFloat.ties_up Examples.before_session in
  let current_stats :=
    @BedwarsStats._parse_bedwars_stats PyFloat.ties_up Examples.after_session in
  let t := {| BedwarsStats.baseline_files := {["Steve" := stats]};
              BedwarsStats.session_files := ∅;
              BedwarsStats.recent_games_files := ∅;
              BedwarsStats.player_cooldowns := ∅ |} in
  let t' := @BedwarsStats.process_player_session PyFloat.ties_up
              "Steve" (Some current_stats) 0 t in
  BedwarsStats.numbered_densely
    (default BedwarsStats.empty_session_data
       (BedwarsStats.session_files t' !! "Steve")).
Proof.
  intros stats current_stats t t'.
  refine (proj1 (@process_player_session_numbering PyFloat.ties_up
                   "Steve" current_stats 0 t _)).
  apply numbered_densely_empty.
Defined.

Lemma short_session_starts_cooldown_witness :
  let stats :=
    @BedwarsStats._parse_bedwars_stats PyFloat.ties_up Examples.before_session in
  let current_stats :=
    @BedwarsStats._parse_bedwars_stats PyFloat.ties_up Examples.one_more_win in
  let t := {| BedwarsStats.baseline_files := {["Steve" := stats]};
              BedwarsStats.session_files := ∅;
              BedwarsStats.recent_games_files := ∅;
              BedwarsStats.player_cooldowns := ∅ |} in
  let t1 := @BedwarsStats.process_player_session PyFloat.ties_up
              "Steve" (Some current_stats) 0 t in
  @BedwarsStats.check_player PyFloat.ties_up Examples.silent_world t1 "Steve"
  = t1.
Proof.
  intros stats current_stats t t1.
  refine (proj2 (@short_session_starts_cooldown PyFloat.ties_up
                   Examples.silent_world "Steve" current_stats stats 0 t _ _) _).
  - apply lookup_singleton_eq.
  - vm_compute. split; discriminate.
  - vm_compute. reflexivity.
Defined.

Lemma check_cycle_frame_witness :
  let stats :=
    @BedwarsStats._parse_bedwars_stats PyFloat.ties_up Examples.before_session in
  let t := {| BedwarsStats.baseline_files := {["Alex" := stats]};
              BedwarsStats.session_files := ∅;
              BedwarsStats.recent_games_files := ∅;
              BedwarsStats.player_cooldowns := ∅ |} in
  BedwarsStats.baseline_files
    (@BedwarsStats.check_cycle PyFloat.ties_up Examples.silent_world ["Steve"] t)
    !! "Alex"
  = Some stats.
Proof.
  intros stats t.
  rewrite (proj1 (@check_cycle_frame PyFloat.ties_up Examples.silent_world
                    ["Steve"] "Alex" t
                    ltac:(intros Hin; apply list_elem_of_singleton in Hin;
                          discriminate))).
  apply lookup_singleton_eq.
Defined.

Lemma process_recent_games_other_types_witness :
  BedwarsStats.recent_log
    (BedwarsStats.process_recent_games "Steve"
       (Some [Examples.skywars_game]) Examples.no_files) "Steve"
  = BedwarsStats.recent_log Examples.no_files "Steve".
Proof.
  refine (proj1 (@process_recent_games_other_types PyFloat.ties_up "Steve"
                   [Examples.skywars_game] Examples.no_files _)).
  intros g Hg. apply list_elem_of_singleton in Hg. subst g. discriminate.
Defined.

Lemma processed_row_requeued_witness :
  let d := LeaderboardTracker.conn Examples.two_failed in
  (LeaderboardTracker.add_player_to_discovery
     "1b2c3d4e000000000000000000000001" None "guild" 90 d).2 = true
  /\ (LeaderboardTracker.add_player_to_discovery
        "1b2c3d4e-0000-0000-0000-000000000001" None "guild" 90 d).2 = false.
Proof.
  intros d.
  destruct (processed_row_requeued "1b2c3d4e000000000000000000000001"
              None "guild" 90 d) as [A B].
  - apply (bool_decide_unpack _). vm_compute. exact I.
  - apply (bool_decide_unpack _). vm_compute. exact I.
  - apply (bool_decide_unpack _). vm_compute. exact I.
  - split; [|exact B]. apply A.
    apply (bool_decide_unpack _). vm_compute. exact I.
Defined.

Lemma well_keyed_steps_witness :
  LeaderboardTracker.well_keyed
    (LeaderboardTracker.conn Examples.two_failed).
Proof.
  apply (well_keyed_steps Examples.two_queued).
  - apply rtc_once. apply LeaderboardTracker.step_consume.
  - split; [constructor|]. split; [constructor|].
    split; [apply (bool_decide_unpack _); vm_compute; exact I|].
    intros s Hs. apply elem_of_nil in Hs. destruct Hs.
Defined.

Lemma fetched_player_level_current_witness :
  let d' := LeaderboardTracker.save_player_stats Examples.fetched_stats
              "guild" 500 Examples.three_players in
  RecomputeLevels.latest_experience d' "u2" = Some 8200
  /\ "u2" ∉ (RecomputeLevels.updates_to_perform d').*2.
Proof.
  apply (fetched_player_level_current (λ _, "")
           (Some Examples.fetched_document) Examples.fetched_stats "guild" 500
           Examples.three_players).
  - vm_compute. reflexivity.
  - apply (bool_decide_unpack _). vm_compute. exact I.
Defined.

Lemma get_player_uuid_and_name_status_witness :
  let r := default (None, None, UuidIngestor.ERROR, Examples.fresh_ingestor)
             (UuidIngestor.get_player_uuid_and_name Examples.throttled_world 10
                "Dream" Examples.fresh_ingestor) in
  r.1.2 = UuidIngestor.SUCCESS
  /\ UuidIngestor.table_discovery r.2 = [].
Proof.
  intros r.
  assert (E : UuidIngestor.get_player_uuid_and_name Examples.throttled_world 10
                "Dream" Examples.fresh_ingestor
              = Some (r.1.1.1, r.1.1.2, r.1.2, r.2))
    by (vm_compute; reflexivity).
  split; [vm_compute; reflexivity|].
  destruct (get_player_uuid_and_name_status _ _ _ _ _ _ _ _ E)
    as (_ & _ & _ & Hd & _).
  exact Hd.
Defined.

Lemma get_player_uuid_and_name_ends_witness :
  exists r,
    UuidIngestor.get_player_uuid_and_name Examples.throttled_world 4
      "Technoblade" Examples.fresh_ingestor = Some r
    /\ (UuidIngestor.requests_made r.2 <= 3)%nat.
Proof.
  destruct (get_player_uuid_and_name_ends Examples.throttled_world 4
              "Technoblade" Examples.fresh_ingestor) as (r & Hr & Hn).
  - intros n. vm_compute. exact I.
  - lia.
  - exists r. split; [exact Hr|]. simpl in Hn. lia.
Defined.

Lemma get_player_uuid_and_name_spins_witness :
  UuidIngestor.get_player_uuid_and_name Examples.empty_answer_world 1000
    "Dream" Examples.fresh_ingestor = None.
Proof.
  apply get_player_uuid_and_name_spins.
  - intros n. left. reflexivity.
  - reflexivity.
Defined.

Lemma process_scraped_names_lookups_witness :
  let r := default (Examples.fresh_ingestor, 0)
             (UuidIngestor.process_scraped_names Examples.throttled_world 10
                (Some Examples.scraped_names) Examples.fresh_ingestor) in
  r.2 = 1
  /\ Z.of_nat (length (UuidIngestor.table_discovery r.1)) = 0 + r.2.
Proof.
  intros r.
  assert (E : UuidIngestor.process_scraped_names Examples.throttled_world 10
                (Some Examples.scraped_names) Examples.fresh_ingestor
              = Some (r.1, r.2))
    by (vm_compute; reflexivity).
  split; [vm_compute; reflexivity|].
  destruct (process_scraped_names_lookups _ _ _ _ _ _ E)
    as (new & _ & _ & _ & _ & Hd & _).
  exact Hd.
Defined.

Lemma process_scraped_names_cursor_witness :
  let st1 := Examples.after_first_run in
  let st2 := (default (st1, 0)
                (UuidIngestor.process_scraped_names Examples.throttled_world 10
                   (Some Examples.scraped_names_again) st1)).1 in
  let l := {| UuidIngestor.lk_line := 2; UuidIngestor.lk_name := "Dream";
              UuidIngestor.lk_status := UuidIngestor.SUCCESS |} in
  let k := {| UuidIngestor.lk_line := 3; UuidIngestor.lk_name := "Technoblade";
              UuidIngestor.lk_status := UuidIngestor.ERROR |} in
  drop (length (UuidIngestor.lookups st1)) (UuidIngestor.lookups st2) = [k]
  /\ UuidIngestor.lk_line l < UuidIngestor.lk_line k.
Proof.
  intros st1 st2 l k.
  assert (Hk : drop (length (UuidIngestor.lookups st1)) (UuidIngestor.lookups st2)
               = [k]) by (vm_compute; reflexivity).
  split; [exact Hk|].
  apply (process_scraped_names_cursor Examples.throttled_world 10
           Examples.scraped_names_again Examples.fresh_ingestor st1 1 l)
    with (w2 := Examples.throttled_world) (fuel2 := 10%nat) (st2 := st2)
         (n2 := 0).
  - vm_compute. reflexivity.
  - assert (Hl : drop (length (UuidIngestor.lookups Examples.fresh_ingestor))
                      (UuidIngestor.lookups st1)
                 = [{| UuidIngestor.lk_line := 1;
                       UuidIngestor.lk_name := "Technoblade";
                       UuidIngestor.lk_status := UuidIngestor.ERROR |}; l; k])
      by (vm_compute; reflexivity).
    rewrite Hl. apply elem_of_cons. right. apply elem_of_cons. by left.
  - left. reflexivity.
  - vm_compute. reflexivity.
  - rewrite Hk. apply list_elem_of_singleton. reflexivity.
Defined.
